(** * FeatureFlagClient: the request-execution pipeline

    A shallow embedding of [src/FeatureFlagClient.ts] (with the shapes of
    [src/types.ts]): request validation, cache-key derivation and lookup,
    the retry loop with its timeout timer, response interpretation, and the
    setters the specification speaks about.

    The client is a record; the host runtime (clock, pending timers, abort
    controllers, the log of observable effects) is a second record; an
    `async` method is a function in a small state-and-exception monad over
    the pair.  Every `await` that lets time pass advances the clock and
    fires the timers that fell due. *)

From stdpp Require Import base gmap strings list pretty.
From Stdlib Require Import ZArith Lia.

Set Warnings "-register-all".

Open Scope Z_scope.
Open Scope string_scope.
Open Scope list_scope.

(** ** Values of the host language *)

(** What [JSON.parse] can produce.  A number is kept as the decimal text
    that [String(n)] yields for it; an object is its list of members in
    source order, keys distinct after parsing. *)
Inductive Json : Type :=
| JNull
| JBool (b : bool)
| JNumber (text : string)
| JString (s : string)
| JArray (items : list Json)
| JObject (members : list (string * Json)).

(** A thrown value: every throw in the client and every rejection of the
    transport is an [Error] object, observed through [name] and [message]. *)
Record JsError := mkError { name : string; message : string }.

Definition Error (msg : string) : JsError := mkError "Error" msg.
Definition TypeError (msg : string) : JsError := mkError "TypeError" msg.

(** How an evaluation ends: with a value, or with a thrown error (for an
    `async` method: a resolved or a rejected promise). *)
Inductive Completion (A : Type) : Type :=
| Return (a : A)
| Throw (e : JsError).
Arguments Return {A} a.
Arguments Throw {A} e.

(** Host builtins whose output the client only passes on. *)
Class JSONStringify (A : Type) := JSON_stringify : A -> string.

(** [Array.prototype.join(",")] on already converted items. *)
Fixpoint join_comma (parts : list string) : string :=
  match parts with
  | [] => ""
  | [p] => p
  | p :: rest => p +:+ "," +:+ join_comma rest
  end.

(** First member of an object with the given key. *)
Fixpoint member (k : string) (members : list (string * Json)) : option Json :=
  match members with
  | [] => None
  | (k', v) :: rest => if bool_decide (k' = k) then Some v else member k rest
  end.

(** [String(v)], as a template literal applies it to a parsed value.  An
    array joins its items, [null] items as the empty string.  A plain
    object prints as [[object Object]]; one that carries a member named
    [toString] has shadowed the inherited method with something that cannot
    be called, and the conversion throws. *)
Fixpoint toString (v : Json) : Completion string :=
  match v with
  | JNull => Return "null"
  | JBool true => Return "true"
  | JBool false => Return "false"
  | JNumber text => Return text
  | JString s => Return s
  | JArray items =>
      match
        (fix each (l : list Json) : Completion (list string) :=
           match l with
           | [] => Return []
           | x :: l' =>
               match (match x with JNull => Return "" | _ => toString x end) with
               | Throw e => Throw e
               | Return s =>
                   match each l' with
                   | Throw e => Throw e
                   | Return ss => Return (s :: ss)
                   end
               end
           end) items
      with
      | Throw e => Throw e
      | Return parts => Return (join_comma parts)
      end
  | JObject members =>
      match member "toString" members with
      | Some _ => Throw (TypeError "Cannot convert object to primitive value")
      | None => Return "[object Object]"
      end
  end.

(** [`${x}`] where [x] may be [undefined]. *)
Definition template (x : option string) : string :=
  match x with
  | Some s => s
  | None => "undefined"
  end.

(** [!s] for a value that is a string or [undefined]. *)
Definition falsy (x : option string) : bool :=
  match x with
  | None => true
  | Some s => bool_decide (s = "")
  end.

(** ** types.ts *)

Module User.
Record t := mk { id : option string; email : option string }.
End User.

(** [EvaluateFlagsRequest | EvaluateFlagRequest]: one object shape, a field
    that is not there is [None] (the tests pass such objects through a
    cast). *)
Record Request := mkRequest {
  flag : option string;
  environment : option string;
  user : option User.t
}.

Record ValidationProps := mkProps {
  request : Request;
  isMultiple : option bool
}.

Module Config.
Record t := mk {
  key : string;
  baseUrl : option string;
  customHeaders : option (gmap string string);
  debug : option bool;
  defaultTimeout : option Z
}.
End Config.

(** ** Pure helpers of the class *)

Definition DEFAULT_BASE_URL : string := "http://localhost:5173".

Definition is_hex_digit (c : Ascii.ascii) : bool :=
  let n := Ascii.nat_of_ascii c in
  ((48 <=? n) && (n <=? 57) || (97 <=? n) && (n <=? 102)
   || (65 <=? n) && (n <=? 70))%nat.

(** [/^[0-9a-f]{32}$/i.test(key)] *)
Definition validateApiKey (key : string) : bool :=
  bool_decide (String.length key = 32%nat)
  && forallb is_hex_digit (String.list_ascii_of_string key).

(** [validateRequest({ request, isMultiple })] *)
Definition validateRequest (props : ValidationProps) : Completion unit :=
  if negb (default false (isMultiple props))
     && negb (bool_decide (is_Some (flag (request props))))
  then Throw (Error "Flag is required")
  else if falsy (environment (request props))
  then Throw (Error "Environment is required")
  else if match user (request props) with
          | None => true
          | Some u => falsy (User.id u)
          end
  then Throw (Error "User ID is required")
  else Return tt.

(** [getCacheKey(request)]: reading [id] off a missing user is a
    [TypeError]. *)
Definition getCacheKey (request : Request) : Completion string :=
  match user request with
  | None => Throw (TypeError "Cannot read properties of undefined (reading 'id')")
  | Some u =>
      Return (template (environment request) +:+ ":" +:+ template (User.id u))
  end.

(** ** The transport collaborator *)

(** What the client reads off a response: [.ok], the outcome of [.json()],
    and [.text()].  [.clone()] yields a response with the same three. *)
Record Response := mkResponse {
  ok : bool;
  json : Completion Json;
  text : string
}.

(** The second argument of [fetch].  The Fetch API cancels a call only
    through [signal]; a call made without one runs to its end. *)
Record RequestInit := mkInit {
  method : string;
  headers : gmap string string;
  body : string;
  signal : option nat
}.

(** One call of the transport: how long it stays in flight and how it
    settles. *)
Record FetchOutcome := mkOutcome {
  latency : Z;
  settled : Completion Response
}.

(** The injectable [fetch]; the first argument counts the calls it has
    served before this one, so that successive attempts may differ. *)
Definition Transport : Type := nat -> string -> RequestInit -> FetchOutcome.

(** ** The client object *)

Record RetryPolicy := mkPolicy { retries : Z; delay : Z }.

Inductive Partition := FlagCache | FlagsCache.

Record Client := mkClient {
  baseUrl : string;
  debug : bool;
  defaultTimeout : Z;
  cacheTTL : Z;
  customHeaders : gmap string string;
  fetch : Transport;
  flagCache : gmap string Json;
  flagsCache : gmap string Json;
  key : string;
  retryPolicy : RetryPolicy
}.

Definition cache (p : Partition) (c : Client) : gmap string Json :=
  match p with
  | FlagCache => flagCache c
  | FlagsCache => flagsCache c
  end.

Definition with_cache (p : Partition) (m : gmap string Json) (c : Client) : Client :=
  match p with
  | FlagCache =>
      mkClient (baseUrl c) (debug c) (defaultTimeout c) (cacheTTL c)
        (customHeaders c) (fetch c) m (flagsCache c) (key c) (retryPolicy c)
  | FlagsCache =>
      mkClient (baseUrl c) (debug c) (defaultTimeout c) (cacheTTL c)
        (customHeaders c) (fetch c) (flagCache c) m (key c) (retryPolicy c)
  end.

Definition with_key (k : string) (c : Client) : Client :=
  mkClient (baseUrl c) (debug c) (defaultTimeout c) (cacheTTL c)
    (customHeaders c) (fetch c) (flagCache c) (flagsCache c) k (retryPolicy c).

Definition with_retryPolicy (p : RetryPolicy) (c : Client) : Client :=
  mkClient (baseUrl c) (debug c) (defaultTimeout c) (cacheTTL c)
    (customHeaders c) (fetch c) (flagCache c) (flagsCache c) (key c) p.

(** ** The host runtime *)

(** Observable effects, oldest first. *)
Inductive Event :=
| EvLog (line : string)
| EvFetch (url : string) (init : RequestInit)
| EvDelay (ms : Z).

(** The two closures the client hands to [setTimeout]. *)
Inductive Callback :=
| CbAbort (controller : nat)
| CbEvict (p : Partition) (k : string).

Record Timer := mkTimer { timer_id : nat; due : Z; callback : Callback }.

Record Runtime := mkRuntime {
  now : Z;
  timers : list Timer;
  fresh : nat;
  aborted : gset nat;
  served : nat;
  trace : list Event
}.

Definition State : Type := Client * Runtime.

Definition emit (ev : Event) (r : Runtime) : Runtime :=
  mkRuntime (now r) (timers r) (fresh r) (aborted r) (served r) (trace r ++ [ev]).

(** Running one timer callback. *)
Definition fire (st : State) (t : Timer) : State :=
  let '(c, r) := st in
  match callback t with
  | CbAbort n =>
      (c, mkRuntime (now r) (timers r) (fresh r) ({[ n ]} ∪ aborted r)
            (served r) (trace r))
  | CbEvict p k => (with_cache p (delete k (cache p c)) c, r)
  end.

(** Let [ms] milliseconds pass: the clock moves and the timers that fell
    due run, each once. *)
Definition elapse (ms : Z) (st : State) : State :=
  let '(c, r) := st in
  let t := now r + Z.max 0 ms in
  let ripe := filter (fun x => due x <= t) (timers r) in
  let pending := filter (fun x => ¬ due x <= t) (timers r) in
  foldl fire
    (c, mkRuntime t pending (fresh r) (aborted r) (served r) (trace r)) ripe.

(** ** The monad of methods *)

Definition M (A : Type) : Type := State -> Completion A * State.

Definition ret {A} (a : A) : M A := fun st => (Return a, st).
Definition throw {A} (e : JsError) : M A := fun st => (Throw e, st).
Definition bind {A B} (m : M A) (k : A -> M B) : M B :=
  fun st =>
    match m st with
    | (Return a, st') => k a st'
    | (Throw e, st') => (Throw e, st')
    end.
Definition try_catch {A} (m : M A) (handler : JsError -> M A) : M A :=
  fun st =>
    match m st with
    | (Return a, st') => (Return a, st')
    | (Throw e, st') => handler e st'
    end.
Definition lift {A} (c : Completion A) : M A := fun st => (c, st).
Definition read {A} (f : Client -> A) : M A := fun st => (Return (f (fst st)), st).

Notation "x <- m ;; k" := (bind m (fun x => k))
  (at level 100, m at next level, right associativity).
Notation "m ;;; k" := (bind m (fun _ => k))
  (at level 100, right associativity).

(** ** Runtime primitives *)

(** The longest delay the host's timers take, in milliseconds: 2^31 - 1. *)
Definition TIMEOUT_MAX : Z := 2147483647.

(** The delay the host gives a timer asked for [ms] milliseconds.  The
    host is Node, where the tests of the repository run: a delay below 1
    or above [TIMEOUT_MAX] is set to 1.  (A browser wraps the delay to 32
    bits instead; there too a delay above [TIMEOUT_MAX] is not waited, and
    the two agree from 1 to [TIMEOUT_MAX].) *)
Definition timer_delay (ms : Z) : Z :=
  if bool_decide (1 <= ms <= TIMEOUT_MAX) then ms else 1.

(** [setTimeout(cb, ms)] *)
Definition setTimeout (cb : Callback) (ms : Z) : M nat :=
  fun '(c, r) =>
    (Return (fresh r),
     (c, mkRuntime (now r)
           (timers r ++ [mkTimer (fresh r) (now r + timer_delay ms) cb])
           (S (fresh r)) (aborted r) (served r) (trace r))).

Definition clearTimeout (timeoutId : nat) : M unit :=
  fun '(c, r) =>
    (Return tt,
     (c, mkRuntime (now r)
           (filter (fun t => timer_id t ≠ timeoutId) (timers r))
           (fresh r) (aborted r) (served r) (trace r))).

(** [new AbortController()] *)
Definition newAbortController : M nat :=
  fun '(c, r) =>
    (Return (fresh r),
     (c, mkRuntime (now r) (timers r) (S (fresh r)) (aborted r) (served r)
           (trace r))).

(** [await this.fetch(url, init)]: the call is handed to the transport,
    time passes while it is in flight, then it settles. *)
Definition await_fetch (url : string) (init : RequestInit) : M Response :=
  fun '(c, r) =>
    let outcome := fetch c (served r) url init in
    let r' := mkRuntime (now r) (timers r) (fresh r) (aborted r)
                (S (served r)) (trace r ++ [EvFetch url init]) in
    (settled outcome, elapse (latency outcome) (c, r')).

(** [await new Promise((resolve) => setTimeout(resolve, ms))]: the promise
    resolves when the host's timer falls due, [timer_delay ms] milliseconds
    from now; [EvDelay] records the delay that was asked for. *)
Definition sleep (ms : Z) : M unit :=
  fun '(c, r) => (Return tt, elapse (timer_delay ms) (c, emit (EvDelay ms) r)).

(** ** Private methods *)

Definition getHeaders (c : Client) : gmap string string :=
  customHeaders c
    ∪ <["x-api-key" := key c]> (<["Content-Type" := "application/json"]> ∅).

Definition log (msg : string) : M unit :=
  fun '(c, r) =>
    if debug c
    then (Return tt, (c, emit (EvLog ("[FeatureFlagClient] " +:+ msg)) r))
    else (Return tt, (c, r)).

(** [errorResponse.error]: a property read on whatever the body parsed to. *)
Definition get_error (errorResponse : Json) : Completion (option Json) :=
  match errorResponse with
  | JNull => Throw (TypeError "Cannot read properties of null (reading 'error')")
  | JObject members => Return (member "error" members)
  | _ => Return None
  end.

(** [x ?? fallback] followed by the conversion the template literal does. *)
Definition detail_or (x : option Json) (fallback : string) : Completion string :=
  match x with
  | None | Some JNull => Return fallback
  | Some v => toString v
  end.

(** [handleErrorResponse(response, errorMessage)].  It awaits only the
    body readers of the response, which are taken to answer at once, and
    touches no state. *)
Definition handleErrorResponse (response : Response) (errorMessage : string)
  : Completion Json :=
  if negb (ok response) then
    let errorDetail := "Internal Server Error" in
    let clonedResponse := response in
    let extracted : option Json + string :=
      match json clonedResponse with
      | Return errorResponse =>
          match get_error errorResponse with
          | Return x => inl x
          | Throw jsonError => inr (text response)
          end
      | Throw jsonError => inr (text response)
      end in
    match
      match extracted with
      | inl x => detail_or x errorDetail
      | inr rawError => Return rawError
      end
    with
    | Return errorDetail => Throw (Error (errorMessage +:+ ": " +:+ errorDetail))
    | Throw e => Throw e
    end
  else json response.

Definition setCache (p : Partition) (k : string) (value : Json) : M unit :=
  fun '(c, r) =>
    let c' := with_cache p (<[k := value]> (cache p c)) c in
    if bool_decide (cacheTTL c' > 0)
    then (_ <- setTimeout (CbEvict p k) (cacheTTL c') ;; ret tt) (c', r)
    else (Return tt, (c', r)).

(** ** Public methods *)

Section Evaluation.

Context `{!JSONStringify Request} `{!JSONStringify Json}.

(** The [try] block of one attempt of [evaluateFlags]. *)
Definition try_evaluateFlags (request : Request) (timeout : Z)
    (cacheKey : string) : M Json :=
  controller <- newAbortController ;;
  timeoutId <- setTimeout (CbAbort controller) timeout ;;
  url <- read (fun c => baseUrl c +:+ "/api/v1/evaluate/flags") ;;
  hdrs <- read getHeaders ;;
  response <- await_fetch url
                (mkInit "POST" hdrs (JSON_stringify request) None) ;;
  clearTimeout timeoutId ;;;
  flags <- lift (handleErrorResponse response "Failed to evaluate flags") ;;
  log ("Flags evaluated: " +:+ JSON_stringify flags) ;;;
  setCache FlagsCache cacheKey flags ;;;
  ret flags.

(** The [catch] block of [evaluateFlags]; [None] lets the loop go on. *)
Definition catch_evaluateFlags (attempt : Z) (error : JsError)
    : M (option Json) :=
  log ("Attempt " +:+ pretty attempt +:+ " failed.") ;;;
  policy <- read retryPolicy ;;
  if bool_decide (attempt = retries policy)
  then throw (Error (message error))
  else sleep (delay policy) ;;; ret None.

(** The [for] loop of [evaluateFlags], from [attempt] on.  [fuel] bounds
    the iterations still to run; falling off the loop yields
    [undefined]. *)
Fixpoint loop_evaluateFlags (fuel : nat) (request : Request) (timeout : Z)
    (cacheKey : string) (attempt : Z) : M (option Json) :=
  policy <- read retryPolicy ;;
  if bool_decide (attempt <= retries policy) then
    match fuel with
    | O => ret None
    | S fuel' =>
        r <- try_catch
               (flags <- try_evaluateFlags request timeout cacheKey ;;
                ret (Some flags))
               (catch_evaluateFlags attempt) ;;
        match r with
        | Some flags => ret (Some flags)
        | None =>
            loop_evaluateFlags fuel' request timeout cacheKey (attempt + 1)
        end
    end
  else ret None.

Definition evaluateFlags (request : Request) (timeout : option Z)
    : M (option Json) :=
  timeout <- match timeout with
             | Some t => ret t
             | None => read defaultTimeout
             end ;;
  log "Evaluating flags..." ;;;
  lift (validateRequest (mkProps request (Some true))) ;;;
  cacheKey <- lift (getCacheKey request) ;;
  flagsCache <- read flagsCache ;;
  match flagsCache !! cacheKey with
  | Some cached => ret (Some cached)
  | None =>
      policy <- read retryPolicy ;;
      loop_evaluateFlags (Z.to_nat (retries policy)) request timeout
        cacheKey 1
  end.

(** The [try] block of one attempt of [evaluateFlag]. *)
Definition try_evaluateFlag (request : Request) (timeout : Z)
    (cacheKey : string) : M Json :=
  controller <- newAbortController ;;
  timeoutId <- setTimeout (CbAbort controller) timeout ;;
  url <- read (fun c => baseUrl c +:+ "/api/v1/evaluate/flag") ;;
  hdrs <- read getHeaders ;;
  response <- await_fetch url
                (mkInit "POST" hdrs (JSON_stringify request) None) ;;
  clearTimeout timeoutId ;;;
  flag <- lift (handleErrorResponse response "Failed to evaluate flag") ;;
  log ("Flag evaluated: " +:+ JSON_stringify flag) ;;;
  setCache FlagCache cacheKey flag ;;;
  ret flag.

(** The [catch] block of [evaluateFlag]. *)
Definition catch_evaluateFlag (attempt : Z) (error : JsError)
    : M (option Json) :=
  log ("Attempt " +:+ pretty attempt +:+ " failed.") ;;;
  policy <- read retryPolicy ;;
  if bool_decide (attempt >= retries policy)
  then throw error
  else sleep (delay policy) ;;; ret None.

Fixpoint loop_evaluateFlag (fuel : nat) (request : Request) (timeout : Z)
    (cacheKey : string) (attempt : Z) : M (option Json) :=
  policy <- read retryPolicy ;;
  if bool_decide (attempt <= retries policy) then
    match fuel with
    | O => ret None
    | S fuel' =>
        r <- try_catch
               (flag <- try_evaluateFlag request timeout cacheKey ;;
                ret (Some flag))
               (catch_evaluateFlag attempt) ;;
        match r with
        | Some flag => ret (Some flag)
        | None =>
            loop_evaluateFlag fuel' request timeout cacheKey (attempt + 1)
        end
    end
  else ret None.

Definition evaluateFlag (request : Request) (timeout : option Z)
    : M (option Json) :=
  timeout <- match timeout with
             | Some t => ret t
             | None => read defaultTimeout
             end ;;
  log "Evaluating flag..." ;;;
  lift (validateRequest (mkProps request None)) ;;;
  cacheKey <- lift (getCacheKey request) ;;
  flagCache <- read flagCache ;;
  match flagCache !! cacheKey with
  | Some cached => ret (Some cached)
  | None =>
      policy <- read retryPolicy ;;
      loop_evaluateFlag (Z.to_nat (retries policy)) request timeout
        cacheKey 1
  end.

End Evaluation.

(** [new FeatureFlagClient(config)]; [hostFetch] is the global [fetch] the
    constructor falls back to. *)
Definition constructor (config : Config.t) (customFetch : option Transport)
    (hostFetch : Transport) : Completion Client :=
  if bool_decide (Config.key config = "") || negb (validateApiKey (Config.key config))
  then Throw (Error "Invalid API key. The key must be a 32-character hexadecimal string.")
  else
    Return
      (mkClient
         (match Config.baseUrl config with
          | Some u => if bool_decide (u = "") then DEFAULT_BASE_URL else u
          | None => DEFAULT_BASE_URL
          end)
         (default false (Config.debug config))
         (match Config.defaultTimeout config with
          | Some t => if bool_decide (t = 0) then 5000 else t
          | None => 5000
          end)
         0
         (default ∅ (Config.customHeaders config))
         (default hostFetch customFetch)
         ∅ ∅
         (Config.key config)
         (mkPolicy 3 1000)).

Definition setApiKey (k : string) : M unit :=
  if bool_decide (k = "") then throw (Error "API key is required")
  else
    (fun '(c, r) => (Return tt, (with_key k c, r))) ;;;
    log "API key updated.".

Definition setRetryPolicy (n : Z) (ms : Z) : M unit :=
  (fun '(c, r) => (Return tt, (with_retryPolicy (mkPolicy n ms) c, r))) ;;;
  log ("Retry policy updated: " +:+ pretty n +:+ " retries with "
       +:+ pretty ms +:+ "ms delay.").

Definition clearCache : M unit :=
  (fun '(c, r) =>
     (Return tt, (with_cache FlagsCache ∅ (with_cache FlagCache ∅ c), r))) ;;;
  log "Cache cleared.".

(** ** The remaining public methods *)

Definition with_debug (b : bool) (c : Client) : Client :=
  mkClient (baseUrl c) b (defaultTimeout c) (cacheTTL c)
    (customHeaders c) (fetch c) (flagCache c) (flagsCache c) (key c)
    (retryPolicy c).

Definition with_baseUrl (u : string) (c : Client) : Client :=
  mkClient u (debug c) (defaultTimeout c) (cacheTTL c)
    (customHeaders c) (fetch c) (flagCache c) (flagsCache c) (key c)
    (retryPolicy c).

Definition with_defaultTimeout (t : Z) (c : Client) : Client :=
  mkClient (baseUrl c) (debug c) t (cacheTTL c)
    (customHeaders c) (fetch c) (flagCache c) (flagsCache c) (key c)
    (retryPolicy c).

Definition with_cacheTTL (ttl : Z) (c : Client) : Client :=
  mkClient (baseUrl c) (debug c) (defaultTimeout c) ttl
    (customHeaders c) (fetch c) (flagCache c) (flagsCache c) (key c)
    (retryPolicy c).

Definition with_customHeaders (h : gmap string string) (c : Client) : Client :=
  mkClient (baseUrl c) (debug c) (defaultTimeout c) (cacheTTL c)
    h (fetch c) (flagCache c) (flagsCache c) (key c) (retryPolicy c).

(** [this.field = value] *)
Definition assign (f : Client -> Client) : M unit :=
  fun '(c, r) => (Return tt, (f c, r)).

(** Whether [new URL(s)] parses; the parser is the host's. *)
Class URLParser := URL_parses : string -> bool.

(** [validateBaseUrl(baseUrl)]: [true] when [new URL(baseUrl)] returns,
    [false] when it throws. *)
Definition validateBaseUrl `{!URLParser} (u : string) : bool := URL_parses u.

Definition setDebug (enabled : bool) : M unit :=
  assign (with_debug enabled) ;;;
  log ("Debug logging " +:+ (if enabled then "enabled" else "disabled") +:+ ".").

Definition setBaseUrl `{!URLParser} (u : string) : M unit :=
  if negb (validateBaseUrl u)
  then throw (Error ("Invalid base URL: " +:+ u))
  else
    assign (with_baseUrl u) ;;;
    log ("Base URL updated to: " +:+ u).

Definition resetBaseUrl : M unit :=
  assign (with_baseUrl DEFAULT_BASE_URL) ;;;
  u <- read baseUrl ;;
  log ("Base URL reset to: " +:+ u).

Definition setCustomHeaders (hdrs : gmap string string) : M unit :=
  assign (with_customHeaders hdrs) ;;;
  log "Custom headers updated.".

Definition setCacheTTL (ttl : Z) : M unit :=
  assign (with_cacheTTL ttl) ;;;
  log ("Cache TTL set to: " +:+ pretty ttl +:+ "ms.").

(** The object [getCacheSize()] returns. *)
Record CacheSize := mkCacheSize { flagCache_size : nat; flagsCache_size : nat }.

Definition getCacheSize (c : Client) : CacheSize :=
  mkCacheSize (size (flagCache c)) (size (flagsCache c)).

(** The method [setTimeout(timeout)] of the class (not the host's timer
    function of the same name). *)
Definition setDefaultTimeout (timeout : Z) : M unit :=
  assign (with_defaultTimeout timeout) ;;;
  log ("Default timeout updated to: " +:+ pretty timeout +:+ "ms").

Definition getConfig (c : Client) : Config.t :=
  Config.mk (key c) (Some (baseUrl c)) (Some (customHeaders c))
    (Some (debug c)) (Some (defaultTimeout c)).

(** ** Vocabulary of the properties *)

(** Everything of the client but the two caches. *)
Definition settings (c : Client) :=
  (baseUrl c, debug c, defaultTimeout c, cacheTTL c, customHeaders c,
   fetch c, key c, retryPolicy c).

(** The effects that reach outside the process: calls of the transport and
    waits between attempts. *)
Definition is_network (ev : Event) : bool :=
  match ev with
  | EvLog _ => false
  | _ => true
  end.

Definition network (tr : list Event) : list Event := List.filter is_network tr.

(** The [signal] each call of the transport was given, in order. *)
Definition fetch_signals (tr : list Event) : list (option nat) :=
  omap (fun ev => match ev with
                  | EvFetch _ init => Some (signal init)
                  | _ => None
                  end) tr.

(** The runtime after [log msg]. *)
Definition logged (msg : string) (c : Client) (r : Runtime) : Runtime :=
  if debug c then emit (EvLog ("[FeatureFlagClient] " +:+ msg)) r else r.

(** Calls of the transport made while [m] ran from [st]. *)
Definition attempts_made {A} (m : M A) (st : State) : nat :=
  (served (snd (snd (m st))) - served (snd st))%nat.

(** How an attempt ends, read off what the transport answers. *)
Definition attempt_result (prefix : string) (o : FetchOutcome) : Completion Json :=
  match settled o with
  | Throw e => Throw e
  | Return response => handleErrorResponse response prefix
  end.

(** A transport failure: the call rejects, or the status is not a success. *)
Definition transport_fails (o : FetchOutcome) : bool :=
  match settled o with
  | Throw _ => true
  | Return response => negb (ok response)
  end.


(** [timeout: number = this.defaultTimeout] *)
Definition effective_timeout (timeout : option Z) (c : Client) : Z :=
  default (defaultTimeout c) timeout.

(** The request passes [validateRequest] in the given mode. *)
Definition valid (multiple : option bool) (req : Request) : Prop :=
  validateRequest (mkProps req multiple) = Return tt.

(** The validation contract in the specification's words: three conditions,
    tried in order, the first that holds names the failure. *)
Definition validation_failure (single : bool) (req : Request) : option string :=
  match single, flag req with
  | true, None => Some "Flag is required"
  | _, _ =>
      match environment req with
      | None | Some "" => Some "Environment is required"
      | Some _ =>
          match user req with
          | None => Some "User ID is required"
          | Some u =>
              match User.id u with
              | None | Some "" => Some "User ID is required"
              | Some _ => None
              end
          end
      end
  end.

Definition flags_url (c : Client) : string := baseUrl c +:+ "/api/v1/evaluate/flags".
Definition flag_url (c : Client) : string := baseUrl c +:+ "/api/v1/evaluate/flag".

Definition init_of `{!JSONStringify Request} (c : Client) (req : Request)
    : RequestInit :=
  mkInit "POST" (getHeaders c) (JSON_stringify req) None.

(** What a call whose every attempt fails lets the outside see: one call of
    the transport per attempt, one wait between two attempts. *)
Definition retry_schedule (attempts : nat) (url : string) (init : RequestInit)
    (ms : Z) : list Event :=
  match attempts with
  | O => []
  | S n => EvFetch url init :: concat (replicate n [EvDelay ms; EvFetch url init])
  end.

(** A timer whose callback deletes a cache entry. *)
Definition is_eviction (t : Timer) : Prop :=
  exists p k, callback t = CbEvict p k.

(** The runtime after [setCache] has armed the eviction of [k]. *)
Definition armed (p : Partition) (k : string) (ttl : Z) (r : Runtime) : Runtime :=
  mkRuntime (now r)
    (timers r ++ [mkTimer (fresh r) (now r + timer_delay ttl) (CbEvict p k)])
    (S (fresh r)) (aborted r) (served r) (trace r).

(** A string with no colon in it. *)
Definition colon_free (s : string) : Prop :=
  forall x y, s <> x +:+ ":" +:+ y.

#[global] Instance Partition_eq_dec : EqDecision Partition.
Proof. solve_decision. Defined.

#[global] Instance Callback_eq_dec : EqDecision Callback.
Proof. solve_decision. Defined.

#[global] Instance is_eviction_dec (t : Timer) : Decision (is_eviction t).
Proof.
  unfold is_eviction. destruct (callback t) as [n | p k].
  - right. by intros (p & k & ?).
  - left. by exists p, k.
Defined.

(** All of a state that the client or its transport can read back: the
    client, the clock, the counters, the record of effects and the pending
    evictions.  Left out are the pending abort timers and the set of
    aborted controllers. *)
Definition visible (st : State) :=
  (fst st, now (snd st), fresh (snd st), served (snd st), trace (snd st),
   filter is_eviction (timers (snd st))).

(** Two methods that, started from states with the same visible part,
    end the same way in states with the same visible part. *)
Definition alike {A} (m1 m2 : M A) : Prop :=
  forall st1 st2, visible st1 = visible st2 ->
    fst (m1 st1) = fst (m2 st2) /\ visible (snd (m1 st1)) = visible (snd (m2 st2)).

(** The time [n] successive calls of the transport are in flight, the
    first of them being the call number [first]. *)
Fixpoint time_in_flight (t : Transport) (url : string) (init : RequestInit)
    (first n : nat) : Z :=
  match n with
  | O => 0
  | S n' =>
      Z.max 0 (latency (t first url init))
      + time_in_flight t url init (S first) n'
  end.

(** The lines handed to the logger, in order. *)
Definition log_lines (tr : list Event) : list string :=
  omap (fun ev => match ev with
                  | EvLog line => Some line
                  | _ => None
                  end) tr.

(** The lines that [n] failed attempts in a row leave in the log, the first
    of them being the attempt number [attempt]. *)
Fixpoint failure_lines (attempt : Z) (n : nat) : list string :=
  match n with
  | O => []
  | S n' =>
      ("[FeatureFlagClient] Attempt " +:+ pretty attempt +:+ " failed.")
      :: failure_lines (attempt + 1) n'
  end.

(** ** A sample client, after the test suite *)

Module Sample.

(** Stand-ins for the host's [JSON.stringify]; nothing below depends on
    what they print. *)
Definition stringify_request : JSONStringify Request := fun _ => "{}".
Definition stringify_json : JSONStringify Json := fun _ => "null".

Definition request : Request :=
  mkRequest (Some "flag-example") (Some "production")
    (Some (User.mk (Some "user1") (Some "user1@example.com"))).

Definition other_flag : Request :=
  mkRequest (Some "another-flag") (Some "production")
    (Some (User.mk (Some "user1") (Some "user1@example.com"))).

Definition empty_flag : Request :=
  mkRequest (Some "") (Some "production")
    (Some (User.mk (Some "user1") (Some "user1@example.com"))).

Definition no_user_id : Request :=
  mkRequest (Some "feature-1") (Some "production")
    (Some (User.mk None (Some "user1@example.com"))).

Definition feature1 : Json :=
  JObject [("flag", JString "feature1"); ("enabled", JBool true)].

(** Answers after nine seconds, with a good body. *)
Definition slow : Transport :=
  fun _ _ _ =>
    mkOutcome 9000 (Return (mkResponse true (Return feature1) "feature1: on")).


(** Answers at once with status 500 and a JSON error body. *)
Definition failing : Transport :=
  fun _ _ _ =>
    mkOutcome 10
      (Return (mkResponse false
                 (Return (JObject [("error", JString "Custom error message")]))
                 "error: Custom error message")).

Definition config : Config.t :=
  Config.mk "0da8f357ce7a2b01effe5992f295a592" (Some "https://api.example.com")
    None None None.

(** [new FeatureFlagClient(config)] with the given transport injected. *)
Definition client (t : Transport) : Client :=
  mkClient "https://api.example.com" false 5000 0 ∅ t ∅ ∅
    "0da8f357ce7a2b01effe5992f295a592" (mkPolicy 3 1000).

Definition boot : Runtime := mkRuntime 0 [] 0 ∅ 0 [].

(** Answers at once with status 200 and one evaluated flag. *)
Definition prompt : Transport :=
  fun _ _ _ =>
    mkOutcome 10 (Return (mkResponse true (Return feature1) "feature1: on")).

(** Fails twice with status 500, then answers. *)
Definition flaky : Transport :=
  fun n url init =>
    if (n <? 2)%nat then failing n url init else prompt n url init.

(** The network is down: every call rejects after ten milliseconds. *)
Definition unreachable : Transport :=
  fun _ _ _ => mkOutcome 10 (Throw (TypeError "fetch failed")).

(** A response with status 500 and an empty body: [json()] rejects and
    [text()] is the empty string. *)
Definition empty_500 : Response :=
  mkResponse false
    (Throw (mkError "SyntaxError" "Unexpected end of JSON input")) "".

(** A response with status 500 whose body is the JSON literal [null]. *)
Definition null_500 : Response := mkResponse false (Return JNull) "null".

(** Answers at once with status 500 and an empty body. *)
Definition hollow : Transport := fun _ _ _ => mkOutcome 10 (Return empty_500).

(** Stand-in for the host's [URL] parser: it accepts the strings that
    start with an http or https scheme. *)
Definition url_parser : URLParser :=
  fun u => String.prefix "http://" u || String.prefix "https://" u.

End Sample.

(** * Properties *)

Arguments elapse : simpl never.
Arguments log : simpl never.
Arguments setCache : simpl never.

(** ** The host's timers *)

Lemma timer_delay_pos ms : 1 <= timer_delay ms <= TIMEOUT_MAX.
Proof. unfold timer_delay, TIMEOUT_MAX. case_bool_decide; lia. Qed.

Lemma timer_delay_in_range ms : 1 <= ms <= TIMEOUT_MAX -> timer_delay ms = ms.
Proof. intros Hr. unfold timer_delay. by rewrite bool_decide_eq_true_2. Qed.

Lemma timer_delay_le ms : 1 <= ms -> timer_delay ms <= ms.
Proof. intros Hr. unfold timer_delay. case_bool_decide; lia. Qed.

Lemma timer_delay_max ms : Z.max 0 (timer_delay ms) = timer_delay ms.
Proof. pose proof (timer_delay_pos ms). lia. Qed.

(** ** What a step may change *)

Lemma network_app tr1 tr2 : network (tr1 ++ tr2) = network tr1 ++ network tr2.
Proof. apply List.filter_app. Qed.

Lemma with_cache_settings p m c : settings (with_cache p m c) = settings c.
Proof. by destruct p. Qed.

Lemma fire_frame st t :
  settings (fst (fire st t)) = settings (fst st)
  /\ trace (snd (fire st t)) = trace (snd st)
  /\ served (snd (fire st t)) = served (snd st)
  /\ fresh (snd (fire st t)) = fresh (snd st)
  /\ aborted (snd st) ⊆ aborted (snd (fire st t)).
Proof.
  destruct st as [c r]; unfold fire; destruct (callback t) as [n | p k]; simpl.
  - split_and!; try done. apply union_subseteq_r.
  - by rewrite with_cache_settings.
Qed.

Lemma foldl_fire_frame l st :
  settings (fst (foldl fire st l)) = settings (fst st)
  /\ trace (snd (foldl fire st l)) = trace (snd st)
  /\ served (snd (foldl fire st l)) = served (snd st)
  /\ fresh (snd (foldl fire st l)) = fresh (snd st)
  /\ aborted (snd st) ⊆ aborted (snd (foldl fire st l)).
Proof.
  revert st; induction l as [| t l IH]; intros st; simpl; [done |].
  destruct (IH (fire st t)) as (-> & -> & -> & -> & Hsub).
  destruct (fire_frame st t) as (-> & -> & -> & -> & Hsub').
  split_and!; try done. by etrans.
Qed.

(** Passing time touches the caches, the clock, the timers and the abort
    flags, and nothing else. *)
Lemma elapse_frame ms c r :
  settings (fst (elapse ms (c, r))) = settings c
  /\ trace (snd (elapse ms (c, r))) = trace r
  /\ served (snd (elapse ms (c, r))) = served r
  /\ fresh (snd (elapse ms (c, r))) = fresh r
  /\ aborted r ⊆ aborted (snd (elapse ms (c, r))).
Proof.
  unfold elapse.
  match goal with |- context [foldl fire ?s ?l] =>
    destruct (foldl_fire_frame l s) as (-> & -> & -> & -> & Hsub) end.
  done.
Qed.

Lemma fire_aborts st t n :
  callback t = CbAbort n -> n ∈ aborted (snd (fire st t)).
Proof.
  destruct st as [c r]; unfold fire; intros ->; simpl.
  apply elem_of_union_l. by apply elem_of_singleton.
Qed.

Lemma foldl_fire_aborts l st t n :
  t ∈ l -> callback t = CbAbort n -> n ∈ aborted (snd (foldl fire st l)).
Proof.
  revert st; induction l as [| t' l IH]; intros st Hin Hcb.
  - by apply elem_of_nil in Hin.
  - apply elem_of_cons in Hin as [<- | Hin]; simpl.
    + destruct (foldl_fire_frame l (fire st t)) as (_ & _ & _ & _ & Hsub).
      apply Hsub. by apply fire_aborts.
    + by apply IH.
Qed.

(** A pending abort timer that falls due while time passes has run. *)
Lemma elapse_aborts ms c r t n :
  t ∈ timers r -> callback t = CbAbort n -> due t <= now r + Z.max 0 ms ->
  n ∈ aborted (snd (elapse ms (c, r))).
Proof.
  intros Hin Hcb Hdue. unfold elapse.
  apply (foldl_fire_aborts _ _ t); [| done].
  by apply list_elem_of_filter.
Qed.

Lemma log_eq msg c r : log msg (c, r) = (Return tt, (c, logged msg c r)).
Proof. unfold log, logged. by destruct (debug c). Qed.

Lemma logged_network msg c r : network (trace (logged msg c r)) = network (trace r).
Proof.
  unfold logged. destruct (debug c); [| done].
  simpl. rewrite network_app. simpl. by rewrite app_nil_r.
Qed.

Lemma logged_served msg c r : served (logged msg c r) = served r.
Proof. unfold logged. by destruct (debug c). Qed.

Lemma log_run msg c r :
  exists r', log msg (c, r) = (Return tt, (c, r'))
    /\ network (trace r') = network (trace r)
    /\ served r' = served r /\ aborted r' = aborted r /\ timers r' = timers r
    /\ now r' = now r /\ fresh r' = fresh r.
Proof.
  exists (logged msg c r). rewrite log_eq, logged_network.
  unfold logged. by destruct (debug c).
Qed.

Lemma setCache_run p k v c r :
  exists c' r', setCache p k v (c, r) = (Return tt, (c', r'))
    /\ settings c' = settings c
    /\ trace r' = trace r /\ served r' = served r /\ aborted r' = aborted r
    /\ cache p c' !! k = Some v.
Proof.
  unfold setCache. case_bool_decide; simpl; do 2 eexists; split_and!; try done;
    try apply with_cache_settings; destruct p; simpl; apply lookup_insert_eq.
Qed.

Lemma sleep_run ms c r :
  exists c' r', sleep ms (c, r) = (Return tt, (c', r'))
    /\ settings c' = settings c
    /\ network (trace r') = network (trace r) ++ [EvDelay ms]
    /\ served r' = served r.
Proof.
  unfold sleep.
  destruct (elapse_frame (timer_delay ms) c (emit (EvDelay ms) r))
    as (Hs & Htr & Hsv & _).
  destruct (elapse (timer_delay ms) (c, emit (EvDelay ms) r)) as [c' r'].
  simpl in *.
  exists c', r'. by rewrite Htr, network_app.
Qed.

Lemma retry_schedule_S n url init ms :
  retry_schedule (S (S n)) url init ms
  = EvFetch url init :: EvDelay ms :: retry_schedule (S n) url init ms.
Proof. done. Qed.

(** ** One attempt *)

(** Runs the [try] block up to the point where the transport has settled,
    then splits on how it settled and on what the interpreter made of it. *)
Ltac run_attempt o :=
  match goal with |- context [elapse ?ms (?c, ?r0)] =>
    let Hs := fresh "Hs" in let Htr := fresh "Htr" in
    let Hsv := fresh "Hsv" in let Hfr := fresh "Hfr" in
    let Hab := fresh "Hab" in let Hfired := fresh "Hfired" in
    destruct (elapse_frame ms c r0) as (Hs & Htr & Hsv & Hfr & Hab);
    pose proof (fun t n => elapse_aborts ms c r0 t n) as Hfired;
    destruct (elapse ms (c, r0)) as [? ?]
  end;
  simpl in *;
  destruct (settled o) as [? | ?];
  [ match goal with |- context [handleErrorResponse ?resp ?pre] =>
      destruct (handleErrorResponse resp pre) as [? | ?] end;
    [ match goal with |- context [log ?msg (?c, ?r0)] =>
        let Hl := fresh "Hl" in
        destruct (log_run msg c r0) as (? & -> & Hl & ? & ? & ? & ? & ?) end;
      match goal with |- context [setCache ?p ?k ?v (?c, ?r0)] =>
        destruct (setCache_run p k v c r0) as (? & ? & -> & ? & ? & ? & ? & ?) end;
      simpl in *
    | ]
  | ];
  do 2 eexists; (split; [reflexivity |]);
  split_and!; simpl; try congruence;
  first
    [ repeat match goal with
             | H : trace _ = _ |- _ => rewrite H; clear H
             | H : network (trace _) = _ |- _ => rewrite H; clear H
             end;
      by rewrite network_app
    | intros ?;
      repeat match goal with H : aborted _ = _ |- _ => rewrite H; clear H end;
      match goal with H : forall t n, _ |- _ => eapply H end;
      [ apply elem_of_app; right; apply list_elem_of_singleton; reflexivity
      | reflexivity
      | simpl; lia ] ].

Section Attempts.

Context `{!JSONStringify Request} `{!JSONStringify Json}.

Lemma settings_inv c c' :
  settings c' = settings c ->
  flags_url c' = flags_url c /\ flag_url c' = flag_url c
  /\ (forall req, init_of c' req = init_of c req)
  /\ fetch c' = fetch c /\ retryPolicy c' = retryPolicy c.
Proof.
  unfold settings, flags_url, flag_url, init_of, getHeaders.
  intros [= -> _ _ _ -> -> -> ->]. done.
Qed.

Lemma try_evaluateFlags_run req t k c r :
  let o := fetch c (served r) (flags_url c) (init_of c req) in
  exists c' r',
    try_evaluateFlags req t k (c, r)
      = (attempt_result "Failed to evaluate flags" o, (c', r'))
    /\ settings c' = settings c
    /\ network (trace r')
       = network (trace r) ++ [EvFetch (flags_url c) (init_of c req)]
    /\ served r' = S (served r)
    /\ (forall v, attempt_result "Failed to evaluate flags" o = Return v ->
          flagsCache c' !! k = Some v)
    /\ (timer_delay t <= Z.max 0 (latency o) -> fresh r ∈ aborted r').
Proof.
  intros o. unfold try_evaluateFlags, bind, read, newAbortController,
    setTimeout, await_fetch, clearTimeout, lift, attempt_result. simpl.
  fold (flags_url c) (init_of c req). fold o.
  run_attempt o.
Qed.

Lemma try_evaluateFlag_run req t k c r :
  let o := fetch c (served r) (flag_url c) (init_of c req) in
  exists c' r',
    try_evaluateFlag req t k (c, r)
      = (attempt_result "Failed to evaluate flag" o, (c', r'))
    /\ settings c' = settings c
    /\ network (trace r')
       = network (trace r) ++ [EvFetch (flag_url c) (init_of c req)]
    /\ served r' = S (served r)
    /\ (forall v, attempt_result "Failed to evaluate flag" o = Return v ->
          flagCache c' !! k = Some v)
    /\ (timer_delay t <= Z.max 0 (latency o) -> fresh r ∈ aborted r').
Proof.
  intros o. unfold try_evaluateFlag, bind, read, newAbortController,
    setTimeout, await_fetch, clearTimeout, lift, attempt_result. simpl.
  fold (flag_url c) (init_of c req). fold o.
  run_attempt o.
Qed.

Lemma catch_evaluateFlags_run attempt e c r :
  exists c' r',
    catch_evaluateFlags attempt e (c, r)
      = (if bool_decide (attempt = retries (retryPolicy c))
         then Throw (Error (message e)) else Return None, (c', r'))
    /\ settings c' = settings c
    /\ network (trace r')
       = network (trace r)
         ++ (if bool_decide (attempt = retries (retryPolicy c))
             then [] else [EvDelay (delay (retryPolicy c))])
    /\ served r' = served r.
Proof.
  unfold catch_evaluateFlags, bind, read, throw, ret.
  rewrite log_eq. simpl. case_bool_decide.
  - do 2 eexists. split; [done |].
    by rewrite app_nil_r, logged_network, logged_served.
  - match goal with |- context [sleep ?ms (c, ?r0)] =>
      destruct (sleep_run ms c r0) as (c2 & r2 & -> & ? & Hn2 & Hsv) end.
    exists c2, r2. by rewrite Hn2, logged_network, Hsv, logged_served.
Qed.

Lemma catch_evaluateFlag_run attempt e c r :
  exists c' r',
    catch_evaluateFlag attempt e (c, r)
      = (if bool_decide (attempt >= retries (retryPolicy c))
         then Throw e else Return None, (c', r'))
    /\ settings c' = settings c
    /\ network (trace r')
       = network (trace r)
         ++ (if bool_decide (attempt >= retries (retryPolicy c))
             then [] else [EvDelay (delay (retryPolicy c))])
    /\ served r' = served r.
Proof.
  unfold catch_evaluateFlag, bind, read, throw, ret.
  rewrite log_eq. simpl. case_bool_decide.
  - do 2 eexists. split; [done |].
    by rewrite app_nil_r, logged_network, logged_served.
  - match goal with |- context [sleep ?ms (c, ?r0)] =>
      destruct (sleep_run ms c r0) as (c2 & r2 & -> & ? & Hn2 & Hsv) end.
    exists c2, r2. by rewrite Hn2, logged_network, Hsv, logged_served.
Qed.

(** ** The loop when every attempt fails *)

Lemma loop_evaluateFlags_exhausts req t k (n : nat) :
  forall fuel attempt c r,
    retries (retryPolicy c) = attempt + Z.of_nat n ->
    (n < fuel)%nat ->
    (forall i, (i <= n)%nat -> exists e,
       attempt_result "Failed to evaluate flags"
         (fetch c (served r + i)%nat (flags_url c) (init_of c req)) = Throw e) ->
    exists e c' r',
      loop_evaluateFlags fuel req t k attempt (c, r)
        = (Throw (Error (message e)), (c', r'))
      /\ attempt_result "Failed to evaluate flags"
           (fetch c (served r + n)%nat (flags_url c) (init_of c req)) = Throw e
      /\ settings c' = settings c
      /\ network (trace r')
         = network (trace r)
           ++ retry_schedule (S n) (flags_url c) (init_of c req)
                (delay (retryPolicy c))
      /\ served r' = (served r + S n)%nat.
Proof.
  induction n as [| n IH]; intros fuel attempt c r Hret Hfuel Hfail;
    (destruct fuel as [| fuel]; [lia |]);
    cbn [loop_evaluateFlags]; unfold bind at 1, read at 1; cbn [fst];
    (rewrite bool_decide_eq_true_2 by lia);
    unfold bind at 1, try_catch at 1, bind at 1;
    destruct (try_evaluateFlags_run req t k c r)
      as (c1 & r1 & -> & Hs1 & Hn1 & Hsv1 & _);
    destruct (Hfail 0%nat ltac:(lia)) as [e0 He0];
    rewrite Nat.add_0_r in He0; rewrite He0;
    destruct (catch_evaluateFlags_run attempt e0 c1 r1)
      as (c2 & r2 & -> & Hs2 & Hn2 & Hsv2);
    destruct (settings_inv _ _ Hs1) as (Hu1 & _ & Hi1 & Hf1 & Hp1);
    rewrite Hp1 in *.
  - rewrite bool_decide_eq_true_2 by lia.
    rewrite bool_decide_eq_true_2 in Hn2 by lia.
    exists e0, c2, r2. rewrite Nat.add_0_r.
    split_and!; try done; try congruence; [| lia].
    by rewrite Hn2, Hn1, app_nil_r.
  - rewrite bool_decide_eq_false_2 by lia.
    rewrite bool_decide_eq_false_2 in Hn2 by lia.
    destruct (settings_inv c c2 ltac:(congruence)) as (Hu2 & _ & Hi2 & Hf2 & Hp2).
    destruct (IH fuel (attempt + 1) c2 r2)
      as (e & c' & r' & Hrun & He & Hs & Hn & Hsv).
    + rewrite Hp2. lia.
    + lia.
    + intros i Hi. rewrite Hu2, Hi2, Hf2, Hsv2, Hsv1.
      destruct (Hfail (S i) ltac:(lia)) as [e He].
      exists e. rewrite <- He.
      by replace (S (served r) + i)%nat with (served r + S i)%nat by lia.
    + exists e, c', r'. split_and!.
      * exact Hrun.
      * rewrite <- He, Hu2, Hi2, Hf2, Hsv2, Hsv1.
        by replace (S (served r) + n)%nat with (served r + S n)%nat by lia.
      * congruence.
      * rewrite Hn, Hn2, Hn1, Hu2, Hi2, Hp2, retry_schedule_S.
        by rewrite <- !app_assoc.
      * lia.
Qed.

Lemma loop_evaluateFlag_exhausts req t k (n : nat) :
  forall fuel attempt c r,
    retries (retryPolicy c) = attempt + Z.of_nat n ->
    (n < fuel)%nat ->
    (forall i, (i <= n)%nat -> exists e,
       attempt_result "Failed to evaluate flag"
         (fetch c (served r + i)%nat (flag_url c) (init_of c req)) = Throw e) ->
    exists e c' r',
      loop_evaluateFlag fuel req t k attempt (c, r) = (Throw e, (c', r'))
      /\ attempt_result "Failed to evaluate flag"
           (fetch c (served r + n)%nat (flag_url c) (init_of c req)) = Throw e
      /\ settings c' = settings c
      /\ network (trace r')
         = network (trace r)
           ++ retry_schedule (S n) (flag_url c) (init_of c req)
                (delay (retryPolicy c))
      /\ served r' = (served r + S n)%nat.
Proof.
  induction n as [| n IH]; intros fuel attempt c r Hret Hfuel Hfail;
    (destruct fuel as [| fuel]; [lia |]);
    cbn [loop_evaluateFlag]; unfold bind at 1, read at 1; cbn [fst];
    (rewrite bool_decide_eq_true_2 by lia);
    unfold bind at 1, try_catch at 1, bind at 1;
    destruct (try_evaluateFlag_run req t k c r)
      as (c1 & r1 & -> & Hs1 & Hn1 & Hsv1 & _);
    destruct (Hfail 0%nat ltac:(lia)) as [e0 He0];
    rewrite Nat.add_0_r in He0; rewrite He0;
    destruct (catch_evaluateFlag_run attempt e0 c1 r1)
      as (c2 & r2 & -> & Hs2 & Hn2 & Hsv2);
    destruct (settings_inv _ _ Hs1) as (Hu1 & Hu1' & Hi1 & Hf1 & Hp1);
    rewrite Hp1 in *.
  - rewrite bool_decide_eq_true_2 by lia.
    rewrite bool_decide_eq_true_2 in Hn2 by lia.
    exists e0, c2, r2. rewrite Nat.add_0_r.
    split_and!; try done; try congruence; [| lia].
    by rewrite Hn2, Hn1, app_nil_r.
  - rewrite bool_decide_eq_false_2 by lia.
    rewrite bool_decide_eq_false_2 in Hn2 by lia.
    destruct (settings_inv c c2 ltac:(congruence)) as (_ & Hu2 & Hi2 & Hf2 & Hp2).
    destruct (IH fuel (attempt + 1) c2 r2)
      as (e & c' & r' & Hrun & He & Hs & Hn & Hsv).
    + rewrite Hp2. lia.
    + lia.
    + intros i Hi. rewrite Hu2, Hi2, Hf2, Hsv2, Hsv1.
      destruct (Hfail (S i) ltac:(lia)) as [e He].
      exists e. rewrite <- He.
      by replace (S (served r) + i)%nat with (served r + S i)%nat by lia.
    + exists e, c', r'. split_and!.
      * exact Hrun.
      * rewrite <- He, Hu2, Hi2, Hf2, Hsv2, Hsv1.
        by replace (S (served r) + n)%nat with (served r + S n)%nat by lia.
      * congruence.
      * rewrite Hn, Hn2, Hn1, Hu2, Hi2, Hp2, retry_schedule_S.
        by rewrite <- !app_assoc.
      * lia.
Qed.

(** ** The loop when an attempt succeeds *)

Lemma loop_evaluateFlags_succeeds req t k fuel attempt c r v :
  attempt <= retries (retryPolicy c) ->
  attempt_result "Failed to evaluate flags"
    (fetch c (served r) (flags_url c) (init_of c req)) = Return v ->
  exists c' r',
    loop_evaluateFlags (S fuel) req t k attempt (c, r)
      = (Return (Some v), (c', r'))
    /\ settings c' = settings c
    /\ network (trace r')
       = network (trace r) ++ [EvFetch (flags_url c) (init_of c req)]
    /\ served r' = S (served r)
    /\ flagsCache c' !! k = Some v
    /\ (timer_delay t
         <= Z.max 0 (latency (fetch c (served r) (flags_url c) (init_of c req))) ->
        fresh r ∈ aborted r').
Proof.
  intros Hle Hok.
  cbn [loop_evaluateFlags]; unfold bind at 1, read at 1; cbn [fst].
  rewrite bool_decide_eq_true_2 by done.
  unfold bind at 1, try_catch at 1, bind at 1.
  destruct (try_evaluateFlags_run req t k c r)
    as (c1 & r1 & -> & Hs1 & Hn1 & Hsv1 & Hc1 & Hab1).
  rewrite Hok. exists c1, r1. split_and!; auto.
Qed.

Lemma loop_evaluateFlag_succeeds req t k fuel attempt c r v :
  attempt <= retries (retryPolicy c) ->
  attempt_result "Failed to evaluate flag"
    (fetch c (served r) (flag_url c) (init_of c req)) = Return v ->
  exists c' r',
    loop_evaluateFlag (S fuel) req t k attempt (c, r)
      = (Return (Some v), (c', r'))
    /\ settings c' = settings c
    /\ network (trace r')
       = network (trace r) ++ [EvFetch (flag_url c) (init_of c req)]
    /\ served r' = S (served r)
    /\ flagCache c' !! k = Some v
    /\ (timer_delay t
         <= Z.max 0 (latency (fetch c (served r) (flag_url c) (init_of c req))) ->
        fresh r ∈ aborted r').
Proof.
  intros Hle Hok.
  cbn [loop_evaluateFlag]; unfold bind at 1, read at 1; cbn [fst].
  rewrite bool_decide_eq_true_2 by done.
  unfold bind at 1, try_catch at 1, bind at 1.
  destruct (try_evaluateFlag_run req t k c r)
    as (c1 & r1 & -> & Hs1 & Hn1 & Hsv1 & Hc1 & Hab1).
  rewrite Hok. exists c1, r1. split_and!; auto.
Qed.

(** Whatever the loop returns, it has just stored. *)
Lemma loop_evaluateFlag_stores req t k fuel :
  forall attempt c r v st',
    loop_evaluateFlag fuel req t k attempt (c, r) = (Return (Some v), st') ->
    flagCache (fst st') !! k = Some v.
Proof.
  induction fuel as [| fuel IH]; intros attempt c r v st';
    cbn [loop_evaluateFlag]; unfold bind at 1, read at 1; cbn [fst];
    case_bool_decide; try (by intros [= <-]).
  unfold bind at 1, try_catch at 1, bind at 1.
  destruct (try_evaluateFlag_run req t k c r)
    as (c1 & r1 & -> & _ & _ & _ & Hc1 & _).
  destruct (attempt_result _ _) as [v0 | e0].
  - intros [= <- <-]. by apply Hc1.
  - destruct (catch_evaluateFlag_run attempt e0 c1 r1) as (c2 & r2 & -> & _).
    case_bool_decide; [done |]. apply IH.
Qed.

Lemma loop_evaluateFlags_stores req t k fuel :
  forall attempt c r v st',
    loop_evaluateFlags fuel req t k attempt (c, r) = (Return (Some v), st') ->
    flagsCache (fst st') !! k = Some v.
Proof.
  induction fuel as [| fuel IH]; intros attempt c r v st';
    cbn [loop_evaluateFlags]; unfold bind at 1, read at 1; cbn [fst];
    case_bool_decide; try (by intros [= <-]).
  unfold bind at 1, try_catch at 1, bind at 1.
  destruct (try_evaluateFlags_run req t k c r)
    as (c1 & r1 & -> & _ & _ & _ & Hc1 & _).
  destruct (attempt_result _ _) as [v0 | e0].
  - intros [= <- <-]. by apply Hc1.
  - destruct (catch_evaluateFlags_run attempt e0 c1 r1) as (c2 & r2 & -> & _).
    case_bool_decide; [done |]. apply IH.
Qed.

(** ** The fuel is enough

    The loops recurse on a bound of the iterations left; the bound the
    entry points pass is never used up, so more of it changes nothing. *)

Lemma loop_evaluateFlags_step fuel req t k attempt c r :
  loop_evaluateFlags fuel req t k attempt (c, r)
  = if bool_decide (attempt <= retries (retryPolicy c)) then
      match fuel with
      | O => (Return None, (c, r))
      | S fuel' =>
          match try_evaluateFlags req t k (c, r) with
          | (Return flags, st') => (Return (Some flags), st')
          | (Throw e, st') =>
              match catch_evaluateFlags attempt e st' with
              | (Return None, st'') =>
                  loop_evaluateFlags fuel' req t k (attempt + 1) st''
              | (Return (Some flags), st'') => (Return (Some flags), st'')
              | (Throw e', st'') => (Throw e', st'')
              end
          end
      end
    else (Return None, (c, r)).
Proof.
  destruct fuel; cbn [loop_evaluateFlags]; unfold bind at 1, read at 1;
    cbn [fst]; case_bool_decide; try done.
  unfold bind at 1, try_catch at 1, bind at 1.
  destruct (try_evaluateFlags req t k (c, r)) as [[flags | e] st']; [done |].
  destruct (catch_evaluateFlags attempt e st') as [[[flags |] | e'] st'']; done.
Qed.

Lemma loop_evaluateFlag_step fuel req t k attempt c r :
  loop_evaluateFlag fuel req t k attempt (c, r)
  = if bool_decide (attempt <= retries (retryPolicy c)) then
      match fuel with
      | O => (Return None, (c, r))
      | S fuel' =>
          match try_evaluateFlag req t k (c, r) with
          | (Return flag, st') => (Return (Some flag), st')
          | (Throw e, st') =>
              match catch_evaluateFlag attempt e st' with
              | (Return None, st'') =>
                  loop_evaluateFlag fuel' req t k (attempt + 1) st''
              | (Return (Some flag), st'') => (Return (Some flag), st'')
              | (Throw e', st'') => (Throw e', st'')
              end
          end
      end
    else (Return None, (c, r)).
Proof.
  destruct fuel; cbn [loop_evaluateFlag]; unfold bind at 1, read at 1;
    cbn [fst]; case_bool_decide; try done.
  unfold bind at 1, try_catch at 1, bind at 1.
  destruct (try_evaluateFlag req t k (c, r)) as [[flag | e] st']; [done |].
  destruct (catch_evaluateFlag attempt e st') as [[[flag |] | e'] st'']; done.
Qed.

Lemma loop_evaluateFlags_fuel req t k fuel :
  forall attempt c r,
    (Z.to_nat (retries (retryPolicy c) - attempt + 1) <= fuel)%nat ->
    loop_evaluateFlags (S fuel) req t k attempt (c, r)
    = loop_evaluateFlags fuel req t k attempt (c, r).
Proof.
  induction fuel as [| fuel IH]; intros attempt c r Hfuel.
  - rewrite (loop_evaluateFlags_step 1), (loop_evaluateFlags_step 0).
    by rewrite bool_decide_eq_false_2 by lia.
  - rewrite (loop_evaluateFlags_step (S (S fuel))), (loop_evaluateFlags_step (S fuel)).
    case_bool_decide; [| done].
    destruct (try_evaluateFlags_run req t k c r) as (c1 & r1 & -> & Hs1 & _).
    destruct (attempt_result _ _) as [v0 | e0]; [done |].
    destruct (catch_evaluateFlags_run attempt e0 c1 r1)
      as (c2 & r2 & -> & Hs2 & _).
    case_bool_decide; [done |].
    destruct (settings_inv c c2 ltac:(congruence)) as (_ & _ & _ & _ & Hp2).
    apply IH. rewrite Hp2. lia.
Qed.

Lemma loop_evaluateFlag_fuel req t k fuel :
  forall attempt c r,
    (Z.to_nat (retries (retryPolicy c) - attempt + 1) <= fuel)%nat ->
    loop_evaluateFlag (S fuel) req t k attempt (c, r)
    = loop_evaluateFlag fuel req t k attempt (c, r).
Proof.
  induction fuel as [| fuel IH]; intros attempt c r Hfuel.
  - rewrite (loop_evaluateFlag_step 1), (loop_evaluateFlag_step 0).
    by rewrite bool_decide_eq_false_2 by lia.
  - rewrite (loop_evaluateFlag_step (S (S fuel))), (loop_evaluateFlag_step (S fuel)).
    case_bool_decide; [| done].
    destruct (try_evaluateFlag_run req t k c r) as (c1 & r1 & -> & Hs1 & _).
    destruct (attempt_result _ _) as [v0 | e0]; [done |].
    destruct (catch_evaluateFlag_run attempt e0 c1 r1)
      as (c2 & r2 & -> & Hs2 & _).
    case_bool_decide; [done |].
    destruct (settings_inv c c2 ltac:(congruence)) as (_ & _ & _ & _ & Hp2).
    apply IH. rewrite Hp2. lia.
Qed.

End Attempts.

(** ** The entry points, case by case *)

Section EntryPoints.

Context `{!JSONStringify Request} `{!JSONStringify Json}.

Ltac enter timeout :=
  unfold evaluateFlags, evaluateFlag, bind, lift, read, ret;
  destruct timeout; cbn [fst]; rewrite log_eq.

Lemma evaluateFlags_invalid req timeout c r e :
  validateRequest (mkProps req (Some true)) = Throw e ->
  evaluateFlags req timeout (c, r)
  = (Throw e, (c, logged "Evaluating flags..." c r)).
Proof. intros Hv. enter timeout; by rewrite Hv. Qed.

Lemma evaluateFlag_invalid req timeout c r e :
  validateRequest (mkProps req None) = Throw e ->
  evaluateFlag req timeout (c, r)
  = (Throw e, (c, logged "Evaluating flag..." c r)).
Proof. intros Hv. enter timeout; by rewrite Hv. Qed.

Lemma evaluateFlags_hit req timeout c r k v :
  valid (Some true) req -> getCacheKey req = Return k ->
  flagsCache c !! k = Some v ->
  evaluateFlags req timeout (c, r)
  = (Return (Some v), (c, logged "Evaluating flags..." c r)).
Proof.
  intros Hv Hk Hc. enter timeout; rewrite Hv, Hk; cbn [fst]; by rewrite Hc.
Qed.

Lemma evaluateFlag_hit req timeout c r k v :
  valid None req -> getCacheKey req = Return k ->
  flagCache c !! k = Some v ->
  evaluateFlag req timeout (c, r)
  = (Return (Some v), (c, logged "Evaluating flag..." c r)).
Proof.
  intros Hv Hk Hc. enter timeout; rewrite Hv, Hk; cbn [fst]; by rewrite Hc.
Qed.

Lemma evaluateFlags_miss req timeout c r k :
  valid (Some true) req -> getCacheKey req = Return k ->
  flagsCache c !! k = None ->
  evaluateFlags req timeout (c, r)
  = loop_evaluateFlags (Z.to_nat (retries (retryPolicy c))) req
      (effective_timeout timeout c) k 1
      (c, logged "Evaluating flags..." c r).
Proof.
  intros Hv Hk Hc. enter timeout; rewrite Hv, Hk; cbn [fst]; by rewrite Hc.
Qed.

Lemma evaluateFlag_miss req timeout c r k :
  valid None req -> getCacheKey req = Return k ->
  flagCache c !! k = None ->
  evaluateFlag req timeout (c, r)
  = loop_evaluateFlag (Z.to_nat (retries (retryPolicy c))) req
      (effective_timeout timeout c) k 1
      (c, logged "Evaluating flag..." c r).
Proof.
  intros Hv Hk Hc. enter timeout; rewrite Hv, Hk; cbn [fst]; by rewrite Hc.
Qed.

End EntryPoints.

(** ** Validation *)

Lemma validateRequest_spec req multiple :
  validateRequest (mkProps req multiple)
  = match validation_failure (negb (default false multiple)) req with
    | Some msg => Throw (Error msg)
    | None => Return tt
    end.
Proof.
  destruct req as [fl env usr]. unfold validateRequest, validation_failure. simpl.
  destruct multiple as [[|] |], fl, env as [[| ? ?] |], usr as [[[[| ? ?] |] ?] |];
    reflexivity.
Qed.

(** A request that passes has an environment and a user id, both non-empty,
    and its cache key is the two joined by a colon. *)
Lemma valid_inv multiple req :
  valid multiple req ->
  exists env u uid,
    environment req = Some env /\ user req = Some u /\ User.id u = Some uid
    /\ env <> "" /\ uid <> ""
    /\ getCacheKey req = Return (env +:+ ":" +:+ uid).
Proof.
  unfold valid. rewrite validateRequest_spec.
  destruct req as [fl env usr]. unfold validation_failure, getCacheKey. simpl.
  destruct (negb _), fl, env as [[| a env] |], usr as [[[[| b uid] |] em] |];
    try discriminate; intros _;
    by eexists (String a env), _, (String b uid).
Qed.

Lemma valid_intro req env u uid :
  environment req = Some env -> user req = Some u -> User.id u = Some uid ->
  env <> "" -> uid <> "" ->
  valid (Some true) req /\ (is_Some (flag req) -> valid None req).
Proof.
  unfold valid. rewrite !validateRequest_spec.
  destruct req as [fl e usr]. unfold validation_failure. simpl.
  intros -> -> -> Henv Huid.
  destruct env; [done |]. destruct uid; [done |].
  split; [by destruct fl |]. by intros [? ->].
Qed.

Lemma nonok_throws response prefix :
  ok response = false -> exists e, handleErrorResponse response prefix = Throw e.
Proof.
  unfold handleErrorResponse. intros ->. simpl.
  repeat match goal with
         | |- context [match ?x with _ => _ end] => destruct x
         end; eauto.
Qed.

Lemma transport_fails_throws prefix o :
  transport_fails o = true -> exists e, attempt_result prefix o = Throw e.
Proof.
  unfold transport_fails, attempt_result. destruct (settled o) as [response | e].
  - intros Hok. apply nonok_throws. by destruct (ok response).
  - eauto.
Qed.


(** * The claims *)

Section Claims.

Context `{!JSONStringify Request} `{!JSONStringify Json}.

(** C5.  Request validation fails exactly under three conditions, tried in
    this order, the first that holds deciding the message: single-flag mode
    with no [flag] field; [environment] missing or empty; [user] missing or
    [user.id] missing or empty.  When it fails, [evaluateFlag] and
    [evaluateFlags] reject with that error, the client is left as it was,
    the transport is not called, nothing is scheduled, and the outcome is
    the same whatever the caches hold. *)
Theorem validation_contract (req : Request) (timeout : option Z)
    (c : Client) (r : Runtime) :
  (forall multiple,
     validateRequest (mkProps req multiple)
     = match validation_failure (negb (default false multiple)) req with
       | Some msg => Throw (Error msg)
       | None => Return tt
       end)
  /\ (forall e, validateRequest (mkProps req None) = Throw e ->
        (exists r',
           evaluateFlag req timeout (c, r) = (Throw e, (c, r'))
           /\ served r' = served r /\ timers r' = timers r
           /\ network (trace r') = network (trace r))
        /\ forall p m,
             fst (evaluateFlag req timeout (with_cache p m c, r)) = Throw e)
  /\ (forall e, validateRequest (mkProps req (Some true)) = Throw e ->
        (exists r',
           evaluateFlags req timeout (c, r) = (Throw e, (c, r'))
           /\ served r' = served r /\ timers r' = timers r
           /\ network (trace r') = network (trace r))
        /\ forall p m,
             fst (evaluateFlags req timeout (with_cache p m c, r)) = Throw e).
Proof.
  split; [intros; apply validateRequest_spec |].
  split; intros e He; (split; [eexists; split;
    [by apply evaluateFlag_invalid || by apply evaluateFlags_invalid |] |]).
  - rewrite logged_served, logged_network. unfold logged. by destruct (debug c).
  - intros p m. by rewrite (evaluateFlag_invalid _ _ _ _ e).
  - rewrite logged_served, logged_network. unfold logged. by destruct (debug c).
  - intros p m. by rewrite (evaluateFlags_invalid _ _ _ _ e).
Qed.

(** C10.  The single-flag check looks only at whether the [flag] field is
    there: with [flag] present and empty, validation never answers
    [Flag is required], and goes on to the environment and user checks, so
    that it ends as the multi-flag validation of the same request does. *)
Theorem empty_flag_passes_the_flag_check (req : Request) :
  flag req = Some "" ->
  validateRequest (mkProps req None) <> Throw (Error "Flag is required")
  /\ validateRequest (mkProps req None)
     = validateRequest (mkProps req (Some true))
  /\ validateRequest (mkProps req None)
     = if falsy (environment req)
       then Throw (Error "Environment is required")
       else if match user req with
               | None => true
               | Some u => falsy (User.id u)
               end
       then Throw (Error "User ID is required")
       else Return tt.
Proof.
  intros Hflag. unfold validateRequest. simpl. rewrite Hflag. simpl.
  split; [| done].
  repeat match goal with
         | |- context [if ?b then _ else _] => destruct b
         end; discriminate.
Qed.

(** C6.  For a valid request whose key [environment:user.id] is in the
    partition of the call's plurality, [evaluateFlag] / [evaluateFlags]
    returns the cached value as it is; the client, both caches included, is
    unchanged, the transport is not called, no wait is made and no timer is
    scheduled. *)
Theorem cache_hit_returns_cached (req : Request) (timeout : option Z)
    (c : Client) (r : Runtime) (env uid : string) (u : User.t) (v : Json) :
  environment req = Some env -> user req = Some u -> User.id u = Some uid ->
  (valid None req -> flagCache c !! (env +:+ ":" +:+ uid) = Some v ->
     exists r',
       evaluateFlag req timeout (c, r) = (Return (Some v), (c, r'))
       /\ served r' = served r /\ timers r' = timers r
       /\ network (trace r') = network (trace r))
  /\ (valid (Some true) req -> flagsCache c !! (env +:+ ":" +:+ uid) = Some v ->
        exists r',
          evaluateFlags req timeout (c, r) = (Return (Some v), (c, r'))
          /\ served r' = served r /\ timers r' = timers r
          /\ network (trace r') = network (trace r)).
Proof.
  intros Henv Husr Hid.
  assert (getCacheKey req = Return (env +:+ ":" +:+ uid)) as Hk
    by (unfold getCacheKey; by rewrite Husr, Henv, Hid).
  split; intros Hv Hhit; eexists; (split;
    [by eapply evaluateFlag_hit || by eapply evaluateFlags_hit |]);
    rewrite logged_served, logged_network; unfold logged; by destruct (debug c).
Qed.

(** C8.  [setRetryPolicy] takes [retries = 0] as given.  With [retries = 0]
    a valid request that misses the cache makes no attempt at all: the loop
    body never runs, the call resolves to [undefined] and raises nothing;
    the client is unchanged. *)
Theorem zero_retries_attempts_nothing (req : Request) (timeout : option Z)
    (c : Client) (r : Runtime) (k : string) :
  (forall c0 r0 ms,
     exists r1,
       setRetryPolicy 0 ms (c0, r0)
       = (Return tt, (with_retryPolicy (mkPolicy 0 ms) c0, r1)))
  /\
  (retries (retryPolicy c) = 0 -> getCacheKey req = Return k ->
  (valid None req -> flagCache c !! k = None ->
     exists r',
       evaluateFlag req timeout (c, r) = (Return None, (c, r'))
       /\ served r' = served r /\ timers r' = timers r
       /\ network (trace r') = network (trace r))
  /\ (valid (Some true) req -> flagsCache c !! k = None ->
        exists r',
          evaluateFlags req timeout (c, r) = (Return None, (c, r'))
          /\ served r' = served r /\ timers r' = timers r
          /\ network (trace r') = network (trace r))).
Proof.
  split.
  { intros c0 r0 ms. unfold setRetryPolicy, bind. rewrite log_eq. eauto. }
  intros Hzero Hk.
  split; intros Hv Hmiss; eexists; (split;
    [ first [ rewrite (evaluateFlag_miss _ _ _ _ k) by done;
              rewrite loop_evaluateFlag_step
            | rewrite (evaluateFlags_miss _ _ _ _ k) by done;
              rewrite loop_evaluateFlags_step ];
      rewrite Hzero; reflexivity |]);
    rewrite logged_served, logged_network; unfold logged; by destruct (debug c).
Qed.

(** A call of [evaluateFlag] that returns a value had a valid request and
    leaves that value in the single-flag partition under the request's key. *)
Lemma evaluateFlag_returns req timeout c r v st' :
  evaluateFlag req timeout (c, r) = (Return (Some v), st') ->
  valid None req
  /\ exists k, getCacheKey req = Return k /\ flagCache (fst st') !! k = Some v.
Proof.
  intros Hrun.
  destruct (validateRequest (mkProps req None)) as [[] | e] eqn:Hv;
    [| by rewrite (evaluateFlag_invalid _ _ _ _ e) in Hrun].
  split; [done |].
  destruct (valid_inv None req Hv) as (env & u & uid & _ & _ & _ & _ & _ & Hk).
  eexists; split; [exact Hk |].
  destruct (flagCache c !! (env +:+ ":" +:+ uid)) as [cached |] eqn:Hc.
  - rewrite (evaluateFlag_hit _ _ _ _ _ cached) in Hrun by done.
    by injection Hrun as <- <-.
  - rewrite (evaluateFlag_miss _ _ _ _ (env +:+ ":" +:+ uid)) in Hrun by done.
    by eapply loop_evaluateFlag_stores.
Qed.

(** C9.  The single-flag cache key is made of [environment] and [user.id]
    alone.  After an [evaluateFlag] that returned a value for one request,
    an [evaluateFlag] for a request with the same environment and user id
    and any flag name, issued in the state the first one left (before any
    eviction timer runs), returns that same value from the cache: the
    transport is not called and the client is unchanged. *)
Theorem cache_key_ignores_the_flag_name (first second : Request)
    (t1 t2 : option Z) (st st1 : State) (v : Json) :
  environment second = environment first ->
  user second ≫= User.id = user first ≫= User.id ->
  is_Some (flag second) ->
  evaluateFlag first t1 st = (Return (Some v), st1) ->
  exists r2,
    evaluateFlag second t2 st1 = (Return (Some v), (fst st1, r2))
    /\ served r2 = served (snd st1)
    /\ timers r2 = timers (snd st1)
    /\ network (trace r2) = network (trace (snd st1)).
Proof.
  intros Henv Huid Hflag Hrun. destruct st as [c r], st1 as [c1 r1].
  apply evaluateFlag_returns in Hrun as (Hv & k & Hk & Hc).
  destruct (valid_inv None first Hv)
    as (env & u & uid & He1 & Hu1 & Hi1 & Hne & Hnu & Hk1).
  rewrite Hk1 in Hk. injection Hk as <-.
  rewrite He1 in Henv. rewrite Hu1 in Huid. simpl in Huid. rewrite Hi1 in Huid.
  destruct (user second) as [u2 |] eqn:Hu2; [| done]. simpl in Huid.
  destruct (valid_intro second env u2 uid) as [_ Hv2]; try done.
  assert (getCacheKey second = Return (env +:+ ":" +:+ uid)) as Hk2
    by (unfold getCacheKey; by rewrite Hu2, Henv, Huid).
  eexists. split; [by eapply evaluateFlag_hit; eauto |]. simpl.
  rewrite logged_served, logged_network. unfold logged. by destruct (debug c1).
Qed.

(** A first attempt that succeeds is returned and stored whatever the
    timeout: when the timer falls due while the call is in flight, its
    controller is aborted and the call goes on. *)
Lemma evaluateFlags_first_attempt req timeout c r k v :
  valid (Some true) req -> getCacheKey req = Return k ->
  flagsCache c !! k = None -> 1 <= retries (retryPolicy c) ->
  attempt_result "Failed to evaluate flags"
    (fetch c (served r) (flags_url c) (init_of c req)) = Return v ->
  exists c' r',
    evaluateFlags req timeout (c, r) = (Return (Some v), (c', r'))
    /\ served r' = S (served r)
    /\ flagsCache c' !! k = Some v
    /\ (timer_delay (effective_timeout timeout c)
         <= Z.max 0 (latency (fetch c (served r) (flags_url c) (init_of c req))) ->
        fresh r ∈ aborted r').
Proof.
  intros Hv Hk Hmiss Hpos Hok.
  rewrite (evaluateFlags_miss _ _ _ _ k) by done.
  destruct (Z.to_nat (retries (retryPolicy c))) as [| fuel] eqn:Hfuel; [lia |].
  assert (fresh (logged "Evaluating flags..." c r) = fresh r) as Hfr
    by (unfold logged; by destruct (debug c)).
  edestruct (loop_evaluateFlags_succeeds req (effective_timeout timeout c) k
               fuel 1 c (logged "Evaluating flags..." c r) v)
    as (c' & r' & -> & _ & _ & Hsv & Hc & Hab);
    [done | by rewrite logged_served |].
  rewrite logged_served, Hfr in *. by exists c', r'.
Qed.

Lemma evaluateFlag_first_attempt req timeout c r k v :
  valid None req -> getCacheKey req = Return k ->
  flagCache c !! k = None -> 1 <= retries (retryPolicy c) ->
  attempt_result "Failed to evaluate flag"
    (fetch c (served r) (flag_url c) (init_of c req)) = Return v ->
  exists c' r',
    evaluateFlag req timeout (c, r) = (Return (Some v), (c', r'))
    /\ served r' = S (served r)
    /\ flagCache c' !! k = Some v
    /\ (timer_delay (effective_timeout timeout c)
         <= Z.max 0 (latency (fetch c (served r) (flag_url c) (init_of c req))) ->
        fresh r ∈ aborted r').
Proof.
  intros Hv Hk Hmiss Hpos Hok.
  rewrite (evaluateFlag_miss _ _ _ _ k) by done.
  destruct (Z.to_nat (retries (retryPolicy c))) as [| fuel] eqn:Hfuel; [lia |].
  assert (fresh (logged "Evaluating flag..." c r) = fresh r) as Hfr
    by (unfold logged; by destruct (debug c)).
  edestruct (loop_evaluateFlag_succeeds req (effective_timeout timeout c) k
               fuel 1 c (logged "Evaluating flag..." c r) v)
    as (c' & r' & -> & _ & _ & Hsv & Hc & Hab);
    [done | by rewrite logged_served |].
  rewrite logged_served, Hfr in *. by exists c', r'.
Qed.

(** The calls that a request makes when every attempt fails: [N] of them,
    one wait asked for between two consecutive calls, then the error of
    the last. *)
Lemma exhausted_calls (req : Request)
    (timeout : option Z) (c : Client) (r : Runtime) (N : Z) (k : string) :
  retries (retryPolicy c) = N -> 1 <= N ->
  (forall i url init, transport_fails (fetch c i url init) = true) ->
  getCacheKey req = Return k ->
  (valid (Some true) req -> flagsCache c !! k = None ->
     exists e c' r',
       evaluateFlags req timeout (c, r) = (Throw (Error (message e)), (c', r'))
       /\ attempt_result "Failed to evaluate flags"
            (fetch c (served r + (Z.to_nat N - 1))%nat (flags_url c)
               (init_of c req)) = Throw e
       /\ served r' = (served r + Z.to_nat N)%nat
       /\ network (trace r')
          = network (trace r)
            ++ retry_schedule (Z.to_nat N) (flags_url c) (init_of c req)
                 (delay (retryPolicy c)))
  /\ (valid None req -> flagCache c !! k = None ->
        exists e c' r',
          evaluateFlag req timeout (c, r) = (Throw e, (c', r'))
          /\ attempt_result "Failed to evaluate flag"
               (fetch c (served r + (Z.to_nat N - 1))%nat (flag_url c)
                  (init_of c req)) = Throw e
          /\ served r' = (served r + Z.to_nat N)%nat
          /\ network (trace r')
             = network (trace r)
               ++ retry_schedule (Z.to_nat N) (flag_url c) (init_of c req)
                    (delay (retryPolicy c))).
Proof.
  intros HN Hpos Hfail Hk.
  assert (S (Z.to_nat N - 1) = Z.to_nat N) as HS by lia.
  split; intros Hv Hmiss.
  - rewrite (evaluateFlags_miss _ _ _ _ k) by done.
    edestruct (loop_evaluateFlags_exhausts req (effective_timeout timeout c) k
                 (Z.to_nat N - 1) (Z.to_nat (retries (retryPolicy c))) 1 c
                 (logged "Evaluating flags..." c r))
      as (e & c' & r' & Hrun & He & _ & Hn & Hsv); [lia | lia | |].
    + intros i _. by apply transport_fails_throws.
    + rewrite logged_served in He, Hsv. rewrite logged_network, HS in Hn.
      rewrite HS in Hsv. by exists e, c', r'.
  - rewrite (evaluateFlag_miss _ _ _ _ k) by done.
    edestruct (loop_evaluateFlag_exhausts req (effective_timeout timeout c) k
                 (Z.to_nat N - 1) (Z.to_nat (retries (retryPolicy c))) 1 c
                 (logged "Evaluating flag..." c r))
      as (e & c' & r' & Hrun & He & _ & Hn & Hsv); [lia | lia | |].
    + intros i _. by apply transport_fails_throws.
    + rewrite logged_served in He, Hsv. rewrite logged_network, HS in Hn.
      rewrite HS in Hsv. by exists e, c', r'.
Qed.


End Claims.

(** What the interpreter makes of a response whose status is not a
    success: when the body parses to an object whose [error] member is the
    string [X], the error thrown has the message [prefix: X]; when the body
    does not parse, the message is [prefix: Y] with [Y] the raw text; when
    the body parses and has no [error] member, or a [null] one, the detail
    is [Internal Server Error].  At the last attempt the [catch] block of
    either entry point passes that message on unchanged. *)
Lemma error_message_format (response : Response) (prefix : string) :
  ok response = false ->
  (forall members X,
     json response = Return (JObject members) ->
     member "error" members = Some (JString X) ->
     handleErrorResponse response prefix = Throw (Error (prefix +:+ ": " +:+ X)))
  /\ (forall e,
        json response = Throw e ->
        handleErrorResponse response prefix
        = Throw (Error (prefix +:+ ": " +:+ text response)))
  /\ (forall v,
        json response = Return v ->
        get_error v = Return None \/ get_error v = Return (Some JNull) ->
        handleErrorResponse response prefix
        = Throw (Error (prefix +:+ ": " +:+ "Internal Server Error")))
  /\ (forall attempt e c r,
        attempt = retries (retryPolicy c) ->
        (exists st', catch_evaluateFlags attempt e (c, r)
                     = (Throw (Error (message e)), st'))
        /\ (exists st', catch_evaluateFlag attempt e (c, r) = (Throw e, st'))).
Proof.
  intros Hok. unfold handleErrorResponse. rewrite Hok. simpl. split_and!.
  - intros members X -> Hm. simpl. by rewrite Hm.
  - by intros e ->.
  - intros v -> [-> | ->]; done.
  - intros attempt e c r ->. split.
    + destruct (catch_evaluateFlags_run (retries (retryPolicy c)) e c r)
        as (c' & r' & Hrun & _).
      rewrite bool_decide_eq_true_2 in Hrun by done. eauto.
    + destruct (catch_evaluateFlag_run (retries (retryPolicy c)) e c r)
        as (c' & r' & Hrun & _).
      rewrite bool_decide_eq_true_2 in Hrun by lia. eauto.
Qed.

(** C7, what the code does.  The detail defaults to [Internal Server Error]
    on one path only, a body that parses and holds no [error]: the fallback
    written for the raw text, [rawError ?? errorDetail], never applies,
    since the text of a response is always a string.  A response with
    status 500 and an empty body is surfaced as [prefix: ] with nothing
    after the colon, by the interpreter and by both entry points; and a
    body that is the JSON literal [null], off which [error] cannot be read,
    is surfaced as [prefix: null]. *)
Theorem error_detail_is_not_defaulted :
  handleErrorResponse Sample.empty_500 "Failed to evaluate flags"
  = Throw (Error "Failed to evaluate flags: ")
  /\ handleErrorResponse Sample.null_500 "Failed to evaluate flag"
     = Throw (Error "Failed to evaluate flag: null")
  /\ handleErrorResponse (mkResponse false (Return (JObject [])) "{}")
       "Failed to evaluate flags"
     = Throw (Error "Failed to evaluate flags: Internal Server Error")
  /\ fst (@evaluateFlags Sample.stringify_request Sample.stringify_json
            Sample.request None (Sample.client Sample.hollow, Sample.boot))
     = Throw (Error "Failed to evaluate flags: ")
  /\ fst (@evaluateFlag Sample.stringify_request Sample.stringify_json
            Sample.request None (Sample.client Sample.hollow, Sample.boot))
     = Throw (Error "Failed to evaluate flag: ")
  /\ (forall response prefix,
        ok response = false ->
        (exists e, json response = Throw e) \/ json response = Return JNull ->
        handleErrorResponse response prefix
        = Throw (Error (prefix +:+ ": " +:+ text response))).
Proof.
  split_and!; try (vm_compute; reflexivity).
  intros response prefix Hok Hbody. unfold handleErrorResponse.
  rewrite Hok. simpl. by destruct Hbody as [[e ->] | ->].
Qed.

(** C1, what the code does.  The sample transport answers after nine
    seconds; the timeout is five.  The timer runs while the call is in
    flight and aborts its controller, but no call was ever given the
    controller's signal: the call runs to its end and the attempt succeeds,
    at the first try, for [evaluateFlags] and for [evaluateFlag] alike. *)
Theorem timeout_timer_cancels_nothing :
  let flags := @evaluateFlags Sample.stringify_request Sample.stringify_json
                 Sample.request (Some 5000)
                 (Sample.client Sample.slow, Sample.boot) in
  let flag := @evaluateFlag Sample.stringify_request Sample.stringify_json
                Sample.request (Some 5000)
                (Sample.client Sample.slow, Sample.boot) in
  (fst flags = Return (Some Sample.feature1)
   /\ now (snd (snd flags)) = 9000
   /\ elements (aborted (snd (snd flags))) = [0%nat]
   /\ served (snd (snd flags)) = 1%nat
   /\ fetch_signals (trace (snd (snd flags))) = [None])
  /\ (fst flag = Return (Some Sample.feature1)
      /\ now (snd (snd flag)) = 9000
      /\ elements (aborted (snd (snd flag))) = [0%nat]
      /\ served (snd (snd flag)) = 1%nat
      /\ fetch_signals (trace (snd (snd flag))) = [None]).
Proof. vm_compute. done. Qed.

(** C3, what the code does.  [new-api-key] is not thirty-two hexadecimal
    digits and the constructor refuses it; [setApiKey] takes it and stores
    it.  The only key [setApiKey] refuses is the empty one, and with a
    message of its own. *)
Theorem setApiKey_skips_the_format_check (c : Client) (r : Runtime) :
  validateApiKey "new-api-key" = false
  /\ constructor (Config.mk "new-api-key" None None None None) None (fetch c)
     = Throw (Error "Invalid API key. The key must be a 32-character hexadecimal string.")
  /\ setApiKey "new-api-key" (c, r)
     = (Return tt, (with_key "new-api-key" c, logged "API key updated." c r))
  /\ setApiKey "" (c, r) = (Throw (Error "API key is required"), (c, r)).
Proof.
  split_and!; try done.
  unfold setApiKey, bind. simpl. by rewrite log_eq.
Qed.


(** * The claims on the sample client *)

(** The keys of the test suite. *)
Example validateApiKey_examples :
  validateApiKey "0da8f357ce7a2b01effe5992f295a592" = true
  /\ validateApiKey "1FA8F357CE6A2B01EFFE5992F295A742" = true
  /\ validateApiKey "invalid-key" = false
  /\ validateApiKey "" = false
  /\ validateApiKey "0da8f357ce7a2b01effe5992f295a59g" = false
  /\ validateApiKey "0da8f357ce7a2b01effe5992f295a5921" = false.
Proof. by vm_compute. Qed.

(** What a template literal prints for parsed values. *)
Example toString_examples :
  toString (JArray [JNumber "1"; JNull; JArray [JBool true; JString "x"]])
  = Return "1,,true,x"
  /\ toString (JObject [("error", JString "x")]) = Return "[object Object]"
  /\ toString (JObject [("toString", JNull)])
     = Throw (TypeError "Cannot convert object to primitive value").
Proof. by vm_compute. Qed.

(** Error bodies that are JSON but not an object with a string [error]. *)
Example handleErrorResponse_examples :
  handleErrorResponse (mkResponse false (Return JNull) "null") "P"
  = Throw (Error "P: null")
  /\ handleErrorResponse
       (mkResponse false (Return (JObject [("error", JNumber "42")])) "-") "P"
     = Throw (Error "P: 42")
  /\ handleErrorResponse (mkResponse false (Return (JString "down")) "-") "P"
     = Throw (Error "P: Internal Server Error")
  /\ handleErrorResponse (mkResponse false (Throw (Error "bad")) "") "P"
     = Throw (Error "P: ")
  /\ handleErrorResponse (mkResponse true (Return (JArray [])) "[]") "P"
     = Return (JArray []).
Proof. by vm_compute. Qed.

(** The sample client is what the constructor builds from the sample
    configuration. *)
Lemma sample_client_constructed (t : Transport) :
  constructor Sample.config (Some t) t = Return (Sample.client t).
Proof. reflexivity. Qed.

Lemma validation_contract_witness :
  validateRequest (mkProps Sample.no_user_id None)
  = Throw (Error "User ID is required")
  /\ exists r',
       @evaluateFlag Sample.stringify_request Sample.stringify_json
         Sample.no_user_id None (Sample.client Sample.failing, Sample.boot)
       = (Throw (Error "User ID is required"), (Sample.client Sample.failing, r'))
       /\ served r' = 0%nat.
Proof.
  split; [reflexivity |].
  destruct (@validation_contract Sample.stringify_request Sample.stringify_json
              Sample.no_user_id None (Sample.client Sample.failing) Sample.boot)
    as (_ & Hflag & _).
  destruct (Hflag (Error "User ID is required") eq_refl)
    as [(r' & Hrun & Hsv & _) _].
  exists r'. split; [exact Hrun | exact Hsv].
Defined.

Lemma empty_flag_passes_the_flag_check_witness :
  flag Sample.empty_flag = Some ""
  /\ validateRequest (mkProps Sample.empty_flag None)
     <> Throw (Error "Flag is required").
Proof.
  split; [reflexivity |].
  exact (proj1 (empty_flag_passes_the_flag_check Sample.empty_flag eq_refl)).
Defined.

Lemma cache_hit_returns_cached_witness :
  let c := with_cache FlagCache {[ "production:user1" := Sample.feature1 ]}
             (Sample.client Sample.failing) in
  exists r',
    @evaluateFlag Sample.stringify_request Sample.stringify_json
      Sample.request None (c, Sample.boot)
    = (Return (Some Sample.feature1), (c, r'))
    /\ served r' = 0%nat.
Proof.
  intros c.
  destruct (@cache_hit_returns_cached Sample.stringify_request
              Sample.stringify_json Sample.request None c Sample.boot
              "production" "user1"
              (User.mk (Some "user1") (Some "user1@example.com"))
              Sample.feature1 eq_refl eq_refl eq_refl) as [Hflag _].
  destruct (Hflag eq_refl eq_refl) as (r' & Hrun & Hsv & _).
  exists r'. split; [exact Hrun | exact Hsv].
Defined.

Lemma zero_retries_attempts_nothing_witness :
  let c := with_retryPolicy (mkPolicy 0 1000) (Sample.client Sample.failing) in
  exists r',
    @evaluateFlags Sample.stringify_request Sample.stringify_json
      Sample.request None (c, Sample.boot)
    = (Return None, (c, r'))
    /\ served r' = 0%nat.
Proof.
  intros c.
  destruct (proj2 (@zero_retries_attempts_nothing Sample.stringify_request
                     Sample.stringify_json Sample.request None c Sample.boot
                     "production:user1") eq_refl eq_refl) as [_ Hflags].
  destruct (Hflags eq_refl eq_refl) as (r' & Hrun & Hsv & _).
  exists r'. split; [exact Hrun | exact Hsv].
Defined.

Lemma cache_key_ignores_the_flag_name_witness :
  let st1 := snd (@evaluateFlag Sample.stringify_request Sample.stringify_json
                    Sample.request None
                    (Sample.client Sample.slow, Sample.boot)) in
  exists r2,
    @evaluateFlag Sample.stringify_request Sample.stringify_json
      Sample.other_flag None st1
    = (Return (Some Sample.feature1), (fst st1, r2))
    /\ served r2 = 1%nat.
Proof.
  intros st1.
  destruct (@cache_key_ignores_the_flag_name Sample.stringify_request
              Sample.stringify_json Sample.request Sample.other_flag None None
              (Sample.client Sample.slow, Sample.boot) st1 Sample.feature1
              eq_refl eq_refl (mk_is_Some _ _ eq_refl))
    as (r2 & Hrun & Hsv & _).
  - vm_compute. reflexivity.
  - exists r2. split; [exact Hrun |]. rewrite Hsv. vm_compute. reflexivity.
Defined.


Lemma error_message_format_witness :
  handleErrorResponse
    (mkResponse false
       (Return (JObject [("error", JString "Custom error message")]))
       "ignored")
    "Failed to evaluate flag"
  = Throw (Error "Failed to evaluate flag: Custom error message")
  /\ handleErrorResponse
       (mkResponse false (Throw (mkError "SyntaxError" "Unexpected token"))
          "Invalid JSON")
       "Failed to evaluate flags"
     = Throw (Error "Failed to evaluate flags: Invalid JSON")
  /\ handleErrorResponse (mkResponse false (Return (JObject [])) "{}")
       "Failed to evaluate flags"
     = Throw (Error "Failed to evaluate flags: Internal Server Error").
Proof.
  split_and!.
  - exact (proj1 (error_message_format
                    (mkResponse false
                       (Return (JObject [("error", JString "Custom error message")]))
                       "ignored")
                    "Failed to evaluate flag" eq_refl)
             _ _ eq_refl eq_refl).
  - exact (proj1 (proj2 (error_message_format
                           (mkResponse false
                              (Throw (mkError "SyntaxError" "Unexpected token"))
                              "Invalid JSON")
                           "Failed to evaluate flags" eq_refl))
             _ eq_refl).
  - exact (proj1 (proj2 (proj2
             (error_message_format (mkResponse false (Return (JObject [])) "{}")
                "Failed to evaluate flags" eq_refl)))
             _ eq_refl (or_introl eq_refl)).
Defined.

(** * Further properties of the client *)

(** ** Time, timers and the caches *)

Lemma cache_with_cache p q m c :
  cache p (with_cache q m c) = if decide (p = q) then m else cache p c.
Proof. by destruct p, q. Qed.

Lemma fire_clock st t :
  now (snd (fire st t)) = now (snd st)
  /\ timers (snd (fire st t)) = timers (snd st).
Proof. destruct st as [c r]; unfold fire; by destruct (callback t). Qed.

Lemma foldl_fire_clock l st :
  now (snd (foldl fire st l)) = now (snd st)
  /\ timers (snd (foldl fire st l)) = timers (snd st).
Proof.
  revert st; induction l as [| t l IH]; intros st; simpl; [done |].
  destruct (IH (fire st t)) as [-> ->]. apply fire_clock.
Qed.

Lemma fire_shrinks st t p : cache p (fst (fire st t)) ⊆ cache p (fst st).
Proof.
  destruct st as [c r]; unfold fire; destruct (callback t) as [n | q k]; simpl;
    [done |].
  rewrite cache_with_cache. case_decide; [subst; apply delete_subseteq | done].
Qed.

Lemma foldl_fire_shrinks l st p :
  cache p (fst (foldl fire st l)) ⊆ cache p (fst st).
Proof.
  revert st; induction l as [| t l IH]; intros st; simpl; [done |].
  etrans; [apply IH | apply fire_shrinks].
Qed.

Lemma fire_evicts st t p k :
  callback t = CbEvict p k -> cache p (fst (fire st t)) !! k = None.
Proof.
  destruct st as [c r]; unfold fire; intros ->; simpl.
  rewrite cache_with_cache, decide_True by done. apply lookup_delete_eq.
Qed.

Lemma foldl_fire_evicts l st t p k :
  t ∈ l -> callback t = CbEvict p k ->
  cache p (fst (foldl fire st l)) !! k = None.
Proof.
  revert st; induction l as [| t' l IH]; intros st Hin Hcb.
  - by apply elem_of_nil in Hin.
  - apply elem_of_cons in Hin as [<- | Hin]; simpl; [| by apply IH].
    destruct (cache p (foldl fire (fire st t) l).1 !! k) as [x |] eqn:Hx; [| done].
    eapply lookup_weaken in Hx; [| apply foldl_fire_shrinks].
    by rewrite (fire_evicts st t p k) in Hx.
Qed.

Lemma fire_keeps st t p k :
  callback t <> CbEvict p k ->
  cache p (fst (fire st t)) !! k = cache p (fst st) !! k.
Proof.
  destruct st as [c r]; unfold fire; destruct (callback t) as [n | q k'] eqn:Hcb;
    simpl; [done |]. intros Hne.
  rewrite cache_with_cache. case_decide; [subst q | done].
  apply lookup_delete_ne. congruence.
Qed.

Lemma foldl_fire_keeps l st p k :
  (forall t, t ∈ l -> callback t <> CbEvict p k) ->
  cache p (fst (foldl fire st l)) !! k = cache p (fst st) !! k.
Proof.
  revert st; induction l as [| t l IH]; intros st Hl; simpl; [done |].
  rewrite IH by (intros; apply Hl; by right).
  apply fire_keeps, Hl. by left.
Qed.

(** The clock after [ms] milliseconds, and the timers still pending. *)
Lemma elapse_clock ms c r :
  now (snd (elapse ms (c, r))) = now r + Z.max 0 ms
  /\ timers (snd (elapse ms (c, r)))
     = filter (fun x => ¬ due x <= now r + Z.max 0 ms) (timers r).
Proof.
  unfold elapse.
  match goal with |- context [foldl fire ?s ?l] =>
    destruct (foldl_fire_clock l s) as [-> ->] end.
  done.
Qed.

(** Passing time only ever removes cache entries. *)
Lemma elapse_shrinks ms c r p :
  cache p (fst (elapse ms (c, r))) ⊆ cache p c.
Proof. unfold elapse. apply (foldl_fire_shrinks _ (c, _)). Qed.

(** An eviction that falls due removes its key. *)
Lemma elapse_evicts ms c r t p k :
  t ∈ timers r -> callback t = CbEvict p k -> due t <= now r + Z.max 0 ms ->
  cache p (fst (elapse ms (c, r))) !! k = None.
Proof.
  intros Hin Hcb Hdue. unfold elapse.
  apply (foldl_fire_evicts _ _ t); [| done]. by apply list_elem_of_filter.
Qed.

(** A key no eviction falls due for stays as it is. *)
Lemma elapse_keeps ms c r p k :
  (forall t, t ∈ timers r -> callback t = CbEvict p k ->
             now r + Z.max 0 ms < due t) ->
  cache p (fst (elapse ms (c, r))) !! k = cache p c !! k.
Proof.
  intros Hlate. unfold elapse.
  rewrite (foldl_fire_keeps _ (c, _)); [done |].
  intros t [Hdue Hin]%list_elem_of_filter Hcb.
  specialize (Hlate t Hin Hcb). lia.
Qed.

Lemma setCache_eq p k v c r :
  setCache p k v (c, r)
  = (Return tt,
     (with_cache p (<[k := v]> (cache p c)) c,
      if bool_decide (cacheTTL c > 0) then armed p k (cacheTTL c) r else r)).
Proof.
  unfold setCache, armed.
  assert (cacheTTL (with_cache p (<[k := v]> (cache p c)) c) = cacheTTL c) as ->
    by (by destruct p).
  by case_bool_decide.
Qed.

Lemma logged_frame msg c r :
  now (logged msg c r) = now r /\ timers (logged msg c r) = timers r
  /\ fresh (logged msg c r) = fresh r /\ aborted (logged msg c r) = aborted r
  /\ (debug c = false -> logged msg c r = r).
Proof. unfold logged. by destruct (debug c). Qed.

Section Frames.

Context `{!JSONStringify Request} `{!JSONStringify Json}.

Lemma try_evaluateFlags_frame req t k c r :
  let o := fetch c (served r) (flags_url c) (init_of c req) in
  let abort_timer := mkTimer (S (fresh r)) (now r + timer_delay t) (CbAbort (fresh r)) in
  exists c' r',
    try_evaluateFlags req t k (c, r)
      = (attempt_result "Failed to evaluate flags" o, (c', r'))
    /\ now r' = now r + Z.max 0 (latency o)
    /\ (debug c = false ->
        trace r' = trace r ++ [EvFetch (flags_url c) (init_of c req)])
    /\ flagCache c' ⊆ flagCache c
    /\ (forall k' x, k' <> k ->
          flagsCache c' !! k' = Some x -> flagsCache c !! k' = Some x)
    /\ (forall tm, tm ∈ timers r' -> is_eviction tm ->
          tm ∈ timers r
          \/ ((exists v, attempt_result "Failed to evaluate flags" o = Return v)
              /\ 0 < cacheTTL c
              /\ callback tm = CbEvict FlagsCache k
              /\ due tm = now r' + timer_delay (cacheTTL c)))
    /\ (forall v, attempt_result "Failed to evaluate flags" o = Return v ->
          0 < cacheTTL c ->
          exists tm, tm ∈ timers r' /\ callback tm = CbEvict FlagsCache k
                     /\ due tm = now r' + timer_delay (cacheTTL c))
    /\ (forall e, attempt_result "Failed to evaluate flags" o = Throw e ->
          flagsCache c' ⊆ flagsCache c)
    /\ (forall e, settled o = Throw e -> Z.max 0 (latency o) < timer_delay t ->
          abort_timer ∈ timers r').
Proof.
  intros o abort_timer.
  unfold try_evaluateFlags, bind, read, newAbortController, setTimeout,
    await_fetch, clearTimeout, lift, attempt_result. simpl.
  fold (flags_url c) (init_of c req). fold o. fold abort_timer.
  match goal with |- context [elapse ?ms (c, ?r0)] =>
    destruct (elapse_frame ms c r0) as (Hs & Htr & _);
    destruct (elapse_clock ms c r0) as (Hnow & Htm);
    pose proof (fun p => elapse_shrinks ms c r0 p) as Hshr;
    destruct (elapse ms (c, r0)) as [c1 r1]
  end.
  simpl in *.
  assert (cacheTTL c1 = cacheTTL c /\ debug c1 = debug c) as [Httl Hdbg]
    by (by injection Hs as _ -> _ -> _ _ _ _).
  assert (forall tm, tm ∈ timers r1 -> is_eviction tm -> tm ∈ timers r) as Hev.
  { intros tm Hin (p & k0 & Hcb). rewrite Htm in Hin.
    apply list_elem_of_filter in Hin as [_ Hin].
    apply elem_of_app in Hin as [Hin | Hin]; [done |].
    apply list_elem_of_singleton in Hin. subst tm. done. }
  destruct (settled o) as [response | e].
  - destruct (handleErrorResponse response "Failed to evaluate flags")
      as [v | e] eqn:Hh.
    + rewrite log_eq. rewrite setCache_eq. simpl.
      match goal with |- context [logged ?m c1 ?r0] =>
        destruct (logged_frame m c1 r0) as (Hln & Hlt & Hlf & Hla & Hlq);
        set (r2 := logged m c1 r0) in * end.
      simpl in *. rewrite Httl.
      do 2 eexists. split; [reflexivity |]. simpl.
      split_and!.
      * by case_bool_decide; simpl; rewrite Hln.
      * intros Hq. rewrite Hdbg in Hlq. specialize (Hlq Hq).
        case_bool_decide; simpl; rewrite Hlq; simpl; by rewrite Htr.
      * apply (Hshr FlagCache).
      * intros k' x Hne. rewrite lookup_insert_ne by done.
        intros Hx. eapply lookup_weaken; [exact Hx | apply (Hshr FlagsCache)].
      * intros tm Hin Hevict. case_bool_decide as Hpos; simpl in Hin.
        -- apply elem_of_app in Hin as [Hin | Hin].
           ++ left. apply Hev; [| done]. rewrite Hlt in Hin.
              by apply list_elem_of_filter in Hin as [_ Hin].
           ++ apply list_elem_of_singleton in Hin. subst tm. right.
              split; [by eexists |]. split; [lia |]. simpl.
              split; [done |]. rewrite Hln. simpl. lia.
        -- left. apply Hev; [| done]. rewrite Hlt in Hin.
           by apply list_elem_of_filter in Hin as [_ Hin].
      * intros v' _ Hpos. rewrite bool_decide_eq_true_2 by lia.
        eexists. split; [apply elem_of_app; right; by apply list_elem_of_singleton |].
        simpl. split; [done |]. rewrite Hln. simpl. lia.
      * done.
      * done.
    + do 2 eexists. split; [reflexivity |]. simpl. split_and!; try done.
      * apply (Hshr FlagCache).
      * intros k' x _ Hx.
        eapply lookup_weaken; [exact Hx | apply (Hshr FlagsCache)].
      * intros tm Hin Hevict. left. apply Hev; [| done].
        by apply list_elem_of_filter in Hin as [_ Hin].
      * intros _ _. apply (Hshr FlagsCache).
  - do 2 eexists. split; [reflexivity |]. simpl. split_and!; try done.
    + apply (Hshr FlagCache).
    + intros k' x _ Hx.
      eapply lookup_weaken; [exact Hx | apply (Hshr FlagsCache)].
    + intros tm Hin Hevict. left. by apply Hev.
    + intros _ _. apply (Hshr FlagsCache).
    + intros e' _ Hlate. rewrite Htm. apply list_elem_of_filter. split.
      * unfold abort_timer. simpl. lia.
      * apply elem_of_app. right. by apply list_elem_of_singleton.
Qed.

Lemma sleep_frame ms c r :
  exists c' r', sleep ms (c, r) = (Return tt, (c', r'))
    /\ now r <= now r'
    /\ (forall p, cache p c' ⊆ cache p c)
    /\ (forall tm, tm ∈ timers r' -> tm ∈ timers r)
    /\ trace r' = trace r ++ [EvDelay ms].
Proof.
  unfold sleep.
  destruct (elapse_frame (timer_delay ms) c (emit (EvDelay ms) r))
    as (_ & Htr & _).
  destruct (elapse_clock (timer_delay ms) c (emit (EvDelay ms) r))
    as (Hnow & Htm).
  pose proof (fun p => elapse_shrinks (timer_delay ms) c (emit (EvDelay ms) r) p)
    as Hshr.
  destruct (elapse (timer_delay ms) (c, emit (EvDelay ms) r)) as [c' r'].
  simpl in *.
  exists c', r'. split_and!; try done; [lia |].
  intros tm Hin. rewrite Htm in Hin. by apply list_elem_of_filter in Hin as [_ ?].
Qed.

Lemma catch_evaluateFlags_frame attempt e c r :
  exists c' r',
    catch_evaluateFlags attempt e (c, r)
      = (if bool_decide (attempt = retries (retryPolicy c))
         then Throw (Error (message e)) else Return None, (c', r'))
    /\ now r <= now r'
    /\ (forall p, cache p c' ⊆ cache p c)
    /\ (forall tm, tm ∈ timers r' -> tm ∈ timers r)
    /\ (debug c = false ->
        trace r' = trace r
                   ++ (if bool_decide (attempt = retries (retryPolicy c))
                       then [] else [EvDelay (delay (retryPolicy c))]))
    /\ (attempt = retries (retryPolicy c) ->
        c' = c /\ now r' = now r /\ timers r' = timers r).
Proof.
  unfold catch_evaluateFlags, bind, read, throw, ret.
  rewrite log_eq. simpl.
  match goal with |- context [logged ?m c r] =>
    destruct (logged_frame m c r) as (Hln & Hlt & _ & _ & Hlq);
    set (r1 := logged m c r) in * end.
  case_bool_decide.
  - exists c, r1. split_and!; try done; try lia.
    + by intros tm; rewrite Hlt.
    + intros Hq. by rewrite Hlq, app_nil_r.
  - destruct (sleep_frame (delay (retryPolicy c)) c r1)
      as (c2 & r2 & -> & Hn & Hc & Ht & Htr).
    exists c2, r2. split_and!; try done; try lia.
    + intros tm Hin. rewrite <- Hlt. by apply Ht.
    + intros Hq. by rewrite Htr, Hlq.
Qed.

(** ** The loop, whatever the transport does *)

Lemma loop_evaluateFlags_shape req t k fuel :
  forall attempt c r res c' r',
    (Z.to_nat (retries (retryPolicy c) - attempt + 1) <= fuel)%nat ->
    loop_evaluateFlags fuel req t k attempt (c, r) = (res, (c', r')) ->
    exists n : nat,
      (n <= Z.to_nat (retries (retryPolicy c) - attempt + 1))%nat
      /\ served r' = (served r + n)%nat
      /\ network (trace r')
         = network (trace r)
           ++ retry_schedule n (flags_url c) (init_of c req) (delay (retryPolicy c))
      /\ (debug c = false ->
          trace r'
          = trace r
            ++ retry_schedule n (flags_url c) (init_of c req) (delay (retryPolicy c)))
      /\ settings c' = settings c
      /\ (forall i, (S i < n)%nat -> exists e,
            attempt_result "Failed to evaluate flags"
              (fetch c (served r + i)%nat (flags_url c) (init_of c req)) = Throw e)
      /\ match res with
         | Return (Some v) =>
             (1 <= n)%nat
             /\ attempt_result "Failed to evaluate flags"
                  (fetch c (served r + (n - 1))%nat (flags_url c) (init_of c req))
                = Return v
         | Return None => n = 0%nat /\ retries (retryPolicy c) < attempt
         | Throw e =>
             n = Z.to_nat (retries (retryPolicy c) - attempt + 1)
             /\ attempt <= retries (retryPolicy c)
             /\ exists e0,
                  attempt_result "Failed to evaluate flags"
                    (fetch c (served r + (n - 1))%nat (flags_url c) (init_of c req))
                  = Throw e0
                  /\ e = Error (message e0)
         end.
Proof.
  induction fuel as [| fuel IH]; intros attempt c r res c' r' Hfuel Hrun;
    rewrite loop_evaluateFlags_step in Hrun; case_bool_decide as Hcond;
    try (injection Hrun as <- <- <-; exists 0%nat; rewrite !app_nil_r;
         split_and!; try done; try lia; intros; lia).
  destruct (try_evaluateFlags_run req t k c r)
    as (c1 & r1 & Htry & Hs1 & Hn1 & Hsv1 & _).
  destruct (try_evaluateFlags_frame req t k c r)
    as (c1' & r1' & Htry' & _ & Hq1 & _).
  rewrite Htry in Htry'. injection Htry' as <- <-. rewrite Htry in Hrun.
  destruct (attempt_result _ _) as [v | e0] eqn:Har.
  - injection Hrun as <- <- <-. exists 1%nat. rewrite Nat.add_0_r.
    split_and!; try done; try lia; try (intros; lia).
  - destruct (catch_evaluateFlags_run attempt e0 c1 r1)
      as (c2 & r2 & Hcatch & Hs2 & Hn2 & Hsv2).
    destruct (catch_evaluateFlags_frame attempt e0 c1 r1)
      as (c2' & r2' & Hcatch' & _ & _ & _ & Hq2 & _).
    rewrite Hcatch in Hcatch'. injection Hcatch' as <- <-. rewrite Hcatch in Hrun.
    destruct (settings_inv _ _ Hs1) as (Hu1 & _ & Hi1 & Hf1 & Hp1).
    assert (debug c1 = debug c) as Hd1 by (by injection Hs1 as _ -> _ _ _ _ _ _).
    rewrite Hp1, Hd1 in *.
    case_bool_decide as Hlast.
    + injection Hrun as <- <- <-. exists 1%nat. rewrite Nat.add_0_r, app_nil_r in *.
      split_and!; try done; try lia; try congruence; try (intros; lia).
      * by rewrite Hn2, Hn1.
      * intros Hq. by rewrite (Hq2 Hq), (Hq1 Hq).
      * eauto.
    + destruct (settings_inv c c2 ltac:(congruence)) as (Hu2 & _ & Hi2 & Hf2 & Hp2).
      assert (debug c2 = debug c) as Hd2
        by (assert (settings c2 = settings c) as Hs by congruence;
            by injection Hs as _ -> _ _ _ _ _ _).
      apply IH in Hrun as (n & Hle & Hsv & Hn & Hq & Hs & Hbefore & Hres);
        [| rewrite Hp2; lia].
      rewrite Hu2, Hi2, Hf2, Hp2, Hd2, Hsv2, Hsv1 in *.
      assert (1 <= n)%nat as Hpos.
      { destruct res as [[v |] | e]; lia. }
      destruct n as [| m]; [lia |].
      exists (S (S m)). split_and!.
      * lia.
      * lia.
      * rewrite Hn, Hn2, Hn1, retry_schedule_S. by rewrite <- !app_assoc.
      * intros Hq0. rewrite (Hq Hq0), (Hq2 Hq0), (Hq1 Hq0), retry_schedule_S.
        by rewrite <- !app_assoc.
      * congruence.
      * intros [| i] Hi.
        -- rewrite Nat.add_0_r. eauto.
        -- destruct (Hbefore i ltac:(lia)) as [e He]. exists e. rewrite <- He.
           by replace (S (served r) + i)%nat with (served r + S i)%nat by lia.
      * replace (served r + (S (S m) - 1))%nat
          with (S (served r) + (S m - 1))%nat by lia.
        destruct res as [[v |] | e]; [| | ].
        -- split; [lia | apply Hres].
        -- lia.
        -- destruct Hres as (Hfull & Hle' & Hlast').
           split_and!; [lia | lia | done].
Qed.

Lemma loop_evaluateFlags_frame req t k fuel :
  forall attempt c r res c' r',
    (Z.to_nat (retries (retryPolicy c) - attempt + 1) <= fuel)%nat ->
    loop_evaluateFlags fuel req t k attempt (c, r) = (res, (c', r')) ->
    now r <= now r'
    /\ flagCache c' ⊆ flagCache c
    /\ (forall k' x, k' <> k ->
          flagsCache c' !! k' = Some x -> flagsCache c !! k' = Some x)
    /\ (forall tm, tm ∈ timers r' -> is_eviction tm ->
          tm ∈ timers r
          \/ ((exists v, res = Return (Some v))
              /\ 0 < cacheTTL c
              /\ callback tm = CbEvict FlagsCache k
              /\ due tm = now r' + timer_delay (cacheTTL c)))
    /\ match res with
       | Return (Some v) =>
           flagsCache c' !! k = Some v
           /\ (0 < cacheTTL c ->
               exists tm, tm ∈ timers r' /\ callback tm = CbEvict FlagsCache k
                          /\ due tm = now r' + timer_delay (cacheTTL c))
       | Return None => retries (retryPolicy c) < attempt /\ c' = c /\ r' = r
       | Throw e =>
           flagsCache c' ⊆ flagsCache c
           /\ (forall e0,
                 settled (fetch c (served r' - 1)%nat (flags_url c) (init_of c req))
                 = Throw e0 ->
                 Z.max 0 (latency (fetch c (served r' - 1)%nat (flags_url c)
                                     (init_of c req)))
                 < timer_delay t ->
                 exists tm, tm ∈ timers r' /\ (exists n, callback tm = CbAbort n)
                            /\ now r' < due tm)
       end.
Proof.
  induction fuel as [| fuel IH]; intros attempt c r res c' r' Hfuel Hrun;
    rewrite loop_evaluateFlags_step in Hrun; case_bool_decide as Hcond;
    try (injection Hrun as <- <- <-; split_and!; try done; try lia; by left).
  destruct (try_evaluateFlags_run req t k c r)
    as (c1 & r1 & Htry & Hs1 & _ & Hsv1 & Hst1 & _).
  destruct (try_evaluateFlags_frame req t k c r)
    as (c1' & r1' & Htry' & Hnow1 & _ & Hfc1 & Hoff1 & Hev1 & Harm1 & Hfs1 & Hleak1).
  rewrite Htry in Htry'. injection Htry' as <- <-. rewrite Htry in Hrun.
  destruct (attempt_result _ _) as [v | e0] eqn:Har.
  - injection Hrun as <- <- <-. split_and!; try done; try lia.
    + intros tm Hin Hevict. destruct (Hev1 tm Hin Hevict) as [? | (_ & ? & ? & ?)];
        [by left | right]. split_and!; eauto.
    + by apply Hst1.
    + by apply (Harm1 v).
  - specialize (Hfs1 e0 eq_refl).
    assert (forall tm, tm ∈ timers r1 -> is_eviction tm -> tm ∈ timers r) as Hev1'.
    { intros tm Hin Hevict.
      destruct (Hev1 tm Hin Hevict) as [? | ([? ?] & _)]; done. }
    destruct (catch_evaluateFlags_run attempt e0 c1 r1)
      as (c2 & r2 & Hcatch & Hs2 & _ & Hsv2).
    destruct (catch_evaluateFlags_frame attempt e0 c1 r1)
      as (c2' & r2' & Hcatch' & Hnow2 & Hc2 & Ht2 & _ & Hfin).
    rewrite Hcatch in Hcatch'. injection Hcatch' as <- <-. rewrite Hcatch in Hrun.
    destruct (settings_inv _ _ Hs1) as (Hu1 & _ & Hi1 & Hf1 & Hp1).
    rewrite Hp1 in *.
    case_bool_decide as Hlast.
    + injection Hrun as <- <- <-. destruct (Hfin Hlast) as (-> & Hnow & Htm).
      split_and!; try lia.
      * done.
      * done.
      * intros tm Hin Hevict. left. apply Hev1'; [| done]. by rewrite <- Htm.
      * done.
      * rewrite Hsv2, Hsv1. simpl. rewrite Nat.sub_0_r.
        intros e1 Hrej Hlate. eexists. split; [rewrite Htm; by eapply Hleak1 |].
        simpl. split; [by eexists |]. lia.
    + destruct (settings_inv c c2 ltac:(congruence)) as (Hu2 & _ & Hi2 & Hf2 & Hp2).
      assert (cacheTTL c2 = cacheTTL c) as Httl
        by (assert (settings c2 = settings c) as Hs by congruence;
            by injection Hs as _ _ _ -> _ _ _ _).
      apply IH in Hrun as (Hnow & Hfc & Hoff & Hev & Hres); [| rewrite Hp2; lia].
      rewrite Httl in Hev.
      split_and!.
      * lia.
      * etrans; [exact Hfc |]. etrans; [apply (Hc2 FlagCache) | exact Hfc1].
      * intros k' x Hne Hx. apply Hoff1; [done |].
        eapply lookup_weaken; [by eapply Hoff | apply (Hc2 FlagsCache)].
      * intros tm Hin Hevict. destruct (Hev tm Hin Hevict) as [Hold | Hnew];
          [left; apply Hev1'; [by apply Ht2 | done] | by right].
      * destruct res as [[v |] | e].
        -- by rewrite Httl in Hres.
        -- rewrite Hp2 in Hres. lia.
        -- rewrite Hu2, Hi2, Hf2 in Hres. destruct Hres as [Hsub Hleak].
           split; [| done].
           etrans; [exact Hsub |]. etrans; [apply (Hc2 FlagsCache) | exact Hfs1].
Qed.

Lemma try_evaluateFlag_frame req t k c r :
  let o := fetch c (served r) (flag_url c) (init_of c req) in
  let abort_timer := mkTimer (S (fresh r)) (now r + timer_delay t) (CbAbort (fresh r)) in
  exists c' r',
    try_evaluateFlag req t k (c, r)
      = (attempt_result "Failed to evaluate flag" o, (c', r'))
    /\ now r' = now r + Z.max 0 (latency o)
    /\ (debug c = false ->
        trace r' = trace r ++ [EvFetch (flag_url c) (init_of c req)])
    /\ flagsCache c' ⊆ flagsCache c
    /\ (forall k' x, k' <> k ->
          flagCache c' !! k' = Some x -> flagCache c !! k' = Some x)
    /\ (forall tm, tm ∈ timers r' -> is_eviction tm ->
          tm ∈ timers r
          \/ ((exists v, attempt_result "Failed to evaluate flag" o = Return v)
              /\ 0 < cacheTTL c
              /\ callback tm = CbEvict FlagCache k
              /\ due tm = now r' + timer_delay (cacheTTL c)))
    /\ (forall v, attempt_result "Failed to evaluate flag" o = Return v ->
          0 < cacheTTL c ->
          exists tm, tm ∈ timers r' /\ callback tm = CbEvict FlagCache k
                     /\ due tm = now r' + timer_delay (cacheTTL c))
    /\ (forall e, attempt_result "Failed to evaluate flag" o = Throw e ->
          flagCache c' ⊆ flagCache c)
    /\ (forall e, settled o = Throw e -> Z.max 0 (latency o) < timer_delay t ->
          abort_timer ∈ timers r').
Proof.
  intros o abort_timer.
  unfold try_evaluateFlag, bind, read, newAbortController, setTimeout,
    await_fetch, clearTimeout, lift, attempt_result. simpl.
  fold (flag_url c) (init_of c req). fold o. fold abort_timer.
  match goal with |- context [elapse ?ms (c, ?r0)] =>
    destruct (elapse_frame ms c r0) as (Hs & Htr & _);
    destruct (elapse_clock ms c r0) as (Hnow & Htm);
    pose proof (fun p => elapse_shrinks ms c r0 p) as Hshr;
    destruct (elapse ms (c, r0)) as [c1 r1]
  end.
  simpl in *.
  assert (cacheTTL c1 = cacheTTL c /\ debug c1 = debug c) as [Httl Hdbg]
    by (by injection Hs as _ -> _ -> _ _ _ _).
  assert (forall tm, tm ∈ timers r1 -> is_eviction tm -> tm ∈ timers r) as Hev.
  { intros tm Hin (p & k0 & Hcb). rewrite Htm in Hin.
    apply list_elem_of_filter in Hin as [_ Hin].
    apply elem_of_app in Hin as [Hin | Hin]; [done |].
    apply list_elem_of_singleton in Hin. subst tm. done. }
  destruct (settled o) as [response | e].
  - destruct (handleErrorResponse response "Failed to evaluate flag")
      as [v | e] eqn:Hh.
    + rewrite log_eq. rewrite setCache_eq. simpl.
      match goal with |- context [logged ?m c1 ?r0] =>
        destruct (logged_frame m c1 r0) as (Hln & Hlt & Hlf & Hla & Hlq);
        set (r2 := logged m c1 r0) in * end.
      simpl in *. rewrite Httl.
      do 2 eexists. split; [reflexivity |]. simpl.
      split_and!.
      * by case_bool_decide; simpl; rewrite Hln.
      * intros Hq. rewrite Hdbg in Hlq. specialize (Hlq Hq).
        case_bool_decide; simpl; rewrite Hlq; simpl; by rewrite Htr.
      * apply (Hshr FlagsCache).
      * intros k' x Hne. rewrite lookup_insert_ne by done.
        intros Hx. eapply lookup_weaken; [exact Hx | apply (Hshr FlagCache)].
      * intros tm Hin Hevict. case_bool_decide as Hpos; simpl in Hin.
        -- apply elem_of_app in Hin as [Hin | Hin].
           ++ left. apply Hev; [| done]. rewrite Hlt in Hin.
              by apply list_elem_of_filter in Hin as [_ Hin].
           ++ apply list_elem_of_singleton in Hin. subst tm. right.
              split; [by eexists |]. split; [lia |]. simpl.
              split; [done |]. rewrite Hln. simpl. lia.
        -- left. apply Hev; [| done]. rewrite Hlt in Hin.
           by apply list_elem_of_filter in Hin as [_ Hin].
      * intros v' _ Hpos. rewrite bool_decide_eq_true_2 by lia.
        eexists. split; [apply elem_of_app; right; by apply list_elem_of_singleton |].
        simpl. split; [done |]. rewrite Hln. simpl. lia.
      * done.
      * done.
    + do 2 eexists. split; [reflexivity |]. simpl. split_and!; try done.
      * apply (Hshr FlagsCache).
      * intros k' x _ Hx.
        eapply lookup_weaken; [exact Hx | apply (Hshr FlagCache)].
      * intros tm Hin Hevict. left. apply Hev; [| done].
        by apply list_elem_of_filter in Hin as [_ Hin].
      * intros _ _. apply (Hshr FlagCache).
  - do 2 eexists. split; [reflexivity |]. simpl. split_and!; try done.
    + apply (Hshr FlagsCache).
    + intros k' x _ Hx.
      eapply lookup_weaken; [exact Hx | apply (Hshr FlagCache)].
    + intros tm Hin Hevict. left. by apply Hev.
    + intros _ _. apply (Hshr FlagCache).
    + intros e' _ Hlate. rewrite Htm. apply list_elem_of_filter. split.
      * unfold abort_timer. simpl. lia.
      * apply elem_of_app. right. by apply list_elem_of_singleton.
Qed.

Lemma catch_evaluateFlag_frame attempt e c r :
  exists c' r',
    catch_evaluateFlag attempt e (c, r)
      = (if bool_decide (attempt >= retries (retryPolicy c))
         then Throw e else Return None, (c', r'))
    /\ now r <= now r'
    /\ (forall p, cache p c' ⊆ cache p c)
    /\ (forall tm, tm ∈ timers r' -> tm ∈ timers r)
    /\ (debug c = false ->
        trace r' = trace r
                   ++ (if bool_decide (attempt >= retries (retryPolicy c))
                       then [] else [EvDelay (delay (retryPolicy c))]))
    /\ (attempt >= retries (retryPolicy c) ->
        c' = c /\ now r' = now r /\ timers r' = timers r).
Proof.
  unfold catch_evaluateFlag, bind, read, throw, ret.
  rewrite log_eq. simpl.
  match goal with |- context [logged ?m c r] =>
    destruct (logged_frame m c r) as (Hln & Hlt & _ & _ & Hlq);
    set (r1 := logged m c r) in * end.
  case_bool_decide.
  - exists c, r1. split_and!; try done; try lia.
    + by intros tm; rewrite Hlt.
    + intros Hq. by rewrite Hlq, app_nil_r.
  - destruct (sleep_frame (delay (retryPolicy c)) c r1)
      as (c2 & r2 & -> & Hn & Hc & Ht & Htr).
    exists c2, r2. split_and!; try done; try lia.
    + intros tm Hin. rewrite <- Hlt. by apply Ht.
    + intros Hq. by rewrite Htr, Hlq.
Qed.

Lemma loop_evaluateFlag_shape req t k fuel :
  forall attempt c r res c' r',
    (Z.to_nat (retries (retryPolicy c) - attempt + 1) <= fuel)%nat ->
    loop_evaluateFlag fuel req t k attempt (c, r) = (res, (c', r')) ->
    exists n : nat,
      (n <= Z.to_nat (retries (retryPolicy c) - attempt + 1))%nat
      /\ served r' = (served r + n)%nat
      /\ network (trace r')
         = network (trace r)
           ++ retry_schedule n (flag_url c) (init_of c req) (delay (retryPolicy c))
      /\ (debug c = false ->
          trace r'
          = trace r
            ++ retry_schedule n (flag_url c) (init_of c req) (delay (retryPolicy c)))
      /\ settings c' = settings c
      /\ (forall i, (S i < n)%nat -> exists e,
            attempt_result "Failed to evaluate flag"
              (fetch c (served r + i)%nat (flag_url c) (init_of c req)) = Throw e)
      /\ match res with
         | Return (Some v) =>
             (1 <= n)%nat
             /\ attempt_result "Failed to evaluate flag"
                  (fetch c (served r + (n - 1))%nat (flag_url c) (init_of c req))
                = Return v
         | Return None => n = 0%nat /\ retries (retryPolicy c) < attempt
         | Throw e =>
             n = Z.to_nat (retries (retryPolicy c) - attempt + 1)
             /\ attempt <= retries (retryPolicy c)
             /\ exists e0,
                  attempt_result "Failed to evaluate flag"
                    (fetch c (served r + (n - 1))%nat (flag_url c) (init_of c req))
                  = Throw e0
                  /\ e = e0
         end.
Proof.
  induction fuel as [| fuel IH]; intros attempt c r res c' r' Hfuel Hrun;
    rewrite loop_evaluateFlag_step in Hrun; case_bool_decide as Hcond;
    try (injection Hrun as <- <- <-; exists 0%nat; rewrite !app_nil_r;
         split_and!; try done; try lia; intros; lia).
  destruct (try_evaluateFlag_run req t k c r)
    as (c1 & r1 & Htry & Hs1 & Hn1 & Hsv1 & _).
  destruct (try_evaluateFlag_frame req t k c r)
    as (c1' & r1' & Htry' & _ & Hq1 & _).
  rewrite Htry in Htry'. injection Htry' as <- <-. rewrite Htry in Hrun.
  destruct (attempt_result _ _) as [v | e0] eqn:Har.
  - injection Hrun as <- <- <-. exists 1%nat. rewrite Nat.add_0_r.
    split_and!; try done; try lia; try (intros; lia).
  - destruct (catch_evaluateFlag_run attempt e0 c1 r1)
      as (c2 & r2 & Hcatch & Hs2 & Hn2 & Hsv2).
    destruct (catch_evaluateFlag_frame attempt e0 c1 r1)
      as (c2' & r2' & Hcatch' & _ & _ & _ & Hq2 & _).
    rewrite Hcatch in Hcatch'. injection Hcatch' as <- <-. rewrite Hcatch in Hrun.
    destruct (settings_inv _ _ Hs1) as (_ & Hu1 & Hi1 & Hf1 & Hp1).
    assert (debug c1 = debug c) as Hd1 by (by injection Hs1 as _ -> _ _ _ _ _ _).
    rewrite Hp1, Hd1 in *.
    case_bool_decide as Hlast.
    + injection Hrun as <- <- <-. exists 1%nat. rewrite Nat.add_0_r, app_nil_r in *.
      split_and!; try done; try lia; try congruence; try (intros; lia).
      * by rewrite Hn2, Hn1.
      * intros Hq. by rewrite (Hq2 Hq), (Hq1 Hq).
      * eauto.
    + destruct (settings_inv c c2 ltac:(congruence)) as (_ & Hu2 & Hi2 & Hf2 & Hp2).
      assert (debug c2 = debug c) as Hd2
        by (assert (settings c2 = settings c) as Hs by congruence;
            by injection Hs as _ -> _ _ _ _ _ _).
      apply IH in Hrun as (n & Hle & Hsv & Hn & Hq & Hs & Hbefore & Hres);
        [| rewrite Hp2; lia].
      rewrite Hu2, Hi2, Hf2, Hp2, Hd2, Hsv2, Hsv1 in *.
      assert (1 <= n)%nat as Hpos.
      { destruct res as [[v |] | e]; lia. }
      destruct n as [| m]; [lia |].
      exists (S (S m)). split_and!.
      * lia.
      * lia.
      * rewrite Hn, Hn2, Hn1, retry_schedule_S. by rewrite <- !app_assoc.
      * intros Hq0. rewrite (Hq Hq0), (Hq2 Hq0), (Hq1 Hq0), retry_schedule_S.
        by rewrite <- !app_assoc.
      * congruence.
      * intros [| i] Hi.
        -- rewrite Nat.add_0_r. eauto.
        -- destruct (Hbefore i ltac:(lia)) as [e He]. exists e. rewrite <- He.
           by replace (S (served r) + i)%nat with (served r + S i)%nat by lia.
      * replace (served r + (S (S m) - 1))%nat
          with (S (served r) + (S m - 1))%nat by lia.
        destruct res as [[v |] | e]; [| | ].
        -- split; [lia | apply Hres].
        -- lia.
        -- destruct Hres as (Hfull & Hle' & Hlast').
           split_and!; [lia | lia | done].
Qed.

Lemma loop_evaluateFlag_frame req t k fuel :
  forall attempt c r res c' r',
    (Z.to_nat (retries (retryPolicy c) - attempt + 1) <= fuel)%nat ->
    loop_evaluateFlag fuel req t k attempt (c, r) = (res, (c', r')) ->
    now r <= now r'
    /\ flagsCache c' ⊆ flagsCache c
    /\ (forall k' x, k' <> k ->
          flagCache c' !! k' = Some x -> flagCache c !! k' = Some x)
    /\ (forall tm, tm ∈ timers r' -> is_eviction tm ->
          tm ∈ timers r
          \/ ((exists v, res = Return (Some v))
              /\ 0 < cacheTTL c
              /\ callback tm = CbEvict FlagCache k
              /\ due tm = now r' + timer_delay (cacheTTL c)))
    /\ match res with
       | Return (Some v) =>
           flagCache c' !! k = Some v
           /\ (0 < cacheTTL c ->
               exists tm, tm ∈ timers r' /\ callback tm = CbEvict FlagCache k
                          /\ due tm = now r' + timer_delay (cacheTTL c))
       | Return None => retries (retryPolicy c) < attempt /\ c' = c /\ r' = r
       | Throw e =>
           flagCache c' ⊆ flagCache c
           /\ (forall e0,
                 settled (fetch c (served r' - 1)%nat (flag_url c) (init_of c req))
                 = Throw e0 ->
                 Z.max 0 (latency (fetch c (served r' - 1)%nat (flag_url c)
                                     (init_of c req)))
                 < timer_delay t ->
                 exists tm, tm ∈ timers r' /\ (exists n, callback tm = CbAbort n)
                            /\ now r' < due tm)
       end.
Proof.
  induction fuel as [| fuel IH]; intros attempt c r res c' r' Hfuel Hrun;
    rewrite loop_evaluateFlag_step in Hrun; case_bool_decide as Hcond;
    try (injection Hrun as <- <- <-; split_and!; try done; try lia; by left).
  destruct (try_evaluateFlag_run req t k c r)
    as (c1 & r1 & Htry & Hs1 & _ & Hsv1 & Hst1 & _).
  destruct (try_evaluateFlag_frame req t k c r)
    as (c1' & r1' & Htry' & Hnow1 & _ & Hfc1 & Hoff1 & Hev1 & Harm1 & Hfs1 & Hleak1).
  rewrite Htry in Htry'. injection Htry' as <- <-. rewrite Htry in Hrun.
  destruct (attempt_result _ _) as [v | e0] eqn:Har.
  - injection Hrun as <- <- <-. split_and!; try done; try lia.
    + intros tm Hin Hevict. destruct (Hev1 tm Hin Hevict) as [? | (_ & ? & ? & ?)];
        [by left | right]. split_and!; eauto.
    + by apply Hst1.
    + by apply (Harm1 v).
  - specialize (Hfs1 e0 eq_refl).
    assert (forall tm, tm ∈ timers r1 -> is_eviction tm -> tm ∈ timers r) as Hev1'.
    { intros tm Hin Hevict.
      destruct (Hev1 tm Hin Hevict) as [? | ([? ?] & _)]; done. }
    destruct (catch_evaluateFlag_run attempt e0 c1 r1)
      as (c2 & r2 & Hcatch & Hs2 & _ & Hsv2).
    destruct (catch_evaluateFlag_frame attempt e0 c1 r1)
      as (c2' & r2' & Hcatch' & Hnow2 & Hc2 & Ht2 & _ & Hfin).
    rewrite Hcatch in Hcatch'. injection Hcatch' as <- <-. rewrite Hcatch in Hrun.
    destruct (settings_inv _ _ Hs1) as (_ & Hu1 & Hi1 & Hf1 & Hp1).
    rewrite Hp1 in *.
    case_bool_decide as Hlast.
    + injection Hrun as <- <- <-. destruct (Hfin Hlast) as (-> & Hnow & Htm).
      split_and!; try lia.
      * done.
      * done.
      * intros tm Hin Hevict. left. apply Hev1'; [| done]. by rewrite <- Htm.
      * done.
      * rewrite Hsv2, Hsv1. simpl. rewrite Nat.sub_0_r.
        intros e1 Hrej Hlate. eexists. split; [rewrite Htm; by eapply Hleak1 |].
        simpl. split; [by eexists |]. lia.
    + destruct (settings_inv c c2 ltac:(congruence)) as (_ & Hu2 & Hi2 & Hf2 & Hp2).
      assert (cacheTTL c2 = cacheTTL c) as Httl
        by (assert (settings c2 = settings c) as Hs by congruence;
            by injection Hs as _ _ _ -> _ _ _ _).
      apply IH in Hrun as (Hnow & Hfc & Hoff & Hev & Hres); [| rewrite Hp2; lia].
      rewrite Httl in Hev.
      split_and!.
      * lia.
      * etrans; [exact Hfc |]. etrans; [apply (Hc2 FlagsCache) | exact Hfc1].
      * intros k' x Hne Hx. apply Hoff1; [done |].
        eapply lookup_weaken; [by eapply Hoff | apply (Hc2 FlagCache)].
      * intros tm Hin Hevict. destruct (Hev tm Hin Hevict) as [Hold | Hnew];
          [left; apply Hev1'; [by apply Ht2 | done] | by right].
      * destruct res as [[v |] | e].
        -- by rewrite Httl in Hres.
        -- rewrite Hp2 in Hres. lia.
        -- rewrite Hu2, Hi2, Hf2 in Hres. destruct Hres as [Hsub Hleak].
           split; [| done].
           etrans; [exact Hsub |]. etrans; [apply (Hc2 FlagCache) | exact Hfs1].
Qed.

End Frames.

(** ** The entry points, whatever the request and the transport *)

Section Calls.

Context `{!JSONStringify Request} `{!JSONStringify Json}.

Lemma evaluateFlags_cases req timeout c r :
  (exists e,
     validateRequest (mkProps req (Some true)) = Throw e
     /\ evaluateFlags req timeout (c, r)
        = (Throw e, (c, logged "Evaluating flags..." c r)))
  \/ (exists k v,
        valid (Some true) req /\ getCacheKey req = Return k
        /\ flagsCache c !! k = Some v
        /\ evaluateFlags req timeout (c, r)
           = (Return (Some v), (c, logged "Evaluating flags..." c r)))
  \/ (exists k,
        valid (Some true) req /\ getCacheKey req = Return k
        /\ flagsCache c !! k = None
        /\ evaluateFlags req timeout (c, r)
           = loop_evaluateFlags (Z.to_nat (retries (retryPolicy c))) req
               (effective_timeout timeout c) k 1
               (c, logged "Evaluating flags..." c r)).
Proof.
  destruct (validateRequest (mkProps req (Some true))) as [[] | e] eqn:Hv.
  - destruct (valid_inv _ _ Hv) as (env & u & uid & _ & _ & _ & _ & _ & Hk).
    destruct (flagsCache c !! (env +:+ ":" +:+ uid)) as [v |] eqn:Hc.
    + right; left. exists (env +:+ ":" +:+ uid), v.
      split_and!; try done. by eapply evaluateFlags_hit.
    + right; right. exists (env +:+ ":" +:+ uid).
      split_and!; try done. by apply evaluateFlags_miss.
  - left. exists e. split; [done |]. by apply evaluateFlags_invalid.
Qed.

Lemma evaluateFlag_cases req timeout c r :
  (exists e,
     validateRequest (mkProps req None) = Throw e
     /\ evaluateFlag req timeout (c, r)
        = (Throw e, (c, logged "Evaluating flag..." c r)))
  \/ (exists k v,
        valid None req /\ getCacheKey req = Return k
        /\ flagCache c !! k = Some v
        /\ evaluateFlag req timeout (c, r)
           = (Return (Some v), (c, logged "Evaluating flag..." c r)))
  \/ (exists k,
        valid None req /\ getCacheKey req = Return k
        /\ flagCache c !! k = None
        /\ evaluateFlag req timeout (c, r)
           = loop_evaluateFlag (Z.to_nat (retries (retryPolicy c))) req
               (effective_timeout timeout c) k 1
               (c, logged "Evaluating flag..." c r)).
Proof.
  destruct (validateRequest (mkProps req None)) as [[] | e] eqn:Hv.
  - destruct (valid_inv _ _ Hv) as (env & u & uid & _ & _ & _ & _ & _ & Hk).
    destruct (flagCache c !! (env +:+ ":" +:+ uid)) as [v |] eqn:Hc.
    + right; left. exists (env +:+ ":" +:+ uid), v.
      split_and!; try done. by eapply evaluateFlag_hit.
    + right; right. exists (env +:+ ":" +:+ uid).
      split_and!; try done. by apply evaluateFlag_miss.
  - left. exists e. split; [done |]. by apply evaluateFlag_invalid.
Qed.

Lemma calls_keep_settings req timeout c r :
  settings (fst (snd (evaluateFlags req timeout (c, r)))) = settings c
  /\ settings (fst (snd (evaluateFlag req timeout (c, r)))) = settings c.
Proof.
  assert (forall x, Z.to_nat (x - 1 + 1) <= Z.to_nat x)%nat as Hfuel by lia.
  split.
  - destruct (evaluateFlags_cases req timeout c r)
      as [(e & _ & ->) | [(k & v & _ & _ & _ & ->) | (k & _ & _ & _ & ->)]];
      try done.
    destruct (loop_evaluateFlags _ _ _ _ _ _) as [res [c' r']] eqn:Hrun.
    by destruct (loop_evaluateFlags_shape _ _ _ _ _ _ _ _ _ _ (Hfuel _) Hrun)
      as (n & _ & _ & _ & _ & Hs & _).
  - destruct (evaluateFlag_cases req timeout c r)
      as [(e & _ & ->) | [(k & v & _ & _ & _ & ->) | (k & _ & _ & _ & ->)]];
      try done.
    destruct (loop_evaluateFlag _ _ _ _ _ _) as [res [c' r']] eqn:Hrun.
    by destruct (loop_evaluateFlag_shape _ _ _ _ _ _ _ _ _ _ (Hfuel _) Hrun)
      as (n & _ & _ & _ & _ & Hs & _).
Qed.

(** The calls of the transport that one call of an entry point makes. *)
Lemma calls_network (req : Request) (timeout : option Z) (c : Client)
    (r : Runtime) :
  (exists n : nat,
     (n <= Z.to_nat (retries (retryPolicy c)))%nat
     /\ served (snd (snd (evaluateFlags req timeout (c, r)))) = (served r + n)%nat
     /\ network (trace (snd (snd (evaluateFlags req timeout (c, r)))))
        = network (trace r)
          ++ retry_schedule n (baseUrl c +:+ "/api/v1/evaluate/flags")
               (mkInit "POST" (getHeaders c) (JSON_stringify req) None)
               (delay (retryPolicy c))
     /\ settings (fst (snd (evaluateFlags req timeout (c, r)))) = settings c)
  /\ (exists n : nat,
        (n <= Z.to_nat (retries (retryPolicy c)))%nat
        /\ served (snd (snd (evaluateFlag req timeout (c, r)))) = (served r + n)%nat
        /\ network (trace (snd (snd (evaluateFlag req timeout (c, r)))))
           = network (trace r)
             ++ retry_schedule n (baseUrl c +:+ "/api/v1/evaluate/flag")
                  (mkInit "POST" (getHeaders c) (JSON_stringify req) None)
                  (delay (retryPolicy c))
        /\ settings (fst (snd (evaluateFlag req timeout (c, r)))) = settings c).
Proof.
  split.
  - destruct (evaluateFlags_cases req timeout c r)
      as [(e & _ & ->) | [(k & v & _ & _ & _ & ->) | (k & _ & _ & _ & ->)]];
      try (exists 0%nat; simpl;
           rewrite logged_served, logged_network, app_nil_r;
           split_and!; try done; lia).
    destruct (loop_evaluateFlags _ _ _ _ _ _) as [res [c' r']] eqn:Hrun.
    assert (Z.to_nat (retries (retryPolicy c) - 1 + 1)
            <= Z.to_nat (retries (retryPolicy c)))%nat as Hfuel by lia.
    destruct (loop_evaluateFlags_shape _ _ _ _ _ _ _ _ _ _ Hfuel Hrun)
      as (n & Hle & Hsv & Hn & _ & Hs & _).
    exists n. simpl. rewrite logged_served in Hsv. rewrite logged_network in Hn.
    split_and!; try done. lia.
  - destruct (evaluateFlag_cases req timeout c r)
      as [(e & _ & ->) | [(k & v & _ & _ & _ & ->) | (k & _ & _ & _ & ->)]];
      try (exists 0%nat; simpl;
           rewrite logged_served, logged_network, app_nil_r;
           split_and!; try done; lia).
    destruct (loop_evaluateFlag _ _ _ _ _ _) as [res [c' r']] eqn:Hrun.
    assert (Z.to_nat (retries (retryPolicy c) - 1 + 1)
            <= Z.to_nat (retries (retryPolicy c)))%nat as Hfuel by lia.
    destruct (loop_evaluateFlag_shape _ _ _ _ _ _ _ _ _ _ Hfuel Hrun)
      as (n & Hle & Hsv & Hn & _ & Hs & _).
    exists n. simpl. rewrite logged_served in Hsv. rewrite logged_network in Hn.
    split_and!; try done. lia.
Qed.


Lemma evaluateFlags_miss_shape req timeout c r k res c' r' :
  valid (Some true) req -> getCacheKey req = Return k ->
  flagsCache c !! k = None ->
  evaluateFlags req timeout (c, r) = (res, (c', r')) ->
  exists n : nat,
    (n <= Z.to_nat (retries (retryPolicy c)))%nat
    /\ served r' = (served r + n)%nat
    /\ (debug c = false ->
        trace r'
        = trace r
          ++ retry_schedule n (flags_url c) (init_of c req) (delay (retryPolicy c)))
    /\ (forall i, (S i < n)%nat -> exists e,
          attempt_result "Failed to evaluate flags"
            (fetch c (served r + i)%nat (flags_url c) (init_of c req)) = Throw e)
    /\ match res with
       | Return (Some v) =>
           (1 <= n)%nat
           /\ attempt_result "Failed to evaluate flags"
                (fetch c (served r + (n - 1))%nat (flags_url c) (init_of c req))
              = Return v
       | Return None => n = 0%nat /\ retries (retryPolicy c) < 1
       | Throw e =>
           n = Z.to_nat (retries (retryPolicy c))
           /\ 1 <= retries (retryPolicy c)
           /\ exists e0,
                attempt_result "Failed to evaluate flags"
                  (fetch c (served r + (n - 1))%nat (flags_url c) (init_of c req))
                = Throw e0
                /\ e = Error (message e0)
       end.
Proof.
  intros Hv Hk Hmiss Hrun. rewrite (evaluateFlags_miss _ _ _ _ k) in Hrun by done.
  assert (Z.to_nat (retries (retryPolicy c) - 1 + 1)
          <= Z.to_nat (retries (retryPolicy c)))%nat as Hfuel by lia.
  destruct (loop_evaluateFlags_shape _ _ _ _ _ _ _ _ _ _ Hfuel Hrun)
    as (n & Hle & Hsv & _ & Hq & _ & Hbefore & Hres).
  rewrite logged_served in *.
  exists n. split_and!; try done; try lia.
  - intros Hq0. rewrite (Hq Hq0). unfold logged. by rewrite Hq0.
  - destruct res as [[v |] | e]; [done | done |].
    destruct Hres as (Hfull & ? & ?). split_and!; [lia | lia | done].
Qed.

Lemma evaluateFlag_miss_shape req timeout c r k res c' r' :
  valid None req -> getCacheKey req = Return k ->
  flagCache c !! k = None ->
  evaluateFlag req timeout (c, r) = (res, (c', r')) ->
  exists n : nat,
    (n <= Z.to_nat (retries (retryPolicy c)))%nat
    /\ served r' = (served r + n)%nat
    /\ (debug c = false ->
        trace r'
        = trace r
          ++ retry_schedule n (flag_url c) (init_of c req) (delay (retryPolicy c)))
    /\ (forall i, (S i < n)%nat -> exists e,
          attempt_result "Failed to evaluate flag"
            (fetch c (served r + i)%nat (flag_url c) (init_of c req)) = Throw e)
    /\ match res with
       | Return (Some v) =>
           (1 <= n)%nat
           /\ attempt_result "Failed to evaluate flag"
                (fetch c (served r + (n - 1))%nat (flag_url c) (init_of c req))
              = Return v
       | Return None => n = 0%nat /\ retries (retryPolicy c) < 1
       | Throw e =>
           n = Z.to_nat (retries (retryPolicy c))
           /\ 1 <= retries (retryPolicy c)
           /\ exists e0,
                attempt_result "Failed to evaluate flag"
                  (fetch c (served r + (n - 1))%nat (flag_url c) (init_of c req))
                = Throw e0
                /\ e = e0
       end.
Proof.
  intros Hv Hk Hmiss Hrun. rewrite (evaluateFlag_miss _ _ _ _ k) in Hrun by done.
  assert (Z.to_nat (retries (retryPolicy c) - 1 + 1)
          <= Z.to_nat (retries (retryPolicy c)))%nat as Hfuel by lia.
  destruct (loop_evaluateFlag_shape _ _ _ _ _ _ _ _ _ _ Hfuel Hrun)
    as (n & Hle & Hsv & _ & Hq & _ & Hbefore & Hres).
  rewrite logged_served in *.
  exists n. split_and!; try done; try lia.
  - intros Hq0. rewrite (Hq Hq0). unfold logged. by rewrite Hq0.
  - destruct res as [[v |] | e]; [done | done |].
    destruct Hres as (Hfull & ? & ?). split_and!; [lia | lia | done].
Qed.

(** X2.  An error reaches the caller of a valid request only when every
    one of the [retries] attempts has failed: exactly [retries] calls of
    the transport were made, each ended in an error, and the error
    surfaced is that of the last one ([evaluateFlags] wraps its message in
    a new [Error]).  No earlier failure is ever surfaced. *)
Theorem rejection_means_every_attempt_failed (req : Request)
    (timeout : option Z) (c c' : Client) (r r' : Runtime) (e : JsError) :
  (valid (Some true) req ->
   evaluateFlags req timeout (c, r) = (Throw e, (c', r')) ->
   1 <= retries (retryPolicy c)
   /\ served r' = (served r + Z.to_nat (retries (retryPolicy c)))%nat
   /\ (forall i, (i < Z.to_nat (retries (retryPolicy c)))%nat -> exists e0,
         attempt_result "Failed to evaluate flags"
           (fetch c (served r + i)%nat (flags_url c) (init_of c req)) = Throw e0)
   /\ exists e0,
        attempt_result "Failed to evaluate flags"
          (fetch c (served r + (Z.to_nat (retries (retryPolicy c)) - 1))%nat
             (flags_url c) (init_of c req)) = Throw e0
        /\ e = Error (message e0))
  /\ (valid None req ->
      evaluateFlag req timeout (c, r) = (Throw e, (c', r')) ->
      1 <= retries (retryPolicy c)
      /\ served r' = (served r + Z.to_nat (retries (retryPolicy c)))%nat
      /\ (forall i, (i < Z.to_nat (retries (retryPolicy c)))%nat -> exists e0,
            attempt_result "Failed to evaluate flag"
              (fetch c (served r + i)%nat (flag_url c) (init_of c req)) = Throw e0)
      /\ attempt_result "Failed to evaluate flag"
           (fetch c (served r + (Z.to_nat (retries (retryPolicy c)) - 1))%nat
              (flag_url c) (init_of c req)) = Throw e).
Proof.
  split; intros Hv Hrun.
  - destruct (evaluateFlags_cases req timeout c r)
      as [(e1 & He1 & _) | [(k & v & _ & _ & _ & Hhit) | (k & _ & Hk & Hmiss & _)]];
      [by rewrite Hv in He1 | by rewrite Hhit in Hrun |].
    destruct (evaluateFlags_miss_shape _ _ _ _ _ _ _ _ Hv Hk Hmiss Hrun)
      as (n & _ & Hsv & _ & Hbefore & -> & Hpos & e0 & He0 & ->).
    split_and!; try done; [| by exists e0].
    intros i Hi.
    destruct (decide (S i < Z.to_nat (retries (retryPolicy c)))%nat);
      [by apply Hbefore |].
    exists e0. rewrite <- He0. do 3 f_equal. lia.
  - destruct (evaluateFlag_cases req timeout c r)
      as [(e1 & He1 & _) | [(k & v & _ & _ & _ & Hhit) | (k & _ & Hk & Hmiss & _)]];
      [by rewrite Hv in He1 | by rewrite Hhit in Hrun |].
    destruct (evaluateFlag_miss_shape _ _ _ _ _ _ _ _ Hv Hk Hmiss Hrun)
      as (n & _ & Hsv & _ & Hbefore & -> & Hpos & e0 & He0 & ->).
    split_and!; try done.
    intros i Hi.
    destruct (decide (S i < Z.to_nat (retries (retryPolicy c)))%nat);
      [by apply Hbefore |].
    exists e0. rewrite <- He0. do 3 f_equal. lia.
Qed.

(** X3.  A valid request resolves to [undefined] exactly when it misses the
    cache and [retries] is zero or negative.  With [retries] at least one a
    call never resolves to [undefined]: it returns a value or it rejects. *)
Theorem undefined_only_without_attempts (req : Request) (timeout : option Z)
    (c : Client) (r : Runtime) (k : string) :
  getCacheKey req = Return k ->
  (valid (Some true) req ->
   (fst (evaluateFlags req timeout (c, r)) = Return None
    <-> retries (retryPolicy c) <= 0 /\ flagsCache c !! k = None))
  /\ (valid None req ->
      (fst (evaluateFlag req timeout (c, r)) = Return None
       <-> retries (retryPolicy c) <= 0 /\ flagCache c !! k = None)).
Proof.
  intros Hk. split; intros Hv; split.
  - destruct (evaluateFlags req timeout (c, r)) as [res [c' r']] eqn:Hrun.
    simpl. intros ->.
    destruct (flagsCache c !! k) as [v |] eqn:Hc.
    + by rewrite (evaluateFlags_hit _ _ _ _ k v) in Hrun.
    + destruct (evaluateFlags_miss_shape _ _ _ _ _ _ _ _ Hv Hk Hc Hrun)
        as (n & _ & _ & _ & _ & _ & ?). split; [lia | done].
  - intros [Hle Hmiss]. rewrite (evaluateFlags_miss _ _ _ _ k) by done.
    rewrite loop_evaluateFlags_step. by rewrite bool_decide_eq_false_2 by lia.
  - destruct (evaluateFlag req timeout (c, r)) as [res [c' r']] eqn:Hrun.
    simpl. intros ->.
    destruct (flagCache c !! k) as [v |] eqn:Hc.
    + by rewrite (evaluateFlag_hit _ _ _ _ k v) in Hrun.
    + destruct (evaluateFlag_miss_shape _ _ _ _ _ _ _ _ Hv Hk Hc Hrun)
        as (n & _ & _ & _ & _ & _ & ?). split; [lia | done].
  - intros [Hle Hmiss]. rewrite (evaluateFlag_miss _ _ _ _ k) by done.
    rewrite loop_evaluateFlag_step. by rewrite bool_decide_eq_false_2 by lia.
Qed.


Lemma evaluateFlags_miss_frame req timeout c r k res c' r' :
  valid (Some true) req -> getCacheKey req = Return k ->
  flagsCache c !! k = None ->
  evaluateFlags req timeout (c, r) = (res, (c', r')) ->
  now r <= now r'
  /\ flagCache c' ⊆ flagCache c
  /\ (forall k' x, k' <> k ->
        flagsCache c' !! k' = Some x -> flagsCache c !! k' = Some x)
  /\ (forall tm, tm ∈ timers r' -> is_eviction tm ->
        tm ∈ timers r
        \/ ((exists v, res = Return (Some v))
            /\ 0 < cacheTTL c
            /\ callback tm = CbEvict FlagsCache k
            /\ due tm = now r' + timer_delay (cacheTTL c)))
  /\ match res with
     | Return (Some v) =>
         flagsCache c' !! k = Some v
         /\ (0 < cacheTTL c ->
             exists tm, tm ∈ timers r' /\ callback tm = CbEvict FlagsCache k
                        /\ due tm = now r' + timer_delay (cacheTTL c))
     | Return None => c' = c
     | Throw e =>
         flagsCache c' !! k = None
         /\ (forall e0,
               settled (fetch c (served r' - 1)%nat (flags_url c) (init_of c req))
               = Throw e0 ->
               Z.max 0 (latency (fetch c (served r' - 1)%nat (flags_url c)
                                   (init_of c req)))
               < timer_delay (effective_timeout timeout c) ->
               exists tm, tm ∈ timers r' /\ (exists n, callback tm = CbAbort n)
                          /\ now r' < due tm)
     end.
Proof.
  intros Hv Hk Hmiss Hrun. rewrite (evaluateFlags_miss _ _ _ _ k) in Hrun by done.
  assert (Z.to_nat (retries (retryPolicy c) - 1 + 1)
          <= Z.to_nat (retries (retryPolicy c)))%nat as Hfuel by lia.
  destruct (loop_evaluateFlags_frame _ _ _ _ _ _ _ _ _ _ Hfuel Hrun)
    as (Hnow & Hfc & Hoff & Hev & Hres).
  destruct (logged_frame "Evaluating flags..." c r) as (Hln & Hlt & _).
  rewrite Hln in Hnow. rewrite Hlt in Hev.
  split_and!; try done.
  destruct res as [[v |] | e]; [done | by destruct Hres as (_ & -> & _) |].
  destruct Hres as [Hsub Hleak]. split; [| done].
  destruct (flagsCache c' !! k) as [x |] eqn:Hx; [| done].
  eapply lookup_weaken in Hx; [| exact Hsub]. congruence.
Qed.

Lemma evaluateFlag_miss_frame req timeout c r k res c' r' :
  valid None req -> getCacheKey req = Return k ->
  flagCache c !! k = None ->
  evaluateFlag req timeout (c, r) = (res, (c', r')) ->
  now r <= now r'
  /\ flagsCache c' ⊆ flagsCache c
  /\ (forall k' x, k' <> k ->
        flagCache c' !! k' = Some x -> flagCache c !! k' = Some x)
  /\ (forall tm, tm ∈ timers r' -> is_eviction tm ->
        tm ∈ timers r
        \/ ((exists v, res = Return (Some v))
            /\ 0 < cacheTTL c
            /\ callback tm = CbEvict FlagCache k
            /\ due tm = now r' + timer_delay (cacheTTL c)))
  /\ match res with
     | Return (Some v) =>
         flagCache c' !! k = Some v
         /\ (0 < cacheTTL c ->
             exists tm, tm ∈ timers r' /\ callback tm = CbEvict FlagCache k
                        /\ due tm = now r' + timer_delay (cacheTTL c))
     | Return None => c' = c
     | Throw e =>
         flagCache c' !! k = None
         /\ (forall e0,
               settled (fetch c (served r' - 1)%nat (flag_url c) (init_of c req))
               = Throw e0 ->
               Z.max 0 (latency (fetch c (served r' - 1)%nat (flag_url c)
                                   (init_of c req)))
               < timer_delay (effective_timeout timeout c) ->
               exists tm, tm ∈ timers r' /\ (exists n, callback tm = CbAbort n)
                          /\ now r' < due tm)
     end.
Proof.
  intros Hv Hk Hmiss Hrun. rewrite (evaluateFlag_miss _ _ _ _ k) in Hrun by done.
  assert (Z.to_nat (retries (retryPolicy c) - 1 + 1)
          <= Z.to_nat (retries (retryPolicy c)))%nat as Hfuel by lia.
  destruct (loop_evaluateFlag_frame _ _ _ _ _ _ _ _ _ _ Hfuel Hrun)
    as (Hnow & Hfc & Hoff & Hev & Hres).
  destruct (logged_frame "Evaluating flag..." c r) as (Hln & Hlt & _).
  rewrite Hln in Hnow. rewrite Hlt in Hev.
  split_and!; try done.
  destruct res as [[v |] | e]; [done | by destruct Hres as (_ & -> & _) |].
  destruct Hres as [Hsub Hleak]. split; [| done].
  destruct (flagCache c' !! k) as [x |] eqn:Hx; [| done].
  eapply lookup_weaken in Hx; [| exact Hsub]. congruence.
Qed.

Lemma calls_spare_the_other_partition req timeout c r :
  flagCache (fst (snd (evaluateFlags req timeout (c, r)))) ⊆ flagCache c
  /\ flagsCache (fst (snd (evaluateFlag req timeout (c, r)))) ⊆ flagsCache c.
Proof.
  split.
  - destruct (evaluateFlags_cases req timeout c r)
      as [(e & _ & ->) | [(k & v & _ & _ & _ & ->) | (k & Hv & Hk & Hmiss & _)]];
      try done.
    destruct (evaluateFlags req timeout (c, r)) as [res [c' r']] eqn:Hrun.
    by destruct (evaluateFlags_miss_frame _ _ _ _ _ _ _ _ Hv Hk Hmiss Hrun)
      as (_ & Hfc & _).
  - destruct (evaluateFlag_cases req timeout c r)
      as [(e & _ & ->) | [(k & v & _ & _ & _ & ->) | (k & Hv & Hk & Hmiss & _)]];
      try done.
    destruct (evaluateFlag req timeout (c, r)) as [res [c' r']] eqn:Hrun.
    by destruct (evaluateFlag_miss_frame _ _ _ _ _ _ _ _ Hv Hk Hmiss Hrun)
      as (_ & Hfc & _).
Qed.

(** X5.  A call writes the cache in one place only.  [evaluateFlags] never
    adds or changes an entry of the single-flag partition, and in the
    multi-flag partition never one under a key other than the request's
    own; [evaluateFlag] likewise with the partitions exchanged.  (Entries
    may disappear while the call waits: evictions fall due.) *)
Theorem a_call_writes_only_its_own_key (req : Request) (timeout : option Z)
    (c : Client) (r : Runtime) :
  (flagCache (fst (snd (evaluateFlags req timeout (c, r)))) ⊆ flagCache c
   /\ forall k' x,
        getCacheKey req <> Return k' ->
        flagsCache (fst (snd (evaluateFlags req timeout (c, r)))) !! k' = Some x ->
        flagsCache c !! k' = Some x)
  /\ (flagsCache (fst (snd (evaluateFlag req timeout (c, r)))) ⊆ flagsCache c
      /\ forall k' x,
           getCacheKey req <> Return k' ->
           flagCache (fst (snd (evaluateFlag req timeout (c, r)))) !! k' = Some x ->
           flagCache c !! k' = Some x).
Proof.
  split.
  - destruct (evaluateFlags_cases req timeout c r)
      as [(e & _ & ->) | [(k & v & _ & _ & _ & ->) | (k & Hv & Hk & Hmiss & _)]];
      try done.
    destruct (evaluateFlags req timeout (c, r)) as [res [c' r']] eqn:Hrun.
    destruct (evaluateFlags_miss_frame _ _ _ _ _ _ _ _ Hv Hk Hmiss Hrun)
      as (_ & Hfc & Hoff & _).
    simpl. split; [done |]. intros k' x Hne. apply Hoff. congruence.
  - destruct (evaluateFlag_cases req timeout c r)
      as [(e & _ & ->) | [(k & v & _ & _ & _ & ->) | (k & Hv & Hk & Hmiss & _)]];
      try done.
    destruct (evaluateFlag req timeout (c, r)) as [res [c' r']] eqn:Hrun.
    destruct (evaluateFlag_miss_frame _ _ _ _ _ _ _ _ Hv Hk Hmiss Hrun)
      as (_ & Hfc & Hoff & _).
    simpl. split; [done |]. intros k' x Hne. apply Hoff. congruence.
Qed.

(** X6.  Expiry.  With a positive [cacheTTL], a value that a call has just
    fetched and stored is gone once [cacheTTL] milliseconds or more have
    passed, and the same request then goes to the transport again (with
    [retries] at least one). *)
Theorem cached_entry_expires_after_its_ttl (req : Request)
    (t1 t2 : option Z) (c c' : Client) (r r' : Runtime) (k : string)
    (v : Json) (ms : Z) :
  getCacheKey req = Return k -> 0 < cacheTTL c -> cacheTTL c <= ms ->
  1 <= retries (retryPolicy c) ->
  (valid (Some true) req -> flagsCache c !! k = None ->
   evaluateFlags req t1 (c, r) = (Return (Some v), (c', r')) ->
   flagsCache (fst (elapse ms (c', r'))) !! k = None
   /\ (1 <= attempts_made (evaluateFlags req t2) (elapse ms (c', r')))%nat)
  /\ (valid None req -> flagCache c !! k = None ->
      evaluateFlag req t1 (c, r) = (Return (Some v), (c', r')) ->
      flagCache (fst (elapse ms (c', r'))) !! k = None
      /\ (1 <= attempts_made (evaluateFlag req t2) (elapse ms (c', r')))%nat).
Proof.
  intros Hk Httl Hms Hret. split; intros Hv Hmiss Hrun.
  - destruct (evaluateFlags_miss_frame _ _ _ _ _ _ _ _ Hv Hk Hmiss Hrun)
      as (_ & _ & _ & _ & _ & Harm).
    destruct (Harm Httl) as (tm & Hin & Hcb & Hdue).
    pose proof (timer_delay_le (cacheTTL c) ltac:(lia)) as Hclamp.
    assert (settings c' = settings c) as Hs.
    { pose proof (proj1 (calls_keep_settings req t1 c r)) as Ha.
      by rewrite Hrun in Ha. }
    pose proof (elapse_evicts ms c' r' tm FlagsCache k Hin Hcb ltac:(lia)) as Hgone.
    destruct (elapse_frame ms c' r') as (Hs2 & _).
    destruct (elapse ms (c', r')) as [c2 r2]. simpl in *.
    split; [done |].
    destruct (settings_inv c c2 ltac:(congruence)) as (_ & _ & _ & _ & Hp).
    unfold attempts_made.
    destruct (evaluateFlags req t2 (c2, r2)) as [res [c3 r3]] eqn:Hrun2.
    destruct (evaluateFlags_miss_shape _ _ _ _ _ _ _ _ Hv Hk Hgone Hrun2)
      as (n & _ & Hsv & _ & _ & Hres).
    simpl. rewrite Hsv. rewrite Hp in Hres.
    destruct res as [[v' |] | e]; lia.
  - destruct (evaluateFlag_miss_frame _ _ _ _ _ _ _ _ Hv Hk Hmiss Hrun)
      as (_ & _ & _ & _ & _ & Harm).
    destruct (Harm Httl) as (tm & Hin & Hcb & Hdue).
    pose proof (timer_delay_le (cacheTTL c) ltac:(lia)) as Hclamp.
    assert (settings c' = settings c) as Hs.
    { pose proof (proj2 (calls_keep_settings req t1 c r)) as Ha.
      by rewrite Hrun in Ha. }
    pose proof (elapse_evicts ms c' r' tm FlagCache k Hin Hcb ltac:(lia)) as Hgone.
    destruct (elapse_frame ms c' r') as (Hs2 & _).
    destruct (elapse ms (c', r')) as [c2 r2]. simpl in *.
    split; [done |].
    destruct (settings_inv c c2 ltac:(congruence)) as (_ & _ & _ & _ & Hp).
    unfold attempts_made.
    destruct (evaluateFlag req t2 (c2, r2)) as [res [c3 r3]] eqn:Hrun2.
    destruct (evaluateFlag_miss_shape _ _ _ _ _ _ _ _ Hv Hk Hgone Hrun2)
      as (n & _ & Hsv & _ & _ & Hres).
    simpl. rewrite Hsv. rewrite Hp in Hres.
    destruct res as [[v' |] | e]; lia.
Qed.

(** X7.  Until then it stays.  When no older eviction of the request's key
    is pending, a value just fetched and stored is still served from the
    cache, with no call of the transport, after any lapse of time shorter
    than [cacheTTL], for a [cacheTTL] that the host's timers can hold (at
    most [TIMEOUT_MAX]); and after any lapse at all when [cacheTTL] is zero
    or negative. *)
Theorem cached_entry_is_kept_until_its_ttl (req : Request)
    (t1 t2 : option Z) (c c' : Client) (r r' : Runtime) (k : string)
    (v : Json) (ms : Z) :
  getCacheKey req = Return k ->
  cacheTTL c <= 0 \/ (ms < cacheTTL c /\ cacheTTL c <= TIMEOUT_MAX) ->
  (valid (Some true) req -> flagsCache c !! k = None ->
   (forall tm, tm ∈ timers r -> callback tm <> CbEvict FlagsCache k) ->
   evaluateFlags req t1 (c, r) = (Return (Some v), (c', r')) ->
   fst (evaluateFlags req t2 (elapse ms (c', r'))) = Return (Some v)
   /\ attempts_made (evaluateFlags req t2) (elapse ms (c', r')) = 0%nat)
  /\ (valid None req -> flagCache c !! k = None ->
      (forall tm, tm ∈ timers r -> callback tm <> CbEvict FlagCache k) ->
      evaluateFlag req t1 (c, r) = (Return (Some v), (c', r')) ->
      fst (evaluateFlag req t2 (elapse ms (c', r'))) = Return (Some v)
      /\ attempts_made (evaluateFlag req t2) (elapse ms (c', r')) = 0%nat).
Proof.
  intros Hk Hms. split; intros Hv Hmiss Hfree Hrun.
  - destruct (evaluateFlags_miss_frame _ _ _ _ _ _ _ _ Hv Hk Hmiss Hrun)
      as (_ & _ & _ & Hev & Hstored & _).
    assert (flagsCache (fst (elapse ms (c', r'))) !! k = Some v) as Hkept.
    { rewrite <- Hstored. apply (elapse_keeps ms c' r' FlagsCache k).
      intros tm Hin Hcb.
      destruct (Hev tm Hin ltac:(by eexists _, _)) as [Hold | (_ & ? & _ & Hdue)];
        [by apply Hfree in Hold |].
      rewrite timer_delay_in_range in Hdue by lia. lia. }
    destruct (elapse ms (c', r')) as [c2 r2]. simpl in *.
    unfold attempts_made.
    rewrite (evaluateFlags_hit _ _ _ _ k v) by done. simpl.
    rewrite logged_served. split; [done | lia].
  - destruct (evaluateFlag_miss_frame _ _ _ _ _ _ _ _ Hv Hk Hmiss Hrun)
      as (_ & _ & _ & Hev & Hstored & _).
    assert (flagCache (fst (elapse ms (c', r'))) !! k = Some v) as Hkept.
    { rewrite <- Hstored. apply (elapse_keeps ms c' r' FlagCache k).
      intros tm Hin Hcb.
      destruct (Hev tm Hin ltac:(by eexists _, _)) as [Hold | (_ & ? & _ & Hdue)];
        [by apply Hfree in Hold |].
      rewrite timer_delay_in_range in Hdue by lia. lia. }
    destruct (elapse ms (c', r')) as [c2 r2]. simpl in *.
    unfold attempts_made.
    rewrite (evaluateFlag_hit _ _ _ _ k v) by done. simpl.
    rewrite logged_served. split; [done | lia].
Qed.

(** X8.  The timeout timer outlives a rejected call.  [clearTimeout] runs
    only after the transport has answered: when the call ends in an error
    and its last attempt was a rejection of the transport that came sooner
    than the timeout, the timer of that attempt is still pending when the
    caller gets the error.  The timeout is one the host's timers can hold,
    at most [TIMEOUT_MAX]. *)
Theorem rejected_attempt_leaves_its_timer_pending (req : Request)
    (timeout : option Z) (c c' : Client) (r r' : Runtime) (k : string)
    (e e0 : JsError) :
  getCacheKey req = Return k ->
  (valid (Some true) req -> flagsCache c !! k = None ->
   evaluateFlags req timeout (c, r) = (Throw e, (c', r')) ->
   settled (fetch c (served r' - 1)%nat (flags_url c) (init_of c req)) = Throw e0 ->
   effective_timeout timeout c <= TIMEOUT_MAX ->
   Z.max 0 (latency (fetch c (served r' - 1)%nat (flags_url c) (init_of c req)))
   < effective_timeout timeout c ->
   exists tm, tm ∈ timers r' /\ (exists n, callback tm = CbAbort n)
              /\ now r' < due tm)
  /\ (valid None req -> flagCache c !! k = None ->
      evaluateFlag req timeout (c, r) = (Throw e, (c', r')) ->
      settled (fetch c (served r' - 1)%nat (flag_url c) (init_of c req)) = Throw e0 ->
      effective_timeout timeout c <= TIMEOUT_MAX ->
      Z.max 0 (latency (fetch c (served r' - 1)%nat (flag_url c) (init_of c req)))
      < effective_timeout timeout c ->
      exists tm, tm ∈ timers r' /\ (exists n, callback tm = CbAbort n)
                 /\ now r' < due tm).
Proof.
  intros Hk. split; intros Hv Hmiss Hrun Hrej Hmax Hsoon.
  - destruct (evaluateFlags_miss_frame _ _ _ _ _ _ _ _ Hv Hk Hmiss Hrun)
      as (_ & _ & _ & _ & _ & Hleak).
    eapply Hleak; [done |]. rewrite timer_delay_in_range; lia.
  - destruct (evaluateFlag_miss_frame _ _ _ _ _ _ _ _ Hv Hk Hmiss Hrun)
      as (_ & _ & _ & _ & _ & Hleak).
    eapply Hleak; [done |]. rewrite timer_delay_in_range; lia.
Qed.

(** X9.  The two partitions do not mix.  Whatever a call of
    [evaluateFlags] did, a single-flag call for a key the single-flag
    partition did not hold before is not served from the cache: with
    [retries] at least one it goes to the transport.  The same holds with
    the two entry points exchanged. *)
Theorem a_result_is_not_served_across_partitions (req1 req2 : Request)
    (t1 t2 : option Z) (c : Client) (r : Runtime) (k : string) :
  getCacheKey req2 = Return k -> 1 <= retries (retryPolicy c) ->
  (valid None req2 -> flagCache c !! k = None ->
   (1 <= attempts_made (evaluateFlag req2 t2)
           (snd (evaluateFlags req1 t1 (c, r))))%nat)
  /\ (valid (Some true) req2 -> flagsCache c !! k = None ->
      (1 <= attempts_made (evaluateFlags req2 t2)
              (snd (evaluateFlag req1 t1 (c, r))))%nat).
Proof.
  intros Hk Hret. split; intros Hv Hmiss.
  - destruct (calls_spare_the_other_partition req1 t1 c r) as [Hsub _].
    pose proof (proj1 (calls_keep_settings req1 t1 c r)) as Hs.
    destruct (evaluateFlags req1 t1 (c, r)) as [res1 [c1 r1]]. simpl in *.
    assert (flagCache c1 !! k = None) as Hmiss1.
    { destruct (flagCache c1 !! k) as [x |] eqn:Hx; [| done].
      eapply lookup_weaken in Hx; [| exact Hsub]. congruence. }
    destruct (settings_inv c c1 Hs) as (_ & _ & _ & _ & Hp).
    unfold attempts_made.
    destruct (evaluateFlag req2 t2 (c1, r1)) as [res [c2 r2]] eqn:Hrun.
    destruct (evaluateFlag_miss_shape _ _ _ _ _ _ _ _ Hv Hk Hmiss1 Hrun)
      as (n & _ & Hsv & _ & _ & Hres).
    simpl. rewrite Hsv. rewrite Hp in Hres.
    destruct res as [[v' |] | e]; lia.
  - destruct (calls_spare_the_other_partition req1 t1 c r) as [_ Hsub].
    pose proof (proj2 (calls_keep_settings req1 t1 c r)) as Hs.
    destruct (evaluateFlag req1 t1 (c, r)) as [res1 [c1 r1]]. simpl in *.
    assert (flagsCache c1 !! k = None) as Hmiss1.
    { destruct (flagsCache c1 !! k) as [x |] eqn:Hx; [| done].
      eapply lookup_weaken in Hx; [| exact Hsub]. congruence. }
    destruct (settings_inv c c1 Hs) as (_ & _ & _ & _ & Hp).
    unfold attempts_made.
    destruct (evaluateFlags req2 t2 (c1, r1)) as [res [c2 r2]] eqn:Hrun.
    destruct (evaluateFlags_miss_shape _ _ _ _ _ _ _ _ Hv Hk Hmiss1 Hrun)
      as (n & _ & Hsv & _ & _ & Hres).
    simpl. rewrite Hsv. rewrite Hp in Hres.
    destruct res as [[v' |] | e]; lia.
Qed.

(** X10.  With [debug] off a call logs nothing: the whole record of its
    effects grows by the calls of the transport and the waits between
    them, and by nothing else. *)
Theorem nothing_is_logged_with_debug_off (req : Request) (timeout : option Z)
    (c : Client) (r : Runtime) :
  debug c = false ->
  (exists n : nat,
     trace (snd (snd (evaluateFlags req timeout (c, r))))
     = trace r
       ++ retry_schedule n (flags_url c) (init_of c req) (delay (retryPolicy c)))
  /\ (exists n : nat,
        trace (snd (snd (evaluateFlag req timeout (c, r))))
        = trace r
          ++ retry_schedule n (flag_url c) (init_of c req) (delay (retryPolicy c))).
Proof.
  intros Hq.
  assert (forall msg, logged msg c r = r) as Hlog
    by (intros; unfold logged; by rewrite Hq).
  split.
  - destruct (evaluateFlags_cases req timeout c r)
      as [(e & _ & ->) | [(k & v & _ & _ & _ & ->) | (k & Hv & Hk & Hmiss & _)]];
      try (exists 0%nat; simpl; by rewrite Hlog, app_nil_r).
    destruct (evaluateFlags req timeout (c, r)) as [res [c' r']] eqn:Hrun.
    destruct (evaluateFlags_miss_shape _ _ _ _ _ _ _ _ Hv Hk Hmiss Hrun)
      as (n & _ & _ & Htr & _).
    exists n. by apply Htr.
  - destruct (evaluateFlag_cases req timeout c r)
      as [(e & _ & ->) | [(k & v & _ & _ & _ & ->) | (k & Hv & Hk & Hmiss & _)]];
      try (exists 0%nat; simpl; by rewrite Hlog, app_nil_r).
    destruct (evaluateFlag req timeout (c, r)) as [res [c' r']] eqn:Hrun.
    destruct (evaluateFlag_miss_shape _ _ _ _ _ _ _ _ Hv Hk Hmiss Hrun)
      as (n & _ & _ & Htr & _).
    exists n. by apply Htr.
Qed.

(** X11.  [clearCache] empties both partitions and cancels nothing: the
    sizes [getCacheSize] reports are zero, the pending timers are as they
    were, and every valid request, whatever was cached for it, goes to the
    transport again (with [retries] at least one). *)
Theorem clearCache_empties_both_partitions (c : Client) (r : Runtime) :
  exists c' r',
    clearCache (c, r) = (Return tt, (c', r'))
    /\ getCacheSize c' = mkCacheSize 0 0
    /\ settings c' = settings c
    /\ timers r' = timers r
    /\ (1 <= retries (retryPolicy c) ->
        forall req timeout,
          (valid (Some true) req ->
           (1 <= attempts_made (evaluateFlags req timeout) (c', r'))%nat)
          /\ (valid None req ->
              (1 <= attempts_made (evaluateFlag req timeout) (c', r'))%nat)).
Proof.
  set (c' := with_cache FlagsCache ∅ (with_cache FlagCache ∅ c)).
  set (r' := logged "Cache cleared." c' r).
  exists c', r'.
  split; [unfold clearCache, bind; simpl; by rewrite log_eq |].
  split_and!; try done.
  - unfold r', logged. by destruct (debug c').
  - intros Hret req timeout.
    split; intros Hv;
      destruct (valid_inv _ _ Hv) as (env & u & uid & _ & _ & _ & _ & _ & Hk);
      unfold attempts_made.
    + destruct (evaluateFlags req timeout (c', r')) as [res [c2 r2]] eqn:Hrun.
      assert (flagsCache c' !! (env +:+ ":" +:+ uid) = None) as Hmiss
        by apply lookup_empty.
      destruct (evaluateFlags_miss_shape _ _ _ _ _ _ _ _ Hv Hk Hmiss Hrun)
        as (n & _ & Hsv & _ & _ & Hres).
      cbn [snd]. rewrite Hsv. destruct res as [[v' |] | e]; simpl in Hres; lia.
    + destruct (evaluateFlag req timeout (c', r')) as [res [c2 r2]] eqn:Hrun.
      assert (flagCache c' !! (env +:+ ":" +:+ uid) = None) as Hmiss
        by apply lookup_empty.
      destruct (evaluateFlag_miss_shape _ _ _ _ _ _ _ _ Hv Hk Hmiss Hrun)
        as (n & _ & Hsv & _ & _ & Hres).
      cbn [snd]. rewrite Hsv. destruct res as [[v' |] | e]; simpl in Hres; lia.
Qed.

End Calls.

(** ** Configuration and the cache *)

Lemma assign_log_eq (f : Client -> Client) msg c r :
  (assign f ;;; log msg) (c, r) = (Return tt, (f c, logged msg (f c) r)).
Proof. unfold bind, assign. by rewrite log_eq. Qed.

Section Configuration.

Context `{!URLParser} `{!JSONStringify Request} `{!JSONStringify Json}.

(** X12.  No setter touches the caches or the pending timers.  A value
    cached before the API key, the base URL, the headers, the retry
    policy, the TTL, the timeout or the debug flag was changed is still
    served after the change, with no call of the transport: changing the
    key or the server does not invalidate what was fetched with the old
    ones. *)
Theorem cache_survives_reconfiguration (m : M unit) (k u : string)
    (hdrs : gmap string string) (n d ttl t : Z) (b : bool)
    (c : Client) (r : Runtime) :
  m ∈ [setApiKey k; setBaseUrl u; resetBaseUrl; setCustomHeaders hdrs;
       setRetryPolicy n d; setCacheTTL ttl; setDefaultTimeout t; setDebug b] ->
  flagCache (fst (snd (m (c, r)))) = flagCache c
  /\ flagsCache (fst (snd (m (c, r)))) = flagsCache c
  /\ timers (snd (snd (m (c, r)))) = timers r
  /\ served (snd (snd (m (c, r)))) = served r
  /\ forall req timeout key v,
       getCacheKey req = Return key ->
       (valid (Some true) req -> flagsCache c !! key = Some v ->
        fst (evaluateFlags req timeout (snd (m (c, r)))) = Return (Some v)
        /\ attempts_made (evaluateFlags req timeout) (snd (m (c, r))) = 0%nat)
       /\ (valid None req -> flagCache c !! key = Some v ->
           fst (evaluateFlag req timeout (snd (m (c, r)))) = Return (Some v)
           /\ attempts_made (evaluateFlag req timeout) (snd (m (c, r))) = 0%nat).
Proof.
  intros Hm.
  assert (flagCache (fst (snd (m (c, r)))) = flagCache c
          /\ flagsCache (fst (snd (m (c, r)))) = flagsCache c
          /\ timers (snd (snd (m (c, r)))) = timers r
          /\ served (snd (snd (m (c, r)))) = served r) as (Hfc & Hfs & Htm & Hsv).
  { repeat (apply elem_of_cons in Hm as [-> | Hm]);
      [| | | | | | | | by apply elem_of_nil in Hm];
      unfold setApiKey, setBaseUrl, resetBaseUrl, setCustomHeaders,
        setRetryPolicy, setCacheTTL, setDefaultTimeout, setDebug;
      repeat match goal with
             | |- context [if ?x then _ else _] => destruct x
             end;
      unfold throw; try done;
      try (rewrite assign_log_eq; simpl; unfold logged;
           match goal with |- context [if ?x then _ else _] => by destruct x end).
    - unfold bind; simpl. rewrite log_eq. simpl. unfold logged.
      match goal with |- context [if ?x then _ else _] => by destruct x end.
    - unfold bind, assign, read; simpl. rewrite log_eq. simpl. unfold logged.
      match goal with |- context [if ?x then _ else _] => by destruct x end.
    - unfold bind; simpl. rewrite log_eq. simpl. unfold logged.
      match goal with |- context [if ?x then _ else _] => by destruct x end. }
  split_and!; try done.
  intros req timeout key v Hk.
  destruct (m (c, r)) as [res [c' r']]. simpl in *. unfold attempts_made.
  split; intros Hv Hhit.
  - rewrite (evaluateFlags_hit _ _ _ _ key v) by congruence. simpl.
    rewrite logged_served. split; [done | lia].
  - rewrite (evaluateFlag_hit _ _ _ _ key v) by congruence. simpl.
    rewrite logged_served. split; [done | lia].
Qed.

End Configuration.

(** X13.  An overwritten entry dies with the older timer.  [setCache]
    arms a timer that deletes by key and never cancels one: when a key is
    written, and written again [a] milliseconds later, sooner than
    [cacheTTL], the second value is removed when the first timer falls
    due, after only [cacheTTL - a] milliseconds in the cache.  (With a
    [cacheTTL] beyond the timers' range either timer falls due after one
    millisecond, and the second value is gone all the same.) *)
Theorem overwritten_entry_expires_with_the_older_timer (p : Partition)
    (k : string) (v1 v2 : Json) (c : Client) (r : Runtime) (a b : Z) :
  0 <= a < cacheTTL c -> cacheTTL c <= a + b ->
  let st1 := snd (setCache p k v1 (c, r)) in
  let st2 := snd (setCache p k v2 (elapse a st1)) in
  cache p (fst st2) !! k = Some v2
  /\ cache p (fst (elapse b st2)) !! k = None.
Proof.
  intros Ha Hb st1 st2. subst st1 st2.
  rewrite setCache_eq. simpl. rewrite bool_decide_eq_true_2 by lia.
  set (c1 := with_cache p (<[k:=v1]> (cache p c)) c).
  set (r1 := armed p k (cacheTTL c) r).
  destruct (elapse_clock a c1 r1) as [Hnow Htm].
  destruct (elapse_frame a c1 r1) as (Hs & _).
  destruct (elapse a (c1, r1)) as [c2 r2]. simpl in Hnow, Htm, Hs.
  assert (cacheTTL c2 = cacheTTL c) as Httl.
  { assert (settings c2 = settings c) as Hs'
      by (rewrite Hs; apply with_cache_settings).
    by injection Hs' as _ _ _ -> _ _ _ _. }
  rewrite setCache_eq. simpl. rewrite Httl, bool_decide_eq_true_2 by lia.
  split; [rewrite cache_with_cache, decide_True by done; apply lookup_insert_eq |].
  pose proof (timer_delay_le (cacheTTL c) ltac:(lia)) as Hle.
  destruct (decide (a < timer_delay (cacheTTL c))) as [Hpending | Hfired].
  - eapply (elapse_evicts b _ _
              (mkTimer (fresh r) (now r + timer_delay (cacheTTL c)) (CbEvict p k)));
      [| done | simpl; lia].
    simpl. apply elem_of_app. left. rewrite Htm. apply list_elem_of_filter.
    split; [simpl; lia |]. simpl. apply elem_of_app. right.
    by apply list_elem_of_singleton.
  - assert (timer_delay (cacheTTL c) <= b) as Hshort
      by (unfold timer_delay in *; case_bool_decide; lia).
    eapply (elapse_evicts b _ _
              (mkTimer (fresh r2) (now r2 + timer_delay (cacheTTL c))
                 (CbEvict p k)));
      [| done | simpl; lia].
    simpl. apply elem_of_app. right. by apply list_elem_of_singleton.
Qed.

(** X14.  The headers of a request: a custom header wins over a default of
    the same name; where there is none, [x-api-key] is the current key and
    [Content-Type] is [application/json]; no other header is sent. *)
Theorem custom_headers_override_the_defaults (c : Client) (name : string) :
  getHeaders c !! name
  = match customHeaders c !! name with
    | Some value => Some value
    | None =>
        if decide (name = "x-api-key") then Some (key c)
        else if decide (name = "Content-Type") then Some "application/json"
        else None
    end.
Proof.
  unfold getHeaders. rewrite lookup_union.
  destruct (customHeaders c !! name) as [value |]; simpl.
  - by destruct (_ !! name).
  - rewrite !lookup_insert, lookup_empty.
    repeat case_decide; try done; congruence.
Qed.

(** X15.  The constructor checks the key and nothing else.  It throws
    exactly when the key is not thirty-two hexadecimal digits; otherwise
    it builds a client with empty caches, three attempts a second apart
    and no TTL, whose [getConfig] gives back the key, the base URL (the
    default one when none or an empty one was given, and any other string
    unchecked), the headers, the debug flag and the timeout (5000 when
    none or zero was given). *)
Theorem constructor_checks_only_the_key (config : Config.t)
    (customFetch : option Transport) (hostFetch : Transport) :
  (validateApiKey (Config.key config) = false ->
   constructor config customFetch hostFetch
   = Throw (Error "Invalid API key. The key must be a 32-character hexadecimal string."))
  /\ (validateApiKey (Config.key config) = true ->
      exists c,
        constructor config customFetch hostFetch = Return c
        /\ getConfig c
           = Config.mk (Config.key config)
               (Some (match Config.baseUrl config with
                      | None | Some "" => DEFAULT_BASE_URL
                      | Some u => u
                      end))
               (Some (default ∅ (Config.customHeaders config)))
               (Some (default false (Config.debug config)))
               (Some (match Config.defaultTimeout config with
                      | None | Some 0 => 5000
                      | Some t => t
                      end))
        /\ getCacheSize c = mkCacheSize 0 0
        /\ retryPolicy c = mkPolicy 3 1000
        /\ cacheTTL c = 0
        /\ fetch c = default hostFetch customFetch).
Proof.
  unfold constructor. split; intros Hkey; rewrite Hkey; simpl.
  - by rewrite orb_true_r.
  - rewrite orb_false_r. case_bool_decide as Hempty;
      [by rewrite Hempty in Hkey |].
    eexists. split; [reflexivity |]. unfold getConfig, getCacheSize. simpl.
    split_and!; try done. f_equal.
    + destruct (Config.baseUrl config) as [[| ? ?] |]; done.
    + destruct (Config.defaultTimeout config) as [[| ? | ?] |]; done.
Qed.

Section BaseUrl.

Context `{!URLParser}.

(** X16.  [setBaseUrl] takes effect only for a string that parses as a
    URL.  For any other it throws [Invalid base URL: ...] and leaves
    the client and the runtime exactly as they were, not even a log line
    is written; for one that parses, the two endpoints move under it.
    [resetBaseUrl] puts them back under the default whatever was set. *)
Theorem setBaseUrl_takes_effect_only_when_valid (u : string) (c : Client)
    (r : Runtime) :
  (validateBaseUrl u = false ->
   setBaseUrl u (c, r) = (Throw (Error ("Invalid base URL: " +:+ u)), (c, r)))
  /\ (validateBaseUrl u = true ->
      exists c' r',
        setBaseUrl u (c, r) = (Return tt, (c', r'))
        /\ Config.baseUrl (getConfig c') = Some u
        /\ flags_url c' = u +:+ "/api/v1/evaluate/flags"
        /\ flag_url c' = u +:+ "/api/v1/evaluate/flag"
        /\ getHeaders c' = getHeaders c /\ retryPolicy c' = retryPolicy c)
  /\ (exists c' r',
        resetBaseUrl (c, r) = (Return tt, (c', r'))
        /\ Config.baseUrl (getConfig c') = Some DEFAULT_BASE_URL
        /\ flags_url c' = "http://localhost:5173/api/v1/evaluate/flags"
        /\ flag_url c' = "http://localhost:5173/api/v1/evaluate/flag"
        /\ getHeaders c' = getHeaders c /\ retryPolicy c' = retryPolicy c).
Proof.
  split_and!.
  - intros Hbad. unfold setBaseUrl. by rewrite Hbad.
  - intros Hgood. unfold setBaseUrl. rewrite Hgood. simpl.
    rewrite assign_log_eq. by do 2 eexists.
  - unfold resetBaseUrl, bind, assign, read. simpl. rewrite log_eq.
    by do 2 eexists.
Qed.

End BaseUrl.

(** ** The cache key *)

Lemma append_cons ch (a b : string) : String ch a +:+ b = String ch (a +:+ b).
Proof. reflexivity. Qed.

Lemma append_nil_l (b : string) : "" +:+ b = b.
Proof. reflexivity. Qed.

Lemma append_assoc (a b c : string) : (a +:+ b) +:+ c = a +:+ b +:+ c.
Proof.
  induction a as [| ch a IH]; [done |]. rewrite !append_cons. by f_equal.
Qed.

Lemma append_length (a b : string) :
  String.length (a +:+ b) = (String.length a + String.length b)%nat.
Proof.
  induction a as [| ch a IH]; [done |]. rewrite append_cons. simpl. by f_equal.
Qed.

Lemma append_not_empty (a b : string) : b <> "" -> a +:+ b <> "".
Proof.
  intros Hb Heq. apply (f_equal String.length) in Heq.
  rewrite append_length in Heq. destruct b; [done |]. simpl in Heq. lia.
Qed.

Lemma append_longer (a b : string) : b <> "" -> a +:+ b <> a.
Proof.
  intros Hb Heq. apply (f_equal String.length) in Heq.
  rewrite append_length in Heq. destruct b; [done |]. simpl in Heq. lia.
Qed.

Lemma colon_free_tail ch s : colon_free (String ch s) -> colon_free s.
Proof. intros Hfree x y ->. by apply (Hfree (String ch x) y). Qed.

Lemma key_injective e1 :
  forall e2 i1 i2,
    colon_free e1 -> colon_free e2 ->
    e1 +:+ ":" +:+ i1 = e2 +:+ ":" +:+ i2 -> e1 = e2 /\ i1 = i2.
Proof.
  induction e1 as [| ch e1 IH]; intros [| ch2 e2] i1 i2 Hf1 Hf2;
    repeat first [rewrite append_nil_l | rewrite append_cons].
  - by intros [= ->].
  - intros [= <- ->]. by destruct (Hf2 "" e2).
  - intros [= -> <-]. by destruct (Hf1 "" e1).
  - intros [= -> Heq].
    destruct (IH e2 i1 i2) as [-> ->];
      [by eapply colon_free_tail | by eapply colon_free_tail | done | done].
Qed.

Section CacheKey.

Context `{!JSONStringify Request} `{!JSONStringify Json}.

Lemma evaluateFlags_returns req timeout c r v st' :
  evaluateFlags req timeout (c, r) = (Return (Some v), st') ->
  valid (Some true) req
  /\ exists k, getCacheKey req = Return k /\ flagsCache (fst st') !! k = Some v.
Proof.
  intros Hrun.
  destruct (evaluateFlags_cases req timeout c r)
    as [(e & _ & Hinv) | [(k & v' & Hv & Hk & Hc & Hhit) | (k & Hv & Hk & _ & Hmiss)]].
  - by rewrite Hinv in Hrun.
  - rewrite Hhit in Hrun. injection Hrun as <- <-. eauto.
  - rewrite Hmiss in Hrun. apply loop_evaluateFlags_stores in Hrun. eauto.
Qed.

(** X17.  The cache key runs environment and user id together with a
    colon and does not escape colons.  The environment [a:b] with user
    [c], and the environment [a] with user [b:c], are two valid requests
    about different environments and different users, and they share one
    key: once a call for the first has returned a value, a call for the
    second is answered with that value from the cache, the transport not
    being asked. *)
Theorem cache_key_runs_colons_together (a b c : string)
    (fl1 fl2 em1 em2 : option string) (t1 t2 : option Z) (st st1 : State)
    (v : Json) :
  a <> "" -> c <> "" ->
  let first := mkRequest fl1 (Some (a +:+ ":" +:+ b))
                 (Some (User.mk (Some c) em1)) in
  let second := mkRequest fl2 (Some a)
                  (Some (User.mk (Some (b +:+ ":" +:+ c)) em2)) in
  valid (Some true) first /\ valid (Some true) second
  /\ environment first <> environment second
  /\ user first ≫= User.id <> user second ≫= User.id
  /\ getCacheKey first = getCacheKey second
  /\ (evaluateFlags first t1 st = (Return (Some v), st1) ->
      fst (evaluateFlags second t2 st1) = Return (Some v)
      /\ attempts_made (evaluateFlags second t2) st1 = 0%nat).
Proof.
  intros Ha Hc first second.
  assert (getCacheKey first = getCacheKey second) as Hkey.
  { unfold getCacheKey, first, second, template.
    cbn [user environment User.id]. by rewrite append_assoc. }
  assert (valid (Some true) first) as Hv1.
  { eapply valid_intro; try done. by apply append_not_empty. }
  assert (valid (Some true) second) as Hv2.
  { eapply valid_intro; try done. by apply append_not_empty. }
  split_and!; try done.
  - unfold first, second. simpl. intros [= Heq]. by apply append_longer in Heq.
  - unfold first, second. simpl. intros [= Heq].
    apply (f_equal String.length) in Heq.
    rewrite !append_length in Heq. simpl in Heq. lia.
  - intros Hrun. destruct st as [c0 r0], st1 as [c1 r1].
    apply evaluateFlags_returns in Hrun as (_ & k & Hk & Hstored).
    rewrite Hkey in Hk. unfold attempts_made.
    rewrite (evaluateFlags_hit _ _ _ _ k v) by done. simpl.
    rewrite logged_served. split; [done | lia].
Qed.

End CacheKey.

(** X18.  Apart from that the key tells requests apart: two requests whose
    environments hold no colon have the same key only when they have the
    same environment and the same user id. *)
Theorem cache_key_is_injective_without_colons (req1 req2 : Request)
    (env1 env2 : string) (k : string) :
  environment req1 = Some env1 -> environment req2 = Some env2 ->
  colon_free env1 -> colon_free env2 ->
  valid (Some true) req1 -> valid (Some true) req2 ->
  getCacheKey req1 = Return k -> getCacheKey req2 = Return k ->
  env1 = env2 /\ user req1 ≫= User.id = user req2 ≫= User.id.
Proof.
  intros He1 He2 Hf1 Hf2 Hv1 Hv2 Hk1 Hk2.
  destruct (valid_inv _ _ Hv1) as (e1 & u1 & i1 & He1' & Hu1 & Hi1 & _ & _ & Hk1').
  destruct (valid_inv _ _ Hv2) as (e2 & u2 & i2 & He2' & Hu2 & Hi2 & _ & _ & Hk2').
  rewrite Hk1 in Hk1'. rewrite Hk2 in Hk2'.
  assert (e1 = env1) as -> by congruence.
  assert (e2 = env2) as -> by congruence.
  destruct (key_injective env1 env2 i1 i2) as [-> ->]; try done; [congruence |].
  rewrite Hu1, Hu2. simpl. by rewrite Hi1, Hi2.
Qed.

(** ** What the timeout can reach *)

Lemma filter_swap {A} (P Q : A -> Prop) `{!forall x, Decision (P x)}
    `{!forall x, Decision (Q x)} (l : list A) :
  filter P (filter Q l) = filter Q (filter P l).
Proof.
  induction l as [| x l IH]; [done |].
  rewrite !filter_cons.
  destruct (decide (Q x)), (decide (P x)); rewrite ?filter_cons;
    repeat case_decide; try done; by f_equal.
Qed.

Lemma visible_inv c1 r1 c2 r2 :
  visible (c1, r1) = visible (c2, r2) ->
  c1 = c2 /\ now r1 = now r2 /\ fresh r1 = fresh r2 /\ served r1 = served r2
  /\ trace r1 = trace r2
  /\ filter is_eviction (timers r1) = filter is_eviction (timers r2).
Proof. unfold visible; simpl. intros Hv. by injection Hv. Qed.

Lemma visible_intro c r1 r2 :
  now r1 = now r2 -> fresh r1 = fresh r2 -> served r1 = served r2 ->
  trace r1 = trace r2 ->
  filter is_eviction (timers r1) = filter is_eviction (timers r2) ->
  visible (c, r1) = visible (c, r2).
Proof. unfold visible; simpl. by intros -> -> -> -> ->. Qed.

Lemma visible_fire st1 st2 t :
  visible st1 = visible st2 -> visible (fire st1 t) = visible (fire st2 t).
Proof.
  destruct st1 as [c1 r1], st2 as [c2 r2]. intros Hv.
  destruct (visible_inv _ _ _ _ Hv) as (<- & ? & ? & ? & ? & ?).
  unfold fire. destruct (callback t); by apply visible_intro.
Qed.

Lemma visible_fire_abort st t n :
  callback t = CbAbort n -> visible (fire st t) = visible st.
Proof. destruct st as [c r]. unfold fire. by intros ->. Qed.

Lemma visible_foldl_fire l :
  forall st1 st2,
    visible st1 = visible st2 ->
    visible (foldl fire st1 l) = visible (foldl fire st2 l).
Proof.
  induction l as [| t l IH]; intros st1 st2 Hv; [done |].
  simpl. by apply IH, visible_fire.
Qed.

(** Only the evictions among the timers that run leave a visible mark. *)
Lemma visible_foldl_fire_evictions l :
  forall st,
    visible (foldl fire st l) = visible (foldl fire st (filter is_eviction l)).
Proof.
  induction l as [| t l IH]; intros st; [done |].
  rewrite filter_cons. destruct (decide (is_eviction t)) as [Hev | Hev]; simpl.
  - apply IH.
  - rewrite IH. apply visible_foldl_fire.
    destruct (callback t) as [n | p k] eqn:Hcb.
    + by apply (visible_fire_abort _ _ n).
    + destruct Hev. by exists p, k.
Qed.

Lemma visible_elapse ms st1 st2 :
  visible st1 = visible st2 -> visible (elapse ms st1) = visible (elapse ms st2).
Proof.
  destruct st1 as [c1 r1], st2 as [c2 r2]. intros Hv.
  destruct (visible_inv _ _ _ _ Hv) as (<- & Hn & Hf & Hs & Ht & He).
  unfold elapse. rewrite visible_foldl_fire_evictions.
  rewrite (visible_foldl_fire_evictions _ (c1, mkRuntime _ _ _ _ (served r2) _)).
  rewrite !(filter_swap is_eviction), He, Hn.
  apply visible_foldl_fire, visible_intro; simpl; try done.
  by rewrite !(filter_swap is_eviction), He.
Qed.

Lemma alike_ret {A} (a : A) : alike (ret a) (ret a).
Proof. by intros st1 st2 Hv. Qed.

Lemma alike_throw {A} (e : JsError) : alike (@throw A e) (throw e).
Proof. by intros st1 st2 Hv. Qed.

Lemma alike_lift {A} (x : Completion A) : alike (lift x) (lift x).
Proof. by intros st1 st2 Hv. Qed.

Lemma alike_read {A} (f : Client -> A) : alike (read f) (read f).
Proof.
  intros [c1 r1] [c2 r2] Hv.
  by destruct (visible_inv _ _ _ _ Hv) as (<- & _).
Qed.

Lemma alike_bind {A B} (m1 m2 : M A) (k1 k2 : A -> M B) :
  alike m1 m2 -> (forall a, alike (k1 a) (k2 a)) -> alike (bind m1 k1) (bind m2 k2).
Proof.
  intros Hm Hk st1 st2 Hv. destruct (Hm st1 st2 Hv) as [Hres Hv'].
  unfold bind. destruct (m1 st1) as [[a1 | e1] st1'], (m2 st2) as [[a2 | e2] st2'];
    simpl in *; try done; injection Hres as <-; [by apply Hk | by split].
Qed.

Lemma alike_try_catch {A} (m1 m2 : M A) (h1 h2 : JsError -> M A) :
  alike m1 m2 -> (forall e, alike (h1 e) (h2 e)) ->
  alike (try_catch m1 h1) (try_catch m2 h2).
Proof.
  intros Hm Hh st1 st2 Hv. destruct (Hm st1 st2 Hv) as [Hres Hv'].
  unfold try_catch.
  destruct (m1 st1) as [[a1 | e1] st1'], (m2 st2) as [[a2 | e2] st2'];
    simpl in *; try done.
  injection Hres as <-. by apply Hh.
Qed.

Lemma alike_log msg : alike (log msg) (log msg).
Proof.
  intros [c1 r1] [c2 r2] Hv.
  destruct (visible_inv _ _ _ _ Hv) as (<- & ? & ? & ? & Ht & ?).
  unfold log. destruct (debug c1); simpl; [| done].
  split; [done |]. apply visible_intro; simpl; try done. by rewrite Ht.
Qed.

Lemma alike_newAbortController : alike newAbortController newAbortController.
Proof.
  intros [c1 r1] [c2 r2] Hv.
  destruct (visible_inv _ _ _ _ Hv) as (<- & ? & Hf & ? & ? & ?). simpl.
  split; [by rewrite Hf |]. apply visible_intro; simpl; try done. by rewrite Hf.
Qed.

(** The delay of an abort timer is not visible. *)
Lemma alike_setTimeout_abort n ms1 ms2 :
  alike (setTimeout (CbAbort n) ms1) (setTimeout (CbAbort n) ms2).
Proof.
  intros [c1 r1] [c2 r2] Hv.
  destruct (visible_inv _ _ _ _ Hv) as (<- & ? & Hf & ? & ? & He). simpl.
  split; [by rewrite Hf |]. apply visible_intro; simpl; try done.
  - by rewrite Hf.
  - rewrite !filter_app, He. f_equal.
Qed.

Lemma alike_setTimeout cb ms : alike (setTimeout cb ms) (setTimeout cb ms).
Proof.
  intros [c1 r1] [c2 r2] Hv.
  destruct (visible_inv _ _ _ _ Hv) as (<- & Hn & Hf & ? & ? & He). simpl.
  split; [by rewrite Hf |]. apply visible_intro; simpl; try done.
  - by rewrite Hf.
  - by rewrite !filter_app, He, Hf, Hn.
Qed.

Lemma alike_clearTimeout timeoutId :
  alike (clearTimeout timeoutId) (clearTimeout timeoutId).
Proof.
  intros [c1 r1] [c2 r2] Hv.
  destruct (visible_inv _ _ _ _ Hv) as (<- & ? & ? & ? & ? & He). simpl.
  split; [done |]. apply visible_intro; simpl; try done.
  by rewrite !(filter_swap is_eviction), He.
Qed.

Lemma alike_await_fetch url init : alike (await_fetch url init) (await_fetch url init).
Proof.
  intros [c1 r1] [c2 r2] Hv.
  destruct (visible_inv _ _ _ _ Hv) as (<- & ? & ? & Hs & Ht & ?).
  unfold await_fetch. cbn [fst snd]. rewrite Hs. split; [done |].
  apply visible_elapse, visible_intro; simpl; try done. by rewrite Ht.
Qed.

Lemma alike_sleep ms : alike (sleep ms) (sleep ms).
Proof.
  intros [c1 r1] [c2 r2] Hv.
  destruct (visible_inv _ _ _ _ Hv) as (<- & ? & ? & ? & Ht & ?).
  unfold sleep. cbn [fst snd]. split; [done |].
  apply visible_elapse, visible_intro; simpl; try done. by rewrite Ht.
Qed.

Lemma alike_setCache p k v : alike (setCache p k v) (setCache p k v).
Proof.
  intros [c1 r1] [c2 r2] Hv.
  destruct (visible_inv _ _ _ _ Hv) as (<- & ? & ? & ? & ? & ?).
  unfold setCache. case_bool_decide.
  - apply (alike_bind _ _ _ _ (alike_setTimeout _ _) (fun _ => alike_ret tt)).
    by apply visible_intro.
  - split; [done |]. by apply visible_intro.
Qed.

Create HintDb alike.
#[local] Hint Resolve alike_ret alike_throw alike_lift alike_read alike_log
  alike_newAbortController alike_setTimeout_abort alike_clearTimeout
  alike_await_fetch alike_sleep alike_setCache : alike.

Ltac alike_step :=
  first [ apply alike_bind; [| intros ?] | apply alike_try_catch; [| intros ?]
        | case_bool_decide | progress auto with alike ].

Section Timeout.

Context `{!JSONStringify Request} `{!JSONStringify Json}.

Lemma alike_try_evaluateFlags req t1 t2 k :
  alike (try_evaluateFlags req t1 k) (try_evaluateFlags req t2 k).
Proof. unfold try_evaluateFlags. repeat alike_step. Qed.

Lemma alike_catch_evaluateFlags attempt e :
  alike (catch_evaluateFlags attempt e) (catch_evaluateFlags attempt e).
Proof. unfold catch_evaluateFlags. repeat alike_step. Qed.

Lemma alike_loop_evaluateFlags req t1 t2 k fuel :
  forall attempt,
    alike (loop_evaluateFlags fuel req t1 k attempt)
      (loop_evaluateFlags fuel req t2 k attempt).
Proof.
  induction fuel as [| fuel IH]; intros attempt; simpl;
    (apply alike_bind; [apply alike_read | intros policy]);
    (case_bool_decide; [| apply alike_ret]); [apply alike_ret |].
  apply alike_bind.
  - apply alike_try_catch.
    + apply alike_bind; [apply alike_try_evaluateFlags | intros; apply alike_ret].
    + intros e. apply alike_catch_evaluateFlags.
  - intros [v |]; [apply alike_ret | apply IH].
Qed.

Lemma alike_try_evaluateFlag req t1 t2 k :
  alike (try_evaluateFlag req t1 k) (try_evaluateFlag req t2 k).
Proof. unfold try_evaluateFlag. repeat alike_step. Qed.

Lemma alike_catch_evaluateFlag attempt e :
  alike (catch_evaluateFlag attempt e) (catch_evaluateFlag attempt e).
Proof. unfold catch_evaluateFlag. repeat alike_step. Qed.

Lemma alike_loop_evaluateFlag req t1 t2 k fuel :
  forall attempt,
    alike (loop_evaluateFlag fuel req t1 k attempt)
      (loop_evaluateFlag fuel req t2 k attempt).
Proof.
  induction fuel as [| fuel IH]; intros attempt; simpl;
    (apply alike_bind; [apply alike_read | intros policy]);
    (case_bool_decide; [| apply alike_ret]); [apply alike_ret |].
  apply alike_bind.
  - apply alike_try_catch.
    + apply alike_bind; [apply alike_try_evaluateFlag | intros; apply alike_ret].
    + intros e. apply alike_catch_evaluateFlag.
  - intros [v |]; [apply alike_ret | apply IH].
Qed.

Lemma alike_bind_ret {A B} (a1 a2 : A) (k1 k2 : A -> M B) :
  alike (k1 a1) (k2 a2) -> alike (bind (ret a1) k1) (bind (ret a2) k2).
Proof. intros Hk st1 st2 Hv. exact (Hk st1 st2 Hv). Qed.

Lemma evaluateFlags_timeout req timeout st :
  evaluateFlags req timeout st
  = evaluateFlags req (Some (effective_timeout timeout (fst st))) st.
Proof. destruct st as [c r]. by destruct timeout. Qed.

Lemma evaluateFlag_timeout req timeout st :
  evaluateFlag req timeout st
  = evaluateFlag req (Some (effective_timeout timeout (fst st))) st.
Proof. destruct st as [c r]. by destruct timeout. Qed.

Lemma alike_evaluateFlags req (t1 t2 : option Z) :
  alike (evaluateFlags req t1) (evaluateFlags req t2).
Proof.
  intros st1 st2 Hv.
  rewrite (evaluateFlags_timeout req t1), (evaluateFlags_timeout req t2).
  revert Hv. generalize (effective_timeout t1 (fst st1)) as ms1.
  generalize (effective_timeout t2 (fst st2)) as ms2. intros ms2 ms1.
  revert st1 st2. change (alike (evaluateFlags req (Some ms1))
                            (evaluateFlags req (Some ms2))).
  unfold evaluateFlags. apply alike_bind_ret.
  apply alike_bind; [apply alike_log | intros _].
  apply alike_bind; [apply alike_lift | intros _].
  apply alike_bind; [apply alike_lift | intros k].
  apply alike_bind; [apply alike_read | intros cached].
  destruct (cached !! k); [apply alike_ret |].
  apply alike_bind; [apply alike_read | intros policy].
  apply alike_loop_evaluateFlags.
Qed.

Lemma alike_evaluateFlag req (t1 t2 : option Z) :
  alike (evaluateFlag req t1) (evaluateFlag req t2).
Proof.
  intros st1 st2 Hv.
  rewrite (evaluateFlag_timeout req t1), (evaluateFlag_timeout req t2).
  revert Hv. generalize (effective_timeout t1 (fst st1)) as ms1.
  generalize (effective_timeout t2 (fst st2)) as ms2. intros ms2 ms1.
  revert st1 st2. change (alike (evaluateFlag req (Some ms1))
                            (evaluateFlag req (Some ms2))).
  unfold evaluateFlag. apply alike_bind_ret.
  apply alike_bind; [apply alike_log | intros _].
  apply alike_bind; [apply alike_lift | intros _].
  apply alike_bind; [apply alike_lift | intros k].
  apply alike_bind; [apply alike_read | intros cached].
  destruct (cached !! k); [apply alike_ret |].
  apply alike_bind; [apply alike_read | intros policy].
  apply alike_loop_evaluateFlag.
Qed.

(** X19.  The timeout reaches nothing.  Two calls that differ only in their
    timeout end the same way: the same value or the same error, the same
    client with the same cache entries, the same calls of the transport,
    the same log lines, at the same time on the clock and with the same
    evictions pending.  They may differ in the abort timers left pending
    and in the controllers aborted, which nothing reads: states that differ
    only there stay so while time passes and through further calls. *)
Theorem timeout_reaches_nothing_visible (req : Request) (t1 t2 : option Z)
    (st1 st2 : State) (ms : Z) :
  visible st1 = visible st2 ->
  (fst (evaluateFlags req t1 st1) = fst (evaluateFlags req t2 st2)
   /\ visible (snd (evaluateFlags req t1 st1))
      = visible (snd (evaluateFlags req t2 st2)))
  /\ (fst (evaluateFlag req t1 st1) = fst (evaluateFlag req t2 st2)
      /\ visible (snd (evaluateFlag req t1 st1))
         = visible (snd (evaluateFlag req t2 st2)))
  /\ visible (elapse ms st1) = visible (elapse ms st2).
Proof.
  intros Hv. split_and!.
  - by apply alike_evaluateFlags.
  - by apply alike_evaluateFlags.
  - by apply alike_evaluateFlag.
  - by apply alike_evaluateFlag.
  - by apply visible_elapse.
Qed.

End Timeout.

(** ** Setters and the next call *)




Section NextCall.

Context `{!URLParser} `{!JSONStringify Request} `{!JSONStringify Json}.



End NextCall.

(** X21.  [setDebug] stores the flag before it logs, so it announces only
    the switching on: [setDebug(true)] logs one line, whatever the flag
    was, and [setDebug(false)] logs nothing, not even when logging was on.
    The line [Debug logging disabled.] is never written. *)
Theorem setDebug_announces_only_the_switching_on (enabled : bool)
    (c : Client) (r : Runtime) :
  exists c' r',
    setDebug enabled (c, r) = (Return tt, (c', r'))
    /\ debug c' = enabled
    /\ trace r'
       = trace r
         ++ (if enabled
             then [EvLog "[FeatureFlagClient] Debug logging enabled."]
             else []).
Proof.
  unfold setDebug. rewrite assign_log_eq. eexists _, _. split; [done |].
  unfold logged. destruct enabled; simpl; [done |]. by rewrite app_nil_r.
Qed.

(** ** How long a call lasts *)

Section Clock.

Context `{!JSONStringify Request} `{!JSONStringify Json}.

Lemma catch_evaluateFlags_clock attempt e c r :
  now (snd (snd (catch_evaluateFlags attempt e (c, r))))
  = now r + (if bool_decide (attempt = retries (retryPolicy c))
             then 0 else timer_delay (delay (retryPolicy c))).
Proof.
  unfold catch_evaluateFlags, bind, read, throw, ret.
  rewrite log_eq. simpl.
  match goal with |- context [logged ?m c r] =>
    destruct (logged_frame m c r) as (Hln & _);
    set (r1 := logged m c r) in * end.
  case_bool_decide; simpl; [lia |].
  unfold sleep.
  destruct (elapse_clock (timer_delay (delay (retryPolicy c))) c
              (emit (EvDelay (delay (retryPolicy c))) r1)) as [Hnow _].
  rewrite timer_delay_max in Hnow.
  destruct (elapse _ _) as [c2 r2]. simpl in *. lia.
Qed.

Lemma loop_evaluateFlags_clock req t k fuel :
  forall attempt c r res c' r',
    (Z.to_nat (retries (retryPolicy c) - attempt + 1) <= fuel)%nat ->
    loop_evaluateFlags fuel req t k attempt (c, r) = (res, (c', r')) ->
    exists n : nat,
      served r' = (served r + n)%nat
      /\ (attempt <= retries (retryPolicy c) -> (1 <= n)%nat)
      /\ now r'
         = now r
           + time_in_flight (fetch c) (flags_url c) (init_of c req) (served r) n
           + Z.of_nat (n - 1) * timer_delay (delay (retryPolicy c)).
Proof.
  induction fuel as [| fuel IH]; intros attempt c r res c' r' Hfuel Hrun;
    rewrite loop_evaluateFlags_step in Hrun; case_bool_decide as Hcond;
    try (injection Hrun as <- <- <-; exists 0%nat; simpl;
         split_and!; try done; lia).
  destruct (try_evaluateFlags_run req t k c r)
    as (c1 & r1 & Htry & Hs1 & _ & Hsv1 & _).
  destruct (try_evaluateFlags_frame req t k c r)
    as (c1' & r1' & Htry' & Hnow1 & _).
  rewrite Htry in Htry'. injection Htry' as <- <-. rewrite Htry in Hrun.
  destruct (attempt_result _ _) as [v | e0] eqn:Har.
  - injection Hrun as <- <- <-. exists 1%nat. simpl. split_and!; try lia.
  - destruct (catch_evaluateFlags_run attempt e0 c1 r1)
      as (c2 & r2 & Hcatch & Hs2 & _ & Hsv2).
    pose proof (catch_evaluateFlags_clock attempt e0 c1 r1) as Hnow2.
    rewrite Hcatch in Hnow2, Hrun. simpl in Hnow2.
    destruct (settings_inv _ _ Hs1) as (_ & _ & _ & _ & Hp1).
    rewrite Hp1 in *.
    case_bool_decide as Hlast.
    + injection Hrun as <- <- <-. exists 1%nat. simpl. split_and!; try lia.
    + destruct (settings_inv c c2 ltac:(congruence)) as (Hu2 & _ & Hi2 & Hf2 & Hp2).
      apply IH in Hrun as (n & Hsv & Hpos & Hnow); [| rewrite Hp2; lia].
      rewrite Hu2, Hi2, Hf2, Hp2, Hsv2, Hsv1 in *.
      specialize (Hpos ltac:(lia)).
      exists (S n). split_and!; try lia.
      rewrite Hnow, Hnow2, Hnow1. cbn [time_in_flight].
      replace (Z.of_nat (S n - 1)) with (Z.of_nat (n - 1) + 1) by lia. lia.
Qed.

Lemma evaluateFlags_clock req timeout c r :
  exists n : nat,
    (n <= Z.to_nat (retries (retryPolicy c)))%nat
    /\ served (snd (snd (evaluateFlags req timeout (c, r)))) = (served r + n)%nat
    /\ now (snd (snd (evaluateFlags req timeout (c, r))))
       = now r
         + time_in_flight (fetch c) (flags_url c) (init_of c req) (served r) n
         + Z.of_nat (n - 1) * timer_delay (delay (retryPolicy c)).
Proof.
  destruct (calls_network req timeout c r) as [(n0 & Hle & Hsv0 & _) _].
  destruct (evaluateFlags_cases req timeout c r)
    as [(e & _ & Heq) | [(k & v & _ & _ & _ & Heq) | (k & _ & _ & _ & Heq)]];
    rewrite Heq in *;
    try (exists 0%nat; simpl;
         destruct (logged_frame "Evaluating flags..." c r) as (-> & _);
         rewrite logged_served; split_and!; lia).
  destruct (loop_evaluateFlags _ _ _ _ _ _) as [res [c' r']] eqn:Hrun.
  assert (Z.to_nat (retries (retryPolicy c) - 1 + 1)
          <= Z.to_nat (retries (retryPolicy c)))%nat as Hfuel by lia.
  destruct (loop_evaluateFlags_clock _ _ _ _ _ _ _ _ _ _ Hfuel Hrun)
    as (n & Hsv & _ & Hnow).
  destruct (logged_frame "Evaluating flags..." c r) as (Hln & _).
  rewrite logged_served in *. simpl in *.
  exists n. split_and!; [lia | done | by rewrite Hnow, Hln].
Qed.

Lemma catch_evaluateFlag_clock attempt e c r :
  now (snd (snd (catch_evaluateFlag attempt e (c, r))))
  = now r + (if bool_decide (attempt >= retries (retryPolicy c))
             then 0 else timer_delay (delay (retryPolicy c))).
Proof.
  unfold catch_evaluateFlag, bind, read, throw, ret.
  rewrite log_eq. simpl.
  match goal with |- context [logged ?m c r] =>
    destruct (logged_frame m c r) as (Hln & _);
    set (r1 := logged m c r) in * end.
  case_bool_decide; simpl; [lia |].
  unfold sleep.
  destruct (elapse_clock (timer_delay (delay (retryPolicy c))) c
              (emit (EvDelay (delay (retryPolicy c))) r1)) as [Hnow _].
  rewrite timer_delay_max in Hnow.
  destruct (elapse _ _) as [c2 r2]. simpl in *. lia.
Qed.

Lemma loop_evaluateFlag_clock req t k fuel :
  forall attempt c r res c' r',
    (Z.to_nat (retries (retryPolicy c) - attempt + 1) <= fuel)%nat ->
    loop_evaluateFlag fuel req t k attempt (c, r) = (res, (c', r')) ->
    exists n : nat,
      served r' = (served r + n)%nat
      /\ (attempt <= retries (retryPolicy c) -> (1 <= n)%nat)
      /\ now r'
         = now r
           + time_in_flight (fetch c) (flag_url c) (init_of c req) (served r) n
           + Z.of_nat (n - 1) * timer_delay (delay (retryPolicy c)).
Proof.
  induction fuel as [| fuel IH]; intros attempt c r res c' r' Hfuel Hrun;
    rewrite loop_evaluateFlag_step in Hrun; case_bool_decide as Hcond;
    try (injection Hrun as <- <- <-; exists 0%nat; simpl;
         split_and!; try done; lia).
  destruct (try_evaluateFlag_run req t k c r)
    as (c1 & r1 & Htry & Hs1 & _ & Hsv1 & _).
  destruct (try_evaluateFlag_frame req t k c r)
    as (c1' & r1' & Htry' & Hnow1 & _).
  rewrite Htry in Htry'. injection Htry' as <- <-. rewrite Htry in Hrun.
  destruct (attempt_result _ _) as [v | e0] eqn:Har.
  - injection Hrun as <- <- <-. exists 1%nat. simpl. split_and!; try lia.
  - destruct (catch_evaluateFlag_run attempt e0 c1 r1)
      as (c2 & r2 & Hcatch & Hs2 & _ & Hsv2).
    pose proof (catch_evaluateFlag_clock attempt e0 c1 r1) as Hnow2.
    rewrite Hcatch in Hnow2, Hrun. simpl in Hnow2.
    destruct (settings_inv _ _ Hs1) as (_ & _ & _ & _ & Hp1).
    rewrite Hp1 in *.
    case_bool_decide as Hlast.
    + injection Hrun as <- <- <-. exists 1%nat. simpl. split_and!; try lia.
    + destruct (settings_inv c c2 ltac:(congruence)) as (_ & Hu2 & Hi2 & Hf2 & Hp2).
      apply IH in Hrun as (n & Hsv & Hpos & Hnow); [| rewrite Hp2; lia].
      rewrite Hu2, Hi2, Hf2, Hp2, Hsv2, Hsv1 in *.
      specialize (Hpos ltac:(lia)).
      exists (S n). split_and!; try lia.
      rewrite Hnow, Hnow2, Hnow1. cbn [time_in_flight].
      replace (Z.of_nat (S n - 1)) with (Z.of_nat (n - 1) + 1) by lia. lia.
Qed.

Lemma evaluateFlag_clock req timeout c r :
  exists n : nat,
    (n <= Z.to_nat (retries (retryPolicy c)))%nat
    /\ served (snd (snd (evaluateFlag req timeout (c, r)))) = (served r + n)%nat
    /\ now (snd (snd (evaluateFlag req timeout (c, r))))
       = now r
         + time_in_flight (fetch c) (flag_url c) (init_of c req) (served r) n
         + Z.of_nat (n - 1) * timer_delay (delay (retryPolicy c)).
Proof.
  destruct (calls_network req timeout c r) as [_ (n0 & Hle & Hsv0 & _)].
  destruct (evaluateFlag_cases req timeout c r)
    as [(e & _ & Heq) | [(k & v & _ & _ & _ & Heq) | (k & _ & _ & _ & Heq)]];
    rewrite Heq in *;
    try (exists 0%nat; simpl;
         destruct (logged_frame "Evaluating flag..." c r) as (-> & _);
         rewrite logged_served; split_and!; lia).
  destruct (loop_evaluateFlag _ _ _ _ _ _) as [res [c' r']] eqn:Hrun.
  assert (Z.to_nat (retries (retryPolicy c) - 1 + 1)
          <= Z.to_nat (retries (retryPolicy c)))%nat as Hfuel by lia.
  destruct (loop_evaluateFlag_clock _ _ _ _ _ _ _ _ _ _ Hfuel Hrun)
    as (n & Hsv & _ & Hnow).
  destruct (logged_frame "Evaluating flag..." c r) as (Hln & _).
  rewrite logged_served in *. simpl in *.
  exists n. split_and!; [lia | done | by rewrite Hnow, Hln].
Qed.

(** X22.  A call lasts as long as its attempts and the waits between them,
    and no timeout cuts it short: when it has made [n] calls of the
    transport, the clock has moved by the time those calls were in flight
    plus [n - 1] waits, whatever timeout was given.  A wait lasts what the
    host's timer makes of the delay of the retry policy: the delay itself
    from 1 to [TIMEOUT_MAX] milliseconds, one millisecond for any other.
    A cache hit, a refused request and a call with no attempt take no
    time. *)
Theorem a_call_lasts_as_long_as_its_attempts (req : Request)
    (timeout : option Z) (c : Client) (r : Runtime) :
  (exists n : nat,
     (n <= Z.to_nat (retries (retryPolicy c)))%nat
     /\ served (snd (snd (evaluateFlags req timeout (c, r)))) = (served r + n)%nat
     /\ now (snd (snd (evaluateFlags req timeout (c, r))))
        = now r
          + time_in_flight (fetch c) (flags_url c) (init_of c req) (served r) n
          + Z.of_nat (n - 1) * timer_delay (delay (retryPolicy c)))
  /\ (exists n : nat,
        (n <= Z.to_nat (retries (retryPolicy c)))%nat
        /\ served (snd (snd (evaluateFlag req timeout (c, r)))) = (served r + n)%nat
        /\ now (snd (snd (evaluateFlag req timeout (c, r))))
           = now r
             + time_in_flight (fetch c) (flag_url c) (init_of c req) (served r) n
             + Z.of_nat (n - 1) * timer_delay (delay (retryPolicy c))).
Proof. split; [apply evaluateFlags_clock | apply evaluateFlag_clock]. Qed.

(** C4, within the range of the host's timers.  With [retries = N],
    [N >= 1], and a transport that fails on every call (it rejects, or
    answers with a status that is not a success), a valid request that
    misses the cache makes exactly [N] calls of the transport, waits
    between two consecutive calls and not after the last, and then rejects
    with the error of the [N]th attempt: [evaluateFlag] with that error
    itself, [evaluateFlags] with a new [Error] carrying its message.  Each
    wait lasts what the host's timer makes of [delay]: when the call ends
    the clock has moved by the time the [N] calls were in flight and by
    [N - 1] such waits.  The wait is [delay] itself when [delay] is within
    the timers' range, from 1 to [TIMEOUT_MAX]. *)
Theorem retries_exhausted_after_N_attempts (req : Request)
    (timeout : option Z) (c : Client) (r : Runtime) (N : Z) (k : string) :
  retries (retryPolicy c) = N -> 1 <= N ->
  (forall i url init, transport_fails (fetch c i url init) = true) ->
  getCacheKey req = Return k ->
  (valid (Some true) req -> flagsCache c !! k = None ->
     exists e c' r',
       evaluateFlags req timeout (c, r) = (Throw (Error (message e)), (c', r'))
       /\ attempt_result "Failed to evaluate flags"
            (fetch c (served r + (Z.to_nat N - 1))%nat (flags_url c)
               (init_of c req)) = Throw e
       /\ served r' = (served r + Z.to_nat N)%nat
       /\ network (trace r')
          = network (trace r)
            ++ retry_schedule (Z.to_nat N) (flags_url c) (init_of c req)
                 (delay (retryPolicy c))
       /\ now r'
          = now r
            + time_in_flight (fetch c) (flags_url c) (init_of c req)
                (served r) (Z.to_nat N)
            + (N - 1) * timer_delay (delay (retryPolicy c)))
  /\ (valid None req -> flagCache c !! k = None ->
        exists e c' r',
          evaluateFlag req timeout (c, r) = (Throw e, (c', r'))
          /\ attempt_result "Failed to evaluate flag"
               (fetch c (served r + (Z.to_nat N - 1))%nat (flag_url c)
                  (init_of c req)) = Throw e
          /\ served r' = (served r + Z.to_nat N)%nat
          /\ network (trace r')
             = network (trace r)
               ++ retry_schedule (Z.to_nat N) (flag_url c) (init_of c req)
                    (delay (retryPolicy c))
          /\ now r'
             = now r
               + time_in_flight (fetch c) (flag_url c) (init_of c req)
                   (served r) (Z.to_nat N)
               + (N - 1) * timer_delay (delay (retryPolicy c)))
  /\ (1 <= delay (retryPolicy c) <= TIMEOUT_MAX ->
      timer_delay (delay (retryPolicy c)) = delay (retryPolicy c)).
Proof.
  intros HN Hpos Hfail Hk.
  destruct (exhausted_calls req timeout c r N k HN Hpos Hfail Hk)
    as [Hflags Hflag].
  assert (forall n : nat, n = Z.to_nat N -> Z.of_nat (n - 1) = N - 1) as Hwaits
    by lia.
  split_and!; [| | apply timer_delay_in_range].
  - intros Hv Hmiss.
    destruct (Hflags Hv Hmiss) as (e & c' & r' & Hrun & He & Hsv & Hn).
    destruct (evaluateFlags_clock req timeout c r) as (n & _ & Hsv' & Hnow).
    rewrite Hrun in Hsv', Hnow. simpl in Hsv', Hnow.
    assert (n = Z.to_nat N) as -> by lia.
    rewrite Hwaits in Hnow by done. by exists e, c', r'.
  - intros Hv Hmiss.
    destruct (Hflag Hv Hmiss) as (e & c' & r' & Hrun & He & Hsv & Hn).
    destruct (evaluateFlag_clock req timeout c r) as (n & _ & Hsv' & Hnow).
    rewrite Hrun in Hsv', Hnow. simpl in Hsv', Hnow.
    assert (n = Z.to_nat N) as -> by lia.
    rewrite Hwaits in Hnow by done. by exists e, c', r'.
Qed.

End Clock.

Lemma retries_exhausted_after_N_attempts_witness :
  exists e c' r',
    @evaluateFlags Sample.stringify_request Sample.stringify_json
      Sample.request None (Sample.client Sample.failing, Sample.boot)
    = (Throw (Error (message e)), (c', r'))
    /\ message e = "Failed to evaluate flags: Custom error message"
    /\ served r' = 3%nat
    /\ now r' = 2030.
Proof.
  destruct (@retries_exhausted_after_N_attempts Sample.stringify_request
              Sample.stringify_json Sample.request None
              (Sample.client Sample.failing) Sample.boot 3 "production:user1"
              eq_refl ltac:(lia) (fun _ _ _ => eq_refl) eq_refl)
    as (Hflags & _ & _).
  destruct (Hflags eq_refl eq_refl)
    as (e & c' & r' & Hrun & He & Hsv & _ & Hnow).
  exists e, c', r'. split; [exact Hrun |].
  split; [vm_compute in He; injection He as <-; reflexivity |].
  split; [exact Hsv | exact Hnow].
Defined.

(** C4 as the specification states it fails beyond the timers' range.  The
    retry policy asks for a delay of 2^31 milliseconds between the two
    attempts; the host's timer takes that delay as one millisecond.  Both
    attempts are made, each ten milliseconds in flight, and the call has
    ended after twenty-one milliseconds: the configured delay was not
    waited. *)
Lemma delay_beyond_the_timers_is_not_waited :
  let c := with_retryPolicy (mkPolicy 2 2147483648)
             (Sample.client Sample.failing) in
  let r' := snd (snd (@evaluateFlags Sample.stringify_request
                        Sample.stringify_json Sample.request None
                        (c, Sample.boot))) in
  served r' = 2%nat
  /\ network (trace r')
     = [EvFetch (flags_url c) (@init_of Sample.stringify_request c Sample.request);
        EvDelay 2147483648;
        EvFetch (flags_url c) (@init_of Sample.stringify_request c Sample.request)]
  /\ now r' = now Sample.boot + 21
  /\ now r' < now Sample.boot + delay (retryPolicy c).
Proof. vm_compute. done. Qed.

(** ** What a call logs *)

Lemma log_lines_app tr1 tr2 : log_lines (tr1 ++ tr2) = log_lines tr1 ++ log_lines tr2.
Proof. apply omap_app. Qed.

Lemma log_lines_logged msg c r :
  log_lines (trace (logged msg c r))
  = log_lines (trace r)
    ++ (if debug c then ["[FeatureFlagClient] " +:+ msg] else []).
Proof.
  unfold logged. destruct (debug c); simpl; [| by rewrite app_nil_r].
  by rewrite log_lines_app.
Qed.

Section Logging.

Context `{!JSONStringify Request} `{!JSONStringify Json}.

Lemma try_evaluateFlags_log req t k c r :
  log_lines (trace (snd (snd (try_evaluateFlags req t k (c, r)))))
  = log_lines (trace r)
    ++ match attempt_result "Failed to evaluate flags"
               (fetch c (served r) (flags_url c) (init_of c req)) with
       | Return v =>
           if debug c
           then ["[FeatureFlagClient] Flags evaluated: " +:+ JSON_stringify v]
           else []
       | Throw _ => []
       end.
Proof.
  unfold try_evaluateFlags, bind, read, newAbortController, setTimeout,
    await_fetch, clearTimeout, lift, attempt_result. simpl.
  fold (flags_url c) (init_of c req).
  match goal with |- context [elapse ?ms (c, ?r0)] =>
    destruct (elapse_frame ms c r0) as (Hs & Htr & _);
    destruct (elapse ms (c, r0)) as [c1 r1]
  end.
  simpl in *.
  assert (debug c1 = debug c) as Hdbg by (by injection Hs as _ -> _ _ _ _ _ _).
  assert (log_lines (trace r1) = log_lines (trace r)) as Hlines
    by (by rewrite Htr, log_lines_app; simpl; rewrite app_nil_r).
  destruct (settled _) as [response | e]; simpl; [| by rewrite app_nil_r].
  destruct (handleErrorResponse response "Failed to evaluate flags")
    as [v | e] eqn:Hh; simpl; [| by rewrite app_nil_r].
  rewrite log_eq, setCache_eq. simpl.
  assert (forall r0 : Runtime,
            trace (if bool_decide (cacheTTL c1 > 0)
                   then armed FlagsCache k (cacheTTL c1) r0 else r0) = trace r0)
    as -> by (intros r0; by case_bool_decide).
  by rewrite log_lines_logged, Hdbg, <- Hlines.
Qed.

Lemma catch_evaluateFlags_log attempt e c r :
  log_lines (trace (snd (snd (catch_evaluateFlags attempt e (c, r)))))
  = log_lines (trace r)
    ++ (if debug c
        then ["[FeatureFlagClient] Attempt " +:+ pretty attempt +:+ " failed."]
        else []).
Proof.
  unfold catch_evaluateFlags, bind, read, throw, ret.
  rewrite log_eq. simpl.
  case_bool_decide; simpl; [by rewrite log_lines_logged |].
  unfold sleep.
  match goal with |- context [elapse ?ms (c, ?r0)] =>
    destruct (elapse_frame ms c r0) as (_ & Htr & _);
    destruct (elapse ms (c, r0)) as [c2 r2]
  end.
  simpl in *. rewrite Htr. simpl. rewrite log_lines_app. simpl.
  by rewrite app_nil_r, log_lines_logged.
Qed.

Lemma loop_evaluateFlags_log req t k fuel :
  forall attempt c r res c' r',
    (Z.to_nat (retries (retryPolicy c) - attempt + 1) <= fuel)%nat ->
    debug c = true ->
    loop_evaluateFlags fuel req t k attempt (c, r) = (res, (c', r')) ->
    exists n : nat,
      served r' = (served r + n)%nat
      /\ (attempt <= retries (retryPolicy c) -> (1 <= n)%nat)
      /\ log_lines (trace r')
         = log_lines (trace r)
           ++ match res, n with
              | Return (Some v), S failed =>
                  failure_lines attempt failed
                  ++ ["[FeatureFlagClient] Flags evaluated: " +:+ JSON_stringify v]
              | _, _ => failure_lines attempt n
              end.
Proof.
  induction fuel as [| fuel IH]; intros attempt c r res c' r' Hfuel Hdbg Hrun;
    rewrite loop_evaluateFlags_step in Hrun; case_bool_decide as Hcond;
    try (injection Hrun as <- <- <-; exists 0%nat; simpl;
         rewrite app_nil_r; split_and!; try done; lia).
  destruct (try_evaluateFlags_run req t k c r)
    as (c1 & r1 & Htry & Hs1 & _ & Hsv1 & _).
  pose proof (try_evaluateFlags_log req t k c r) as Hlog1.
  rewrite Htry in Hlog1, Hrun. simpl in Hlog1. rewrite Hdbg in Hlog1.
  destruct (attempt_result _ _) as [v | e0] eqn:Har.
  - injection Hrun as <- <- <-. exists 1%nat. simpl. split_and!; try lia. done.
  - destruct (catch_evaluateFlags_run attempt e0 c1 r1)
      as (c2 & r2 & Hcatch & Hs2 & _ & Hsv2).
    pose proof (catch_evaluateFlags_log attempt e0 c1 r1) as Hlog2.
    rewrite Hcatch in Hlog2, Hrun. simpl in Hlog2.
    destruct (settings_inv _ _ Hs1) as (_ & _ & _ & _ & Hp1).
    assert (debug c1 = true) as Hd1
      by (rewrite <- Hdbg; by injection Hs1 as _ -> _ _ _ _ _ _).
    rewrite Hd1, Hlog1, app_nil_r in Hlog2.
    rewrite Hp1 in *.
    case_bool_decide as Hlast.
    + injection Hrun as <- <- <-. exists 1%nat. simpl. split_and!; try lia. done.
    + destruct (settings_inv c c2 ltac:(congruence)) as (_ & _ & _ & _ & Hp2).
      assert (debug c2 = true) as Hd2.
      { assert (settings c2 = settings c) as Hs by congruence.
        rewrite <- Hdbg. by injection Hs as _ -> _ _ _ _ _ _. }
      apply IH in Hrun as (n & Hsv & Hpos & Hlog); [| rewrite Hp2; lia | done].
      rewrite Hp2 in Hpos. specialize (Hpos ltac:(lia)).
      exists (S n). split_and!; try lia.
      rewrite Hlog, Hlog2, <- app_assoc. f_equal.
      destruct n as [| m]; [lia |].
      destruct res as [[v |] | e]; done.
Qed.

Lemma evaluateFlags_log req timeout c r :
  debug c = true ->
  exists n : nat,
    served (snd (snd (evaluateFlags req timeout (c, r)))) = (served r + n)%nat
    /\ log_lines (trace (snd (snd (evaluateFlags req timeout (c, r)))))
       = log_lines (trace r)
         ++ "[FeatureFlagClient] Evaluating flags..."
            :: match fst (evaluateFlags req timeout (c, r)), n with
               | Return (Some v), S failed =>
                   failure_lines 1 failed
                   ++ ["[FeatureFlagClient] Flags evaluated: " +:+ JSON_stringify v]
               | _, _ => failure_lines 1 n
               end.
Proof.
  intros Hdbg.
  assert (log_lines (trace (logged "Evaluating flags..." c r))
          = log_lines (trace r) ++ ["[FeatureFlagClient] Evaluating flags..."])
    as Hstart by (by rewrite log_lines_logged, Hdbg).
  destruct (evaluateFlags_cases req timeout c r)
    as [(e & _ & Heq) | [(k & v & _ & _ & _ & Heq) | (k & _ & _ & _ & Heq)]];
    rewrite Heq;
    try (exists 0%nat; simpl; rewrite logged_served, Hstart;
         split; [lia | done]).
  destruct (loop_evaluateFlags _ _ _ _ _ _) as [res [c' r']] eqn:Hrun.
  assert (Z.to_nat (retries (retryPolicy c) - 1 + 1)
          <= Z.to_nat (retries (retryPolicy c)))%nat as Hfuel by lia.
  destruct (loop_evaluateFlags_log _ _ _ _ _ _ _ _ _ _ Hfuel Hdbg Hrun)
    as (n & Hsv & _ & Hlog).
  rewrite logged_served in Hsv. rewrite Hstart, <- app_assoc in Hlog.
  exists n. by split.
Qed.

Lemma try_evaluateFlag_log req t k c r :
  log_lines (trace (snd (snd (try_evaluateFlag req t k (c, r)))))
  = log_lines (trace r)
    ++ match attempt_result "Failed to evaluate flag"
               (fetch c (served r) (flag_url c) (init_of c req)) with
       | Return v =>
           if debug c
           then ["[FeatureFlagClient] Flag evaluated: " +:+ JSON_stringify v]
           else []
       | Throw _ => []
       end.
Proof.
  unfold try_evaluateFlag, bind, read, newAbortController, setTimeout,
    await_fetch, clearTimeout, lift, attempt_result. simpl.
  fold (flag_url c) (init_of c req).
  match goal with |- context [elapse ?ms (c, ?r0)] =>
    destruct (elapse_frame ms c r0) as (Hs & Htr & _);
    destruct (elapse ms (c, r0)) as [c1 r1]
  end.
  simpl in *.
  assert (debug c1 = debug c) as Hdbg by (by injection Hs as _ -> _ _ _ _ _ _).
  assert (log_lines (trace r1) = log_lines (trace r)) as Hlines
    by (by rewrite Htr, log_lines_app; simpl; rewrite app_nil_r).
  destruct (settled _) as [response | e]; simpl; [| by rewrite app_nil_r].
  destruct (handleErrorResponse response "Failed to evaluate flag")
    as [v | e] eqn:Hh; simpl; [| by rewrite app_nil_r].
  rewrite log_eq, setCache_eq. simpl.
  assert (forall r0 : Runtime,
            trace (if bool_decide (cacheTTL c1 > 0)
                   then armed FlagCache k (cacheTTL c1) r0 else r0) = trace r0)
    as -> by (intros r0; by case_bool_decide).
  by rewrite log_lines_logged, Hdbg, <- Hlines.
Qed.

Lemma catch_evaluateFlag_log attempt e c r :
  log_lines (trace (snd (snd (catch_evaluateFlag attempt e (c, r)))))
  = log_lines (trace r)
    ++ (if debug c
        then ["[FeatureFlagClient] Attempt " +:+ pretty attempt +:+ " failed."]
        else []).
Proof.
  unfold catch_evaluateFlag, bind, read, throw, ret.
  rewrite log_eq. simpl.
  case_bool_decide; simpl; [by rewrite log_lines_logged |].
  unfold sleep.
  match goal with |- context [elapse ?ms (c, ?r0)] =>
    destruct (elapse_frame ms c r0) as (_ & Htr & _);
    destruct (elapse ms (c, r0)) as [c2 r2]
  end.
  simpl in *. rewrite Htr. simpl. rewrite log_lines_app. simpl.
  by rewrite app_nil_r, log_lines_logged.
Qed.

Lemma loop_evaluateFlag_log req t k fuel :
  forall attempt c r res c' r',
    (Z.to_nat (retries (retryPolicy c) - attempt + 1) <= fuel)%nat ->
    debug c = true ->
    loop_evaluateFlag fuel req t k attempt (c, r) = (res, (c', r')) ->
    exists n : nat,
      served r' = (served r + n)%nat
      /\ (attempt <= retries (retryPolicy c) -> (1 <= n)%nat)
      /\ log_lines (trace r')
         = log_lines (trace r)
           ++ match res, n with
              | Return (Some v), S failed =>
                  failure_lines attempt failed
                  ++ ["[FeatureFlagClient] Flag evaluated: " +:+ JSON_stringify v]
              | _, _ => failure_lines attempt n
              end.
Proof.
  induction fuel as [| fuel IH]; intros attempt c r res c' r' Hfuel Hdbg Hrun;
    rewrite loop_evaluateFlag_step in Hrun; case_bool_decide as Hcond;
    try (injection Hrun as <- <- <-; exists 0%nat; simpl;
         rewrite app_nil_r; split_and!; try done; lia).
  destruct (try_evaluateFlag_run req t k c r)
    as (c1 & r1 & Htry & Hs1 & _ & Hsv1 & _).
  pose proof (try_evaluateFlag_log req t k c r) as Hlog1.
  rewrite Htry in Hlog1, Hrun. simpl in Hlog1. rewrite Hdbg in Hlog1.
  destruct (attempt_result _ _) as [v | e0] eqn:Har.
  - injection Hrun as <- <- <-. exists 1%nat. simpl. split_and!; try lia. done.
  - destruct (catch_evaluateFlag_run attempt e0 c1 r1)
      as (c2 & r2 & Hcatch & Hs2 & _ & Hsv2).
    pose proof (catch_evaluateFlag_log attempt e0 c1 r1) as Hlog2.
    rewrite Hcatch in Hlog2, Hrun. simpl in Hlog2.
    destruct (settings_inv _ _ Hs1) as (_ & _ & _ & _ & Hp1).
    assert (debug c1 = true) as Hd1
      by (rewrite <- Hdbg; by injection Hs1 as _ -> _ _ _ _ _ _).
    rewrite Hd1, Hlog1, app_nil_r in Hlog2.
    rewrite Hp1 in *.
    case_bool_decide as Hlast.
    + injection Hrun as <- <- <-. exists 1%nat. simpl. split_and!; try lia. done.
    + destruct (settings_inv c c2 ltac:(congruence)) as (_ & _ & _ & _ & Hp2).
      assert (debug c2 = true) as Hd2.
      { assert (settings c2 = settings c) as Hs by congruence.
        rewrite <- Hdbg. by injection Hs as _ -> _ _ _ _ _ _. }
      apply IH in Hrun as (n & Hsv & Hpos & Hlog); [| rewrite Hp2; lia | done].
      rewrite Hp2 in Hpos. specialize (Hpos ltac:(lia)).
      exists (S n). split_and!; try lia.
      rewrite Hlog, Hlog2, <- app_assoc. f_equal.
      destruct n as [| m]; [lia |].
      destruct res as [[v |] | e]; done.
Qed.

Lemma evaluateFlag_log req timeout c r :
  debug c = true ->
  exists n : nat,
    served (snd (snd (evaluateFlag req timeout (c, r)))) = (served r + n)%nat
    /\ log_lines (trace (snd (snd (evaluateFlag req timeout (c, r)))))
       = log_lines (trace r)
         ++ "[FeatureFlagClient] Evaluating flag..."
            :: match fst (evaluateFlag req timeout (c, r)), n with
               | Return (Some v), S failed =>
                   failure_lines 1 failed
                   ++ ["[FeatureFlagClient] Flag evaluated: " +:+ JSON_stringify v]
               | _, _ => failure_lines 1 n
               end.
Proof.
  intros Hdbg.
  assert (log_lines (trace (logged "Evaluating flag..." c r))
          = log_lines (trace r) ++ ["[FeatureFlagClient] Evaluating flag..."])
    as Hstart by (by rewrite log_lines_logged, Hdbg).
  destruct (evaluateFlag_cases req timeout c r)
    as [(e & _ & Heq) | [(k & v & _ & _ & _ & Heq) | (k & _ & _ & _ & Heq)]];
    rewrite Heq;
    try (exists 0%nat; simpl; rewrite logged_served, Hstart;
         split; [lia | done]).
  destruct (loop_evaluateFlag _ _ _ _ _ _) as [res [c' r']] eqn:Hrun.
  assert (Z.to_nat (retries (retryPolicy c) - 1 + 1)
          <= Z.to_nat (retries (retryPolicy c)))%nat as Hfuel by lia.
  destruct (loop_evaluateFlag_log _ _ _ _ _ _ _ _ _ _ Hfuel Hdbg Hrun)
    as (n & Hsv & _ & Hlog).
  rewrite logged_served in Hsv. rewrite Hstart, <- app_assoc in Hlog.
  exists n. by split.
Qed.

(** X23.  With [debug] on, the log tells the story of a call.  The first
    line is [Evaluating flags...] (or [Evaluating flag...]), written before
    the request is even validated; every failed attempt adds
    [Attempt i failed.], numbered from 1; an attempt that succeeds adds the
    value it fetched.  A cache hit and a refused request leave the first
    line alone. *)
Theorem the_log_tells_the_attempts (req : Request) (timeout : option Z)
    (c : Client) (r : Runtime) :
  debug c = true ->
  (exists n : nat,
     served (snd (snd (evaluateFlags req timeout (c, r)))) = (served r + n)%nat
     /\ log_lines (trace (snd (snd (evaluateFlags req timeout (c, r)))))
        = log_lines (trace r)
          ++ "[FeatureFlagClient] Evaluating flags..."
             :: match fst (evaluateFlags req timeout (c, r)), n with
                | Return (Some v), S failed =>
                    failure_lines 1 failed
                    ++ ["[FeatureFlagClient] Flags evaluated: " +:+ JSON_stringify v]
                | _, _ => failure_lines 1 n
                end)
  /\ (exists n : nat,
        served (snd (snd (evaluateFlag req timeout (c, r)))) = (served r + n)%nat
        /\ log_lines (trace (snd (snd (evaluateFlag req timeout (c, r)))))
           = log_lines (trace r)
             ++ "[FeatureFlagClient] Evaluating flag..."
                :: match fst (evaluateFlag req timeout (c, r)), n with
                   | Return (Some v), S failed =>
                       failure_lines 1 failed
                       ++ ["[FeatureFlagClient] Flag evaluated: " +:+ JSON_stringify v]
                   | _, _ => failure_lines 1 n
                   end).
Proof.
  intros Hdbg. split; [by apply evaluateFlags_log | by apply evaluateFlag_log].
Qed.

End Logging.

(** ** The size of the caches *)

Section Sizes.

Context `{!JSONStringify Request} `{!JSONStringify Json}.

Lemma evaluateFlags_size req timeout c r :
  let run := evaluateFlags req timeout (c, r) in
  (size (flagCache (fst (snd run))) <= size (flagCache c))%nat
  /\ (size (flagsCache (fst (snd run))) <= S (size (flagsCache c)))%nat
  /\ ((forall v, fst run <> Return (Some v)) ->
      (size (flagsCache (fst (snd run))) <= size (flagsCache c))%nat).
Proof.
  intros run. subst run.
  destruct (evaluateFlags_cases req timeout c r)
    as [(e & _ & Heq) | [(k & v & _ & _ & _ & Heq) | (k & Hv & Hk & Hmiss & _)]];
    try (rewrite Heq; simpl; split_and!; try done; lia).
  destruct (evaluateFlags req timeout (c, r)) as [res [c' r']] eqn:Hrun.
  destruct (evaluateFlags_miss_frame _ _ _ _ _ _ _ _ Hv Hk Hmiss Hrun)
    as (_ & Hother & Hown & _ & Hres).
  simpl. split; [by apply map_subseteq_size |].
  assert (flagsCache c' !! k = None -> flagsCache c' ⊆ flagsCache c) as Hsub.
  { intros Hnone. apply map_subseteq_spec. intros k' x Hx.
    destruct (decide (k' = k)) as [-> | Hne]; [congruence | by eapply Hown]. }
  destruct res as [[v |] | e].
  - destruct Hres as [Hin _]. split; [| intros Hno; by destruct (Hno v)].
    assert (flagsCache c' ⊆ <[k := v]> (flagsCache c)) as Hins.
    { apply map_subseteq_spec. intros k' x Hx.
      destruct (decide (k' = k)) as [-> | Hne].
      - rewrite lookup_insert_eq. congruence.
      - rewrite lookup_insert_ne by done. by eapply Hown. }
    apply map_subseteq_size in Hins.
    rewrite map_size_insert, Hmiss in Hins. done.
  - subst c'. split; [lia | done].
  - destruct Hres as [Hnone _]. apply Hsub, map_subseteq_size in Hnone.
    split; [lia | done].
Qed.

Lemma evaluateFlag_size req timeout c r :
  let run := evaluateFlag req timeout (c, r) in
  (size (flagsCache (fst (snd run))) <= size (flagsCache c))%nat
  /\ (size (flagCache (fst (snd run))) <= S (size (flagCache c)))%nat
  /\ ((forall v, fst run <> Return (Some v)) ->
      (size (flagCache (fst (snd run))) <= size (flagCache c))%nat).
Proof.
  intros run. subst run.
  destruct (evaluateFlag_cases req timeout c r)
    as [(e & _ & Heq) | [(k & v & _ & _ & _ & Heq) | (k & Hv & Hk & Hmiss & _)]];
    try (rewrite Heq; simpl; split_and!; try done; lia).
  destruct (evaluateFlag req timeout (c, r)) as [res [c' r']] eqn:Hrun.
  destruct (evaluateFlag_miss_frame _ _ _ _ _ _ _ _ Hv Hk Hmiss Hrun)
    as (_ & Hother & Hown & _ & Hres).
  simpl. split; [by apply map_subseteq_size |].
  assert (flagCache c' !! k = None -> flagCache c' ⊆ flagCache c) as Hsub.
  { intros Hnone. apply map_subseteq_spec. intros k' x Hx.
    destruct (decide (k' = k)) as [-> | Hne]; [congruence | by eapply Hown]. }
  destruct res as [[v |] | e].
  - destruct Hres as [Hin _]. split; [| intros Hno; by destruct (Hno v)].
    assert (flagCache c' ⊆ <[k := v]> (flagCache c)) as Hins.
    { apply map_subseteq_spec. intros k' x Hx.
      destruct (decide (k' = k)) as [-> | Hne].
      - rewrite lookup_insert_eq. congruence.
      - rewrite lookup_insert_ne by done. by eapply Hown. }
    apply map_subseteq_size in Hins.
    rewrite map_size_insert, Hmiss in Hins. done.
  - subst c'. split; [lia | done].
  - destruct Hres as [Hnone _]. apply Hsub, map_subseteq_size in Hnone.
    split; [lia | done].
Qed.

(** X24.  A call adds at most one entry, and only when it returns a value.
    After [evaluateFlags] the multi-flag count that [getCacheSize] reports
    is at most one more than before, and not more at all when the call
    rejected or resolved to [undefined]; the single-flag count has not
    grown.  For [evaluateFlag] the same holds with the counts exchanged. *)
Theorem a_call_adds_at_most_one_entry (req : Request) (timeout : option Z)
    (c : Client) (r : Runtime) :
  (let run := evaluateFlags req timeout (c, r) in
   (flagCache_size (getCacheSize (fst (snd run)))
    <= flagCache_size (getCacheSize c))%nat
   /\ (flagsCache_size (getCacheSize (fst (snd run)))
       <= S (flagsCache_size (getCacheSize c)))%nat
   /\ ((forall v, fst run <> Return (Some v)) ->
       (flagsCache_size (getCacheSize (fst (snd run)))
        <= flagsCache_size (getCacheSize c))%nat))
  /\ (let run := evaluateFlag req timeout (c, r) in
      (flagsCache_size (getCacheSize (fst (snd run)))
       <= flagsCache_size (getCacheSize c))%nat
      /\ (flagCache_size (getCacheSize (fst (snd run)))
          <= S (flagCache_size (getCacheSize c)))%nat
      /\ ((forall v, fst run <> Return (Some v)) ->
          (flagCache_size (getCacheSize (fst (snd run)))
           <= flagCache_size (getCacheSize c))%nat)).
Proof. split; [apply evaluateFlags_size | apply evaluateFlag_size]. Qed.

End Sizes.

(** ** The further properties at the sample client *)

Lemma rejection_means_every_attempt_failed_witness :
  exists c' r',
    @evaluateFlags Sample.stringify_request Sample.stringify_json
      Sample.request None (Sample.client Sample.failing, Sample.boot)
    = (Throw (Error "Failed to evaluate flags: Custom error message"), (c', r'))
    /\ served r' = 3%nat.
Proof.
  set (run := @evaluateFlags Sample.stringify_request Sample.stringify_json
                Sample.request None (Sample.client Sample.failing, Sample.boot)).
  assert (run = (Throw (Error "Failed to evaluate flags: Custom error message"),
                 (fst (snd run), snd (snd run)))) as Hrun
    by (vm_compute; reflexivity).
  exists (fst (snd run)), (snd (snd run)). split; [exact Hrun |].
  destruct (proj1 (@rejection_means_every_attempt_failed
                     Sample.stringify_request Sample.stringify_json
                     Sample.request None (Sample.client Sample.failing) _
                     Sample.boot _ _) eq_refl Hrun) as (_ & Hsv & _).
  exact Hsv.
Defined.

Lemma undefined_only_without_attempts_witness :
  let c := with_retryPolicy (mkPolicy 0 1000) (Sample.client Sample.failing) in
  fst (@evaluateFlag Sample.stringify_request Sample.stringify_json
         Sample.request None (c, Sample.boot)) = Return None
  /\ fst (@evaluateFlag Sample.stringify_request Sample.stringify_json
            Sample.request None (Sample.client Sample.failing, Sample.boot))
     <> Return None.
Proof.
  intros c. split.
  - apply (proj2 (@undefined_only_without_attempts Sample.stringify_request
                    Sample.stringify_json Sample.request None c Sample.boot
                    "production:user1" eq_refl) eq_refl).
    split; [simpl; lia | reflexivity].
  - intros Hnone.
    apply (proj2 (@undefined_only_without_attempts Sample.stringify_request
                    Sample.stringify_json Sample.request None
                    (Sample.client Sample.failing) Sample.boot
                    "production:user1" eq_refl) eq_refl) in Hnone.
    simpl in Hnone. lia.
Defined.


Lemma a_call_writes_only_its_own_key_witness :
  let c := with_cache FlagsCache {[ "staging:user2" := JNull ]}
             (Sample.client Sample.prompt) in
  flagCache (fst (snd (@evaluateFlags Sample.stringify_request
                         Sample.stringify_json Sample.request None
                         (c, Sample.boot)))) ⊆ flagCache c
  /\ flagsCache c !! "staging:user2" = Some JNull.
Proof.
  intros c.
  destruct (proj1 (@a_call_writes_only_its_own_key Sample.stringify_request
                     Sample.stringify_json Sample.request None c Sample.boot))
    as [Hother Hown].
  split; [exact Hother |].
  apply Hown; [discriminate | vm_compute; reflexivity].
Defined.

Lemma cached_entry_expires_after_its_ttl_witness :
  let c := with_cacheTTL 1000 (Sample.client Sample.prompt) in
  exists c' r',
    @evaluateFlags Sample.stringify_request Sample.stringify_json
      Sample.request None (c, Sample.boot)
    = (Return (Some Sample.feature1), (c', r'))
    /\ flagsCache c' !! "production:user1" = Some Sample.feature1
    /\ flagsCache (fst (elapse 1000 (c', r'))) !! "production:user1" = None
    /\ (1 <= attempts_made
              (@evaluateFlags Sample.stringify_request Sample.stringify_json
                 Sample.request None) (elapse 1000 (c', r')))%nat.
Proof.
  intros c.
  set (run := @evaluateFlags Sample.stringify_request Sample.stringify_json
                Sample.request None (c, Sample.boot)).
  assert (run = (Return (Some Sample.feature1), (fst (snd run), snd (snd run))))
    as Hrun by (vm_compute; reflexivity).
  exists (fst (snd run)), (snd (snd run)). split; [exact Hrun |].
  split; [vm_compute; reflexivity |].
  apply (proj1 (@cached_entry_expires_after_its_ttl Sample.stringify_request
                  Sample.stringify_json Sample.request None None c _
                  Sample.boot _ "production:user1" Sample.feature1 1000
                  eq_refl ltac:(simpl; lia) ltac:(simpl; lia)
                  ltac:(simpl; lia)) eq_refl eq_refl Hrun).
Defined.

Lemma cached_entry_is_kept_until_its_ttl_witness :
  let c := with_cacheTTL 1000 (Sample.client Sample.prompt) in
  exists c' r',
    @evaluateFlags Sample.stringify_request Sample.stringify_json
      Sample.request None (c, Sample.boot)
    = (Return (Some Sample.feature1), (c', r'))
    /\ fst (@evaluateFlags Sample.stringify_request Sample.stringify_json
              Sample.request None (elapse 999 (c', r')))
       = Return (Some Sample.feature1)
    /\ attempts_made
         (@evaluateFlags Sample.stringify_request Sample.stringify_json
            Sample.request None) (elapse 999 (c', r')) = 0%nat.
Proof.
  intros c.
  set (run := @evaluateFlags Sample.stringify_request Sample.stringify_json
                Sample.request None (c, Sample.boot)).
  assert (run = (Return (Some Sample.feature1), (fst (snd run), snd (snd run))))
    as Hrun by (vm_compute; reflexivity).
  exists (fst (snd run)), (snd (snd run)). split; [exact Hrun |].
  apply (proj1 (@cached_entry_is_kept_until_its_ttl Sample.stringify_request
                  Sample.stringify_json Sample.request None None c _
                  Sample.boot _ "production:user1" Sample.feature1 999
                  eq_refl ltac:(right; simpl; unfold TIMEOUT_MAX; lia))
           eq_refl eq_refl);
    [| exact Hrun].
  intros tm Hin. exact (False_ind _ (proj1 (elem_of_nil tm) Hin)).
Defined.

Lemma rejected_attempt_leaves_its_timer_pending_witness :
  exists c' r' tm,
    @evaluateFlag Sample.stringify_request Sample.stringify_json
      Sample.request None (Sample.client Sample.unreachable, Sample.boot)
    = (Throw (TypeError "fetch failed"), (c', r'))
    /\ tm ∈ timers r' /\ (exists n, callback tm = CbAbort n) /\ now r' < due tm.
Proof.
  set (run := @evaluateFlag Sample.stringify_request Sample.stringify_json
                Sample.request None
                (Sample.client Sample.unreachable, Sample.boot)).
  assert (run = (Throw (TypeError "fetch failed"),
                 (fst (snd run), snd (snd run)))) as Hrun
    by (vm_compute; reflexivity).
  destruct (proj2 (@rejected_attempt_leaves_its_timer_pending
                     Sample.stringify_request Sample.stringify_json
                     Sample.request None (Sample.client Sample.unreachable) _
                     Sample.boot _ "production:user1" _
                     (TypeError "fetch failed") eq_refl)
              eq_refl eq_refl Hrun eq_refl)
    as (tm & Hin & Hcb & Hdue).
  - vm_compute. discriminate.
  - vm_compute. reflexivity.
  - exists (fst (snd run)), (snd (snd run)), tm. by split_and!.
Defined.

Lemma a_result_is_not_served_across_partitions_witness :
  (1 <= attempts_made
          (@evaluateFlag Sample.stringify_request Sample.stringify_json
             Sample.request None)
          (snd (@evaluateFlags Sample.stringify_request Sample.stringify_json
                  Sample.request None
                  (Sample.client Sample.prompt, Sample.boot))))%nat.
Proof.
  apply (proj1 (@a_result_is_not_served_across_partitions
                  Sample.stringify_request Sample.stringify_json
                  Sample.request Sample.request None None
                  (Sample.client Sample.prompt) Sample.boot
                  "production:user1" eq_refl ltac:(simpl; lia))
           eq_refl eq_refl).
Defined.

Lemma nothing_is_logged_with_debug_off_witness :
  exists n : nat,
    trace (snd (snd (@evaluateFlags Sample.stringify_request
                       Sample.stringify_json Sample.request None
                       (Sample.client Sample.failing, Sample.boot))))
    = retry_schedule n "https://api.example.com/api/v1/evaluate/flags"
        (@init_of Sample.stringify_request (Sample.client Sample.failing)
           Sample.request) 1000.
Proof.
  exact (proj1 (@nothing_is_logged_with_debug_off Sample.stringify_request
                  Sample.stringify_json Sample.request None
                  (Sample.client Sample.failing) Sample.boot eq_refl)).
Defined.

Lemma clearCache_empties_both_partitions_witness :
  let c := with_cache FlagsCache {[ "production:user1" := Sample.feature1 ]}
             (Sample.client Sample.prompt) in
  exists c' r',
    clearCache (c, Sample.boot) = (Return tt, (c', r'))
    /\ getCacheSize c' = mkCacheSize 0 0
    /\ (1 <= attempts_made
              (@evaluateFlags Sample.stringify_request Sample.stringify_json
                 Sample.request None) (c', r'))%nat.
Proof.
  intros c.
  destruct (@clearCache_empties_both_partitions Sample.stringify_request
              Sample.stringify_json c Sample.boot)
    as (c' & r' & Hrun & Hsize & _ & _ & Hlater).
  exists c', r'. split; [exact Hrun |]. split; [exact Hsize |].
  apply (Hlater ltac:(simpl; lia) Sample.request None). reflexivity.
Defined.

Lemma cache_survives_reconfiguration_witness :
  let c := with_cache FlagsCache {[ "production:user1" := Sample.feature1 ]}
             (Sample.client Sample.failing) in
  let st := snd (@setBaseUrl Sample.url_parser "https://new-api.example.com"
                   (c, Sample.boot)) in
  baseUrl (fst st) = "https://new-api.example.com"
  /\ fst (@evaluateFlags Sample.stringify_request Sample.stringify_json
            Sample.request None st) = Return (Some Sample.feature1)
  /\ attempts_made
       (@evaluateFlags Sample.stringify_request Sample.stringify_json
          Sample.request None) st = 0%nat.
Proof.
  intros c st. split; [reflexivity |].
  destruct (@cache_survives_reconfiguration Sample.url_parser
              Sample.stringify_request Sample.stringify_json
              (@setBaseUrl Sample.url_parser "https://new-api.example.com")
              "new-api-key" "https://new-api.example.com" ∅ 5 200 1000 123 true
              c Sample.boot) as (_ & _ & _ & _ & Hhit).
  - apply elem_of_cons; right. apply elem_of_cons; left. reflexivity.
  - exact (proj1 (Hhit Sample.request None "production:user1" Sample.feature1
                    eq_refl) eq_refl eq_refl).
Defined.

Lemma overwritten_entry_expires_with_the_older_timer_witness :
  let c := with_cacheTTL 1000 (Sample.client Sample.prompt) in
  let st1 := snd (setCache FlagsCache "production:user1" JNull (c, Sample.boot)) in
  let st2 := snd (setCache FlagsCache "production:user1" Sample.feature1
                    (elapse 400 st1)) in
  cache FlagsCache (fst st2) !! "production:user1" = Some Sample.feature1
  /\ cache FlagsCache (fst (elapse 600 st2)) !! "production:user1" = None.
Proof.
  intros c.
  apply (overwritten_entry_expires_with_the_older_timer FlagsCache
           "production:user1" JNull Sample.feature1 c Sample.boot 400 600);
    simpl; lia.
Defined.

Lemma constructor_checks_only_the_key_witness :
  constructor (Config.mk "new-api-key" None None None None) None Sample.prompt
  = Throw (Error "Invalid API key. The key must be a 32-character hexadecimal string.")
  /\ exists c,
       constructor Sample.config None Sample.prompt = Return c
       /\ Config.baseUrl (getConfig c) = Some "https://api.example.com"
       /\ Config.defaultTimeout (getConfig c) = Some 5000
       /\ getCacheSize c = mkCacheSize 0 0.
Proof.
  split.
  - exact (proj1 (constructor_checks_only_the_key
                    (Config.mk "new-api-key" None None None None) None
                    Sample.prompt) eq_refl).
  - destruct (proj2 (constructor_checks_only_the_key Sample.config None
                       Sample.prompt) eq_refl)
      as (c & Hnew & Hconfig & Hsize & _).
    exists c. split; [exact Hnew |]. rewrite Hconfig. by split_and!.
Defined.

Lemma setBaseUrl_takes_effect_only_when_valid_witness :
  @setBaseUrl Sample.url_parser "invalid-url"
    (Sample.client Sample.prompt, Sample.boot)
  = (Throw (Error "Invalid base URL: invalid-url"),
     (Sample.client Sample.prompt, Sample.boot))
  /\ exists c' r',
       @setBaseUrl Sample.url_parser "https://new-api.example.com"
         (Sample.client Sample.prompt, Sample.boot)
       = (Return tt, (c', r'))
       /\ flag_url c' = "https://new-api.example.com/api/v1/evaluate/flag".
Proof.
  split.
  - exact (proj1 (@setBaseUrl_takes_effect_only_when_valid Sample.url_parser
                    "invalid-url" (Sample.client Sample.prompt) Sample.boot)
             eq_refl).
  - destruct (proj1 (proj2 (@setBaseUrl_takes_effect_only_when_valid
                              Sample.url_parser "https://new-api.example.com"
                              (Sample.client Sample.prompt) Sample.boot))
                eq_refl)
      as (c' & r' & Hrun & _ & _ & Hflag & _).
    exists c', r'. split; [exact Hrun | exact Hflag].
Defined.

Lemma cache_key_runs_colons_together_witness :
  let first := mkRequest None (Some "eu:west") (Some (User.mk (Some "7") None)) in
  let second := mkRequest None (Some "eu") (Some (User.mk (Some "west:7") None)) in
  let st1 := snd (@evaluateFlags Sample.stringify_request Sample.stringify_json
                    first None (Sample.client Sample.prompt, Sample.boot)) in
  getCacheKey first = getCacheKey second
  /\ fst (@evaluateFlags Sample.stringify_request Sample.stringify_json
            second None st1) = Return (Some Sample.feature1)
  /\ attempts_made
       (@evaluateFlags Sample.stringify_request Sample.stringify_json
          second None) st1 = 0%nat.
Proof.
  intros first second st1.
  destruct (@cache_key_runs_colons_together Sample.stringify_request
              Sample.stringify_json "eu" "west" "7" None None None None
              None None (Sample.client Sample.prompt, Sample.boot) st1
              Sample.feature1 ltac:(discriminate) ltac:(discriminate))
    as (_ & _ & _ & _ & Hkey & Hhit).
  split; [exact Hkey |]. apply Hhit. vm_compute. reflexivity.
Defined.

Lemma cache_key_is_injective_without_colons_witness :
  user Sample.request ≫= User.id = user Sample.other_flag ≫= User.id.
Proof.
  assert (colon_free "production") as Hfree.
  { intros x y Heq.
    repeat (destruct x as [| ? x];
            [ rewrite append_nil_l, append_cons in Heq; discriminate Heq
            | rewrite append_cons in Heq; injection Heq as _ Heq ]).
    destruct x; [rewrite append_nil_l, append_cons in Heq |
                 rewrite append_cons in Heq]; discriminate Heq. }
  exact (proj2 (cache_key_is_injective_without_colons Sample.request
                  Sample.other_flag "production" "production"
                  "production:user1" eq_refl eq_refl Hfree Hfree
                  eq_refl eq_refl eq_refl eq_refl)).
Defined.

Lemma timeout_reaches_nothing_visible_witness :
  let st1 := snd (@evaluateFlags Sample.stringify_request Sample.stringify_json
                    Sample.request (Some 5000)
                    (Sample.client Sample.slow, Sample.boot)) in
  let st2 := snd (@evaluateFlags Sample.stringify_request Sample.stringify_json
                    Sample.request (Some 20000)
                    (Sample.client Sample.slow, Sample.boot)) in
  aborted (snd st1) <> aborted (snd st2)
  /\ fst (@evaluateFlag Sample.stringify_request Sample.stringify_json
            Sample.request (Some 1) st1)
     = fst (@evaluateFlag Sample.stringify_request Sample.stringify_json
              Sample.request None st2).
Proof.
  intros st1 st2. split.
  - intros Heq. apply (f_equal elements) in Heq. vm_compute in Heq.
    discriminate Heq.
  - apply (@timeout_reaches_nothing_visible Sample.stringify_request
             Sample.stringify_json Sample.request (Some 1) None st1 st2 0).
    vm_compute. reflexivity.
Defined.


Lemma the_log_tells_the_attempts_witness :
  log_lines
    (trace (snd (snd (@evaluateFlags Sample.stringify_request
                        Sample.stringify_json Sample.request None
                        (with_debug true (Sample.client Sample.flaky),
                         Sample.boot)))))
  = ["[FeatureFlagClient] Evaluating flags...";
     "[FeatureFlagClient] Attempt 1 failed.";
     "[FeatureFlagClient] Attempt 2 failed.";
     "[FeatureFlagClient] Flags evaluated: null"].
Proof.
  destruct (proj1 (@the_log_tells_the_attempts Sample.stringify_request
                     Sample.stringify_json Sample.request None
                     (with_debug true (Sample.client Sample.flaky))
                     Sample.boot eq_refl)) as (n & Hsv & Hlog).
  vm_compute in Hsv. subst n. rewrite Hlog. vm_compute. reflexivity.
Defined.

Lemma a_call_adds_at_most_one_entry_witness :
  (flagsCache_size
     (getCacheSize
        (fst (snd (@evaluateFlags Sample.stringify_request
                     Sample.stringify_json Sample.request None
                     (Sample.client Sample.failing, Sample.boot)))))
   <= 0)%nat.
Proof.
  apply (proj1 (@a_call_adds_at_most_one_entry Sample.stringify_request
                  Sample.stringify_json Sample.request None
                  (Sample.client Sample.failing) Sample.boot)).
  intros v. vm_compute. discriminate.
Defined.
